(** * putio-sync: the persistent store ([package sync])

    A shallow embedding of [Store] (store.go) and [Config] (config.go):
    the bucket layout kept in one bolt database, the big-endian keys of
    download states, and the fallback rules of the accessors.

    Go features are rendered as follows.
    - [int64], [uint64] and [uint] are [Z] with the wrap-around written out;
      [[]byte] is [list byte], a Go [string] is [string].
    - A Go [error] is [option error] ([None] is [nil]); a pointer that may be
      [nil] is an [option].
    - A run-time panic (a nil pointer dereference) is the outcome [Panics].
    - bolt and encoding/gob are libraries outside the repository: bolt is
      modelled by its documented behaviour on ordered nested buckets, gob by
      a type class whose laws are stated where a theorem needs them. *)

From Stdlib Require Import String Ascii ZArith Bool List Lia Sorted.
From Stdlib Require Import Strings.Byte DecimalString.
Import ListNotations.
Local Open Scope Z_scope.

Set Implicit Arguments.

(** ** Bytes *)

Definition bytes := list byte.

Definition byte_to_Z (x : byte) : Z := Z.of_N (Byte.to_N x).

(** Go's conversion [byte(z)]: the low eight bits. *)
Definition byte_of_Z (z : Z) : byte :=
  match Byte.of_N (Z.to_N (z mod 256)) with
  | Some b => b
  | None => x00
  end.

(** [[]byte(s)] *)
Definition bytes_of_string (s : string) : bytes := list_byte_of_string s.

(** [bytes.Compare]: lexicographic order on unsigned bytes; bolt orders the
    keys of a bucket with it. *)
Fixpoint bytes_compare (a b : bytes) : comparison :=
  match a, b with
  | [], [] => Eq
  | [], _ :: _ => Lt
  | _ :: _, [] => Gt
  | x :: a', y :: b' =>
      match Z.compare (byte_to_Z x) (byte_to_Z y) with
      | Eq => bytes_compare a' b'
      | c => c
      end
  end.

Definition bytes_eqb (a b : bytes) : bool :=
  match bytes_compare a b with Eq => true | _ => false end.

Definition bytes_lt (a b : bytes) : Prop := bytes_compare a b = Lt.

(** ** Key encoding *)

Definition int64 (v : Z) : Prop := - 2 ^ 63 <= v < 2 ^ 63.

(** The conversion [uint64(v)] of an [int64]. *)
Definition uint64 (v : Z) : Z := v mod 2 ^ 64.

(** [binary.BigEndian.PutUint64] on a fresh 8-byte slice. *)
Definition PutUint64 (v : Z) : bytes :=
  [ byte_of_Z (Z.shiftr v 56); byte_of_Z (Z.shiftr v 48);
    byte_of_Z (Z.shiftr v 40); byte_of_Z (Z.shiftr v 32);
    byte_of_Z (Z.shiftr v 24); byte_of_Z (Z.shiftr v 16);
    byte_of_Z (Z.shiftr v 8);  byte_of_Z v ].

Definition itob (v : Z) : bytes := PutUint64 (uint64 v).

(** The number a byte string denotes when read big-endian. *)
Fixpoint be_value (l : bytes) : Z :=
  match l with
  | [] => 0
  | x :: l' => byte_to_Z x * 256 ^ Z.of_nat (length l') + be_value l'
  end.

(** ** Errors and outcomes *)

(** A non-nil value of Go's [error] interface: either of this package's
    type [Error] (a string), or an error value made by a library (bolt, gob,
    os/user), which is of another dynamic type and so never [==] to one of
    the constants below. *)
Inductive goerror : Type :=
| Error (msg : string)
| Foreign (msg : string).

Definition ErrStateNotFound : goerror := Error "state not found".
Definition ErrConfigNotFound : goerror := Error "configuration not found".
Definition ErrSaveStateFailed : goerror := Error "state could not be saved".

(** The error values of bolt that the store can meet. *)
Definition ErrDatabaseNotOpen : goerror := Foreign "database not open".
Definition ErrBucketExists : goerror := Foreign "bucket already exists".
Definition ErrBucketNameRequired : goerror := Foreign "bucket name required".
Definition ErrKeyRequired : goerror := Foreign "key required".
Definition ErrKeyTooLarge : goerror := Foreign "key too large".
Definition ErrValueTooLarge : goerror := Foreign "value too large".
Definition ErrIncompatibleValue : goerror := Foreign "incompatible value".

(** [err == e] on interface values. *)
Definition goerror_eqb (a b : goerror) : bool :=
  match a, b with
  | Error x, Error y => String.eqb x y
  | Foreign x, Foreign y => String.eqb x y
  | _, _ => false
  end.

(** What a call does: it returns, or it panics (the store's only panics are
    nil pointer dereferences). *)
Inductive outcome (A : Type) : Type :=
| Returns (a : A)
| Panics.
Arguments Panics {A}.

(** ** bolt: ordered, nested buckets *)

(** The entry under a key is a value or a nested bucket. *)
#[warnings="-register-all"]
Inductive node : Type :=
| Leaf (value : bytes)
| Nested (entries : list (bytes * node)).

(** A bucket lists its entries in ascending key order. *)
Definition Bucket := list (bytes * node).

Definition MaxKeySize : Z := 32768.
Definition MaxValueSize : Z := Z.shiftl 1 31 - 2.

Fixpoint bucket_find (key : bytes) (b : Bucket) : option node :=
  match b with
  | [] => None
  | (k, n) :: b' => if bytes_eqb k key then Some n else bucket_find key b'
  end.

(** Insert at the key's place in the order, replacing an entry of that key. *)
Fixpoint bucket_insert (key : bytes) (n : node) (b : Bucket) : Bucket :=
  match b with
  | [] => [(key, n)]
  | (k, m) :: b' =>
      match bytes_compare key k with
      | Lt => (key, n) :: (k, m) :: b'
      | Eq => (key, n) :: b'
      | Gt => (k, m) :: bucket_insert key n b'
      end
  end.

(** A [*bolt.Bucket] names a bucket of the transaction by the bucket names
    leading to it from the root; the nil pointer is [None]. Writes through a
    handle are seen through every other handle of the transaction. *)
Abbreviation bucket_path := (list bytes) (only parsing).
Abbreviation handle := (option (list bytes)) (only parsing).

Fixpoint bucket_at (r : Bucket) (p : bucket_path) : option Bucket :=
  match p with
  | [] => Some r
  | name :: p' =>
      match bucket_find name r with
      | Some (Nested b) => bucket_at b p'
      | _ => None
      end
  end.

Fixpoint bucket_update (r : Bucket) (p : bucket_path) (f : Bucket -> Bucket)
  : Bucket :=
  match p with
  | [] => f r
  | name :: p' =>
      match bucket_find name r with
      | Some (Nested b) => bucket_insert name (Nested (bucket_update b p' f)) r
      | _ => r
      end
  end.

(** The body of a transaction: a computation on the root bucket that may
    panic. *)
Definition Tx (A : Type) : Type := Bucket -> outcome (A * Bucket).

Definition tx_ret {A} (a : A) : Tx A := fun r => Returns (a, r).

Definition tx_bind {A B} (m : Tx A) (k : A -> Tx B) : Tx B :=
  fun r =>
    match m r with
    | Returns (a, r') => k a r'
    | Panics => Panics
    end.

Notation "x <- m ;; k" := (tx_bind m (fun x => k))
  (at level 61, m at next level, right associativity).
Notation "' p <- m ;; k" := (tx_bind m (fun x => let 'p := x in k))
  (at level 61, p pattern, m at next level, right associativity).

(** Run [f] on the bucket a handle points to; a nil handle is dereferenced
    by every method of [*Bucket], which panics. *)
Definition with_bucket {A} (h : handle)
    (f : bucket_path -> Bucket -> Tx A) : Tx A :=
  fun r =>
    match h with
    | None => Panics
    | Some p =>
        match bucket_at r p with
        | Some b => f p b r
        | None => Panics
        end
    end.

(** [Bucket.Bucket]: nil when the key is absent or holds a value. *)
Definition Bucket_Bucket (h : handle) (name : bytes) : Tx handle :=
  with_bucket h (fun p b =>
    match bucket_find name b with
    | Some (Nested _) => tx_ret (Some (p ++ [name]))
    | _ => tx_ret None
    end).

(** [Tx.Bucket] is [tx.root.Bucket]. *)
Definition tx_Bucket (name : bytes) : Tx handle := Bucket_Bucket (Some []) name.

(** [Bucket.Get]: nil when the key is absent or holds a nested bucket. *)
Definition Bucket_Get (h : handle) (key : bytes) : Tx (option bytes) :=
  with_bucket h (fun _ b =>
    match bucket_find key b with
    | Some (Leaf v) => tx_ret (Some v)
    | _ => tx_ret None
    end).

(** [Bucket.Put] in a writable transaction. *)
Definition Bucket_Put (h : handle) (key value : bytes) : Tx (option goerror) :=
  with_bucket h (fun p b =>
    if (length key =? 0)%nat then tx_ret (Some ErrKeyRequired)
    else if Z.of_nat (length key) >? MaxKeySize then tx_ret (Some ErrKeyTooLarge)
    else if Z.of_nat (length value) >? MaxValueSize
         then tx_ret (Some ErrValueTooLarge)
    else match bucket_find key b with
         | Some (Nested _) => tx_ret (Some ErrIncompatibleValue)
         | _ => fun r =>
             Returns (None, bucket_update r p (bucket_insert key (Leaf value)))
         end).

(** [Bucket.CreateBucket] in a writable transaction. *)
Definition Bucket_CreateBucket (h : handle) (key : bytes)
  : Tx (handle * option goerror) :=
  with_bucket h (fun p b =>
    if (length key =? 0)%nat then tx_ret (None, Some ErrBucketNameRequired)
    else match bucket_find key b with
         | Some (Nested _) => tx_ret (None, Some ErrBucketExists)
         | Some (Leaf _) => tx_ret (None, Some ErrIncompatibleValue)
         | None => fun r =>
             Returns ((Some (p ++ [key]), None),
                      bucket_update r p (bucket_insert key (Nested [])))
         end).

(** [Bucket.CreateBucketIfNotExists]. *)
Definition Bucket_CreateBucketIfNotExists (h : handle) (key : bytes)
  : Tx (handle * option goerror) :=
  '(child, err) <- Bucket_CreateBucket h key ;;
  match err with
  | Some e =>
      if goerror_eqb e ErrBucketExists
      then (c <- Bucket_Bucket h key ;; tx_ret (c, None))
      else tx_ret (None, Some e)
  | None => tx_ret (child, None)
  end.

Definition tx_CreateBucketIfNotExists (name : bytes)
  : Tx (handle * option goerror) :=
  Bucket_CreateBucketIfNotExists (Some []) name.

(** What a cursor yields from [First] through the calls of [Next], until the
    key is nil: every entry in key order, a nested bucket with a nil value. *)
Definition cursor_items (b : Bucket) : list (bytes * bytes) :=
  map (fun e => (fst e, match snd e with Leaf v => v | Nested _ => [] end)) b.

(** [Bucket.Cursor] followed by the iteration. *)
Definition Bucket_Cursor (h : handle) : Tx (list (bytes * bytes)) :=
  with_bucket h (fun _ b => tx_ret (cursor_items b)).

(** An open database file. [commit_err] and [close_err] are the faults of
    the host the handle will meet: the error a commit reports (a full disk,
    say) and the error closing the file reports, if any. *)
Record DB : Type := mkDB {
  root : Bucket;
  opened : bool;
  commit_err : option goerror;
  close_err : option goerror
}.

Definition set_root (d : DB) (r : Bucket) : DB :=
  mkDB r (opened d) (commit_err d) (close_err d).

(** [DB.Update]: the body's writes are committed when it returns nil and
    rolled back when it returns an error or panics. *)
Definition DB_Update (fn : Tx (option goerror)) (d : DB)
  : outcome (option goerror * DB) :=
  if negb (opened d) then Returns (Some ErrDatabaseNotOpen, d)
  else match fn (root d) with
       | Panics => Panics
       | Returns (Some e, _) => Returns (Some e, d)
       | Returns (None, r) =>
           match commit_err d with
           | Some e => Returns (Some e, d)
           | None => Returns (None, set_root d r)
           end
       end.

(** [DB.View]. The body returns, next to its error, the final values
    [S] of the variables of the caller it assigns to; when the transaction
    cannot begin they keep their initial values. *)
Definition DB_View {S} (init : S) (fn : Tx (S * option goerror)) (d : DB)
  : outcome (S * option goerror) :=
  if negb (opened d) then Returns (init, Some ErrDatabaseNotOpen)
  else match fn (root d) with
       | Panics => Panics
       | Returns (res, _) => Returns res
       end.

(** [DB.Close]. *)
Definition DB_Close (d : DB) : option goerror * DB :=
  if negb (opened d) then (None, d)
  else (close_err d, mkDB (root d) false (commit_err d) (close_err d)).

(** ** encoding/gob *)

(** [gob.NewEncoder(&buf).Encode(x)]: the bytes written, or the message of
    the error. [gob.NewDecoder(r).Decode(&x)] assigns to [x] field by field:
    [gob_decode r x] is [x] as the decoder leaves it, together with the
    message of the error it may report; after an error [x] holds the fields
    that were set before the failure. *)
Class Gob (A : Type) : Type := {
  gob_encode : A -> string + bytes;
  gob_decode : bytes -> A -> A * option string
}.

(** A Go type with its zero value, the value of [var x A]. *)
Class Zero (A : Type) : Type := zero_value : A.

(** The error [Decode] returns: nil, or the library's error. *)
Definition decode_err (e : option string) : option goerror :=
  match e with
  | Some msg => Some (Foreign msg)
  | None => None
  end.

(** ** Records *)

(** Modelled from the spec: the [State] struct is declared in a file of the
    package that is not under src/. The store reads its file identifier
    ([int64]) and its [IsHidden] flag; the transfer-progress fields are
    opaque to it and stand here as one component. *)
Record State : Type := mkState {
  FileID : Z;
  IsHidden : bool;
  Transfer : bytes
}.

(** [var state State] *)
Definition zero_State : State := mkState 0 false [].

#[export] Instance Zero_State : Zero State := zero_State.

Record Config : Type := mkConfig {
  PollInterval : Z;
  DownloadTo : string;
  DownloadFrom : Z;
  SegmentsPerFile : Z;
  MaxParallelFiles : Z;
  OAuth2Token : string;
  WatchTorrentsFolder : bool;
  TorrentsFolder : string;
  IsPaused : bool;
  DeleteRemoteFile : bool
}.

(** [var cfg Config] *)
Definition zero_Config : Config :=
  mkConfig 0 "" 0 0 0 "" false "" false false.

#[export] Instance Zero_Config : Zero Config := zero_Config.

Definition defaultSegmentsPerFile : Z := 3.
Definition defaultMaxParallelFiles : Z := 2.
Definition defaultDownloadFrom : Z := -1.
(** [2 * time.Minute], in nanoseconds *)
Definition defaultPollInterval : Z := 2 * 60000000000.
Definition limitSegmentsPerFile : Z := 8.
Definition limitParallelFiles : Z := 8.

(** ** The host *)

Record OsUser : Type := mkOsUser { HomeDir : string }.

(** The operating system as the store meets it: what [bolt.Open] yields for
    a path (with mode 0666 and the timeout of ten seconds), what
    [user.Current] yields, and [filepath.Join]. *)
Record Host : Type := mkHost {
  bolt_Open : string -> goerror + DB;
  user_Current : goerror + OsUser;
  filepath_Join : string -> string -> string
}.

(** ** The store *)

Definition downloadItemsBucket : bytes := bytes_of_string "download-items".
Definition watchedTorrentsBucket : bytes := bytes_of_string "watched-torrents".
Definition defaultsBucket : bytes := bytes_of_string "defaults".

Record Store : Type := mkStore {
  path : string;
  db : option DB
}.

Definition NewStore (p : string) : Store := mkStore p None.

(** The methods of [*Store]. *)
Module Store.

(** [s.db.Update(fn)]; a store that was never opened has a nil [db]. *)
Definition db_Update (s : Store) (fn : Tx (option goerror))
  : outcome (option goerror * Store) :=
  match db s with
  | None => Panics
  | Some d =>
      match DB_Update fn d with
      | Panics => Panics
      | Returns (err, d') => Returns (err, mkStore (path s) (Some d'))
      end
  end.

(** [s.db.View(fn)] *)
Definition db_View {S} (s : Store) (init : S)
    (fn : Tx (S * option goerror)) : outcome (S * option goerror) :=
  match db s with
  | None => Panics
  | Some d => DB_View init fn d
  end.

Definition Open (h : Host) (s : Store) : outcome (option goerror * Store) :=
  match bolt_Open h (path s) with
  | inl err => Returns (Some err, s)
  | inr d =>
      let s := mkStore (path s) (Some d) in
      match db_Update s
              ('(_, err) <- tx_CreateBucketIfNotExists defaultsBucket ;;
               tx_ret err) with
      | Panics => Panics
      | Returns (Some _, s') =>
          match db s' with
          | None => Panics
          | Some d' =>
              let '(cerr, d'') := DB_Close d' in
              Returns (cerr, mkStore (path s') (Some d''))
          end
      | Returns (None, s') => Returns (None, s')
      end
  end.

Definition Close (s : Store) : outcome (option goerror * Store) :=
  match db s with
  | None => Panics
  | Some d =>
      let '(cerr, d') := DB_Close d in
      Returns (cerr, mkStore (path s) (Some d'))
  end.

Definition Path (s : Store) : string := path s.

(** The loop of [CreateBuckets] over the child buckets. *)
Fixpoint CreateBuckets_loop (userBkt : handle) (buckets : list bytes)
  : Tx (option goerror) :=
  match buckets with
  | [] => tx_ret None
  | bucket :: rest =>
      '(_, err) <- Bucket_CreateBucketIfNotExists userBkt bucket ;;
      match err with
      | Some e => tx_ret (Some e)
      | None => CreateBuckets_loop userBkt rest
      end
  end.

Definition CreateBuckets (forUser : string) (s : Store)
  : outcome (option goerror * Store) :=
  db_Update s
    ('(userBkt, err) <- tx_CreateBucketIfNotExists (bytes_of_string forUser) ;;
     match err with
     | Some e => tx_ret (Some e)
     | None =>
         CreateBuckets_loop userBkt [downloadItemsBucket; watchedTorrentsBucket]
     end).

Definition CurrentUser (s : Store) : outcome (string * option goerror) :=
  match db_View s ""%string
          (bkt <- tx_Bucket defaultsBucket ;;
           value <- Bucket_Get bkt (bytes_of_string "current-user") ;;
           tx_ret (string_of_list_byte
                     (match value with Some v => v | None => [] end),
                   None)) with
  | Panics => Panics
  | Returns (_, Some err) => Returns (""%string, Some err)
  | Returns (username, None) => Returns (username, None)
  end.

Definition SaveCurrentUser (username : string) (s : Store)
  : outcome (option goerror * Store) :=
  db_Update s
    (bkt <- tx_Bucket defaultsBucket ;;
     Bucket_Put bkt (bytes_of_string "current-user") (bytes_of_string username)).

Definition DefaultConfig (h : Host) : option Config * option goerror :=
  match user_Current h with
  | inl err => (None, Some err)
  | inr u =>
      (Some (mkConfig defaultPollInterval
                      (filepath_Join h (HomeDir u) "putio-sync")
                      defaultDownloadFrom
                      defaultSegmentsPerFile
                      defaultMaxParallelFiles
                      ""
                      false
                      ""
                      true
                      false),
       None)
  end.

Section StoreRecords.

Context {gobState : Gob State} {gobConfig : Gob Config}.

Definition SaveState (state : State) (forUser : string) (s : Store)
  : outcome (option goerror * Store) :=
  db_Update s
    (userBkt <- tx_Bucket (bytes_of_string forUser) ;;
     downloadsBkt <- Bucket_Bucket userBkt downloadItemsBucket ;;
     let key := itob (FileID state) in
     match gob_encode state with
     | inl msg => tx_ret (Some (Foreign msg))
     | inr value => Bucket_Put downloadsBkt key value
     end).

(** The cursor loop of [States]: [states] is the slice built so far; each
    round decodes into a [state] of its own. *)
Fixpoint States_loop (items : list (bytes * bytes)) (states : list State)
  : list State * option goerror :=
  match items with
  | [] => (states, None)
  | (_, v) :: rest =>
      let '(state, err) := gob_decode v zero_State in
      match err with
      | Some msg => (states, Some (Foreign msg))
      | None =>
          if IsHidden state then States_loop rest states
          else States_loop rest (states ++ [state])
      end
  end.

Definition States (forUser : string) (s : Store)
  : outcome (list State * option goerror) :=
  let states := @nil State in
  if String.eqb forUser "" then Returns (states, None)
  else
    db_View s states
      (userBkt <- tx_Bucket (bytes_of_string forUser) ;;
       downloadsBkt <- Bucket_Bucket userBkt downloadItemsBucket ;;
       items <- Bucket_Cursor downloadsBkt ;;
       tx_ret (States_loop items states)).

Definition SaveConfig (cfg : Config) (forUser : string) (s : Store)
  : outcome (option goerror * Store) :=
  db_Update s
    (userBkt <- tx_Bucket (bytes_of_string forUser) ;;
     let key := bytes_of_string "config" in
     match gob_encode cfg with
     | inl msg => tx_ret (Some (Foreign msg))
     | inr value => Bucket_Put userBkt key value
     end).

Definition State (id : Z) (forUser : string) (s : Store)
  : outcome (State * option goerror) :=
  db_View s zero_State
    (userBkt <- tx_Bucket (bytes_of_string forUser) ;;
     downloadsBkt <- Bucket_Bucket userBkt downloadItemsBucket ;;
     let fileID := itob id in
     value <- Bucket_Get downloadsBkt fileID ;;
     match value with
     | None => tx_ret (zero_State, Some ErrStateNotFound)
     | Some v =>
         let '(state, err) := gob_decode v zero_State in
         tx_ret (state, decode_err err)
     end).

Definition Config (h : Host) (forUser : string) (s : Store)
  : outcome (option Config * option goerror) :=
  if String.eqb forUser "" then Returns (DefaultConfig h)
  else
    match db_View s zero_Config
            (userBkt <- tx_Bucket (bytes_of_string forUser) ;;
             let key := bytes_of_string "config" in
             value <- Bucket_Get userBkt key ;;
             match value with
             | None => tx_ret (zero_Config, Some ErrConfigNotFound)
             | Some v =>
                 let '(cfg, err) := gob_decode v zero_Config in
                 tx_ret (cfg, decode_err err)
             end) with
    | Panics => Panics
    | Returns (cfg, err) =>
        match err with
        | Some e =>
            if goerror_eqb e ErrConfigNotFound then Returns (DefaultConfig h)
            else Returns (Some cfg, err)
        | None => Returns (Some cfg, err)
        end
    end.

End StoreRecords.

End Store.

(** ** Derived notions used by the statements *)

(** A value that gob encodes, within bolt's size limit, into bytes that
    decode, into a zero value and without an error, to the same value
    again. *)
Definition storable {A} `{Gob A} `{Zero A} (x : A) : Prop :=
  match gob_encode x with
  | inr v =>
      Z.of_nat (length v) <= MaxValueSize /\
      gob_decode v zero_value = (x, None)
  | inl _ => False
  end.

(** The store holds an open handle whose commits succeed. *)
Definition live (s : Store) : Prop :=
  exists d, db s = Some d /\ opened d = true /\ commit_err d = None.

(** The [download-items] bucket of a user, when the user's bucket and this
    child bucket exist. *)
Definition downloads (u : string) (s : Store) : option Bucket :=
  match db s with
  | Some d => bucket_at (root d) [bytes_of_string u; downloadItemsBucket]
  | None => None
  end.

(** The bucket of a user. *)
Definition user_bucket (u : string) (s : Store) : option Bucket :=
  match db s with
  | Some d => bucket_at (root d) [bytes_of_string u]
  | None => None
  end.

(** No key of the bucket holds a nested bucket. *)
Definition records_only (b : Bucket) : Prop :=
  forall k c, ~ In (k, Nested c) b.

(** The namespace of [u] as [CreateBuckets] lays it out and the save
    operations keep it: the user's bucket with both child buckets, records
    only under [download-items], and no bucket in the place of [config].
    On every store a program reaches, a successful [CreateBuckets]
    establishes it (lemma [CreateBuckets_provisioned] below) and saving a
    state keeps it (lemma [SaveState_step]). *)
Definition provisioned (u : string) (s : Store) : Prop :=
  u <> ""%string /\
  exists ub dl wt,
    user_bucket u s = Some ub /\
    bucket_find downloadItemsBucket ub = Some (Nested dl) /\
    bucket_find watchedTorrentsBucket ub = Some (Nested wt) /\
    records_only dl /\
    (forall c, bucket_find (bytes_of_string "config") ub <> Some (Nested c)).

(** The item a cursor yields holds the encoding of [st]. *)
Definition decodes `{Gob State} (kv : bytes * bytes) (st : State) : Prop :=
  gob_decode (snd kv) zero_State = (st, None).

(** The states a listing keeps. *)
Definition visible (st : State) : bool := negb (IsHidden st).

Definition keys_sorted (b : Bucket) : Prop :=
  StronglySorted bytes_lt (map fst b).

(** Saving a list of states one after the other; the first error or panic
    ends the run. *)
Fixpoint save_all `{Gob State} (l : list State) (u : string) (s : Store)
  : outcome (option goerror * Store) :=
  match l with
  | [] => Returns (None, s)
  | st :: l' =>
      match Store.SaveState st u s with
      | Returns (None, s') => save_all l' u s'
      | r => r
      end
  end.

(** The bytes [SaveState] stores for a state. *)
Definition record_of `{Gob State} (st : State) : bytes :=
  match gob_encode st with
  | inr v => v
  | inl _ => []
  end.

(** The [download-items] bucket after a successful [SaveState]. *)
Definition put_record `{Gob State} (b : Bucket) (st : State) : Bucket :=
  bucket_insert (itob (FileID st)) (Leaf (record_of st)) b.

(** Every entry was put for one of the states [l]. *)
Definition records_of `{Gob State} (l : list State) (b : Bucket) : Prop :=
  Forall (fun e => exists st,
            In st l /\ e = (itob (FileID st), Leaf (record_of st))) b.

(** The bucket of [u] and its two child buckets exist. *)
Definition has_namespace (u : string) (s : Store) : Prop :=
  u <> ""%string /\
  exists ub dl wt,
    user_bucket u s = Some ub /\
    bucket_find downloadItemsBucket ub = Some (Nested dl) /\
    bucket_find watchedTorrentsBucket ub = Some (Nested wt).

(** The store after some further successful saves of states and of
    configurations, for any users. *)
Inductive saved_from `{Gob State} `{Gob Config} (s : Store) : Store -> Prop :=
| saved_none : saved_from s s
| saved_state (s1 s2 : Store) (st : State) (v : string) :
    saved_from s s1 ->
    Store.SaveState st v s1 = Returns (None, s2) ->
    saved_from s s2
| saved_config (s1 s2 : Store) (c : Config) (v : string) :
    saved_from s s1 ->
    Store.SaveConfig c v s1 = Returns (None, s2) ->
    saved_from s s2.

(** The state saved last under an identifier in a run of saves. *)
Fixpoint last_saved (id : Z) (l : list State) : option State :=
  match l with
  | [] => None
  | st :: l' =>
      match last_saved id l' with
      | Some x => Some x
      | None => if FileID st =? id then Some st else None
      end
  end.

(** A user's bucket as the store keeps it: no bucket in the place of
    [config], and records only under [download-items]. *)
Definition good_namespace (ub : Bucket) : Prop :=
  (forall c, bucket_find (bytes_of_string "config") ub <> Some (Nested c)) /\
  (forall dl, bucket_find downloadItemsBucket ub = Some (Nested dl) ->
              records_only dl).

Definition well_formed_root (r : Bucket) : Prop :=
  forall k ub, bucket_find k r = Some (Nested ub) -> good_namespace ub.

Definition well_formed (s : Store) : Prop :=
  match db s with
  | Some d => well_formed_root (root d)
  | None => True
  end.

(** The database files of the host are empty or were written by the
    store. *)
Definition sound_host (h : Host) : Prop :=
  forall p d, bolt_Open h p = inr d -> well_formed_root (root d).

(** The calls of the store that write. *)
Inductive call : Type :=
| CallOpen
| CallClose
| CallCreateBuckets (forUser : string)
| CallSaveState (state : State) (forUser : string)
| CallSaveConfig (cfg : Config) (forUser : string)
| CallSaveCurrentUser (username : string).

Definition run_call `{Gob State} `{Gob Config} (h : Host) (c : call)
    (s : Store) : outcome (option goerror * Store) :=
  match c with
  | CallOpen => Store.Open h s
  | CallClose => Store.Close s
  | CallCreateBuckets u => Store.CreateBuckets u s
  | CallSaveState st u => Store.SaveState st u s
  | CallSaveConfig cfg u => Store.SaveConfig cfg u s
  | CallSaveCurrentUser name => Store.SaveCurrentUser name s
  end.

(** What a write that returned nil has left in the store: the buckets of
    the user, the encoding of the state under the key of its identifier,
    the encoding of the configuration under [config], the name of the
    current user. *)
Definition written `{Gob State} `{Gob Config} (c : call) (s : Store) : Prop :=
  match c with
  | CallOpen | CallClose => True
  | CallCreateBuckets u => has_namespace u s
  | CallSaveState st u =>
      exists dl v,
        gob_encode st = inr v /\ downloads u s = Some dl /\
        bucket_find (itob (FileID st)) dl = Some (Leaf v)
  | CallSaveConfig cfg u =>
      exists ub v,
        gob_encode cfg = inr v /\ user_bucket u s = Some ub /\
        bucket_find (bytes_of_string "config") ub = Some (Leaf v)
  | CallSaveCurrentUser name => Store.CurrentUser s = Returns (name, None)
  end.

(** The stores a program gets from [NewStore] by calls that return. *)
Inductive reachable `{Gob State} `{Gob Config} (h : Host) : Store -> Prop :=
| reach_new (p : string) : reachable h (NewStore p)
| reach_call (s s' : Store) (c : call) (e : option goerror) :
    reachable h s ->
    run_call h c s = Returns (e, s') ->
    reachable h s'.

(** The bucket [ub'] of a user has what [ub] had, and differs at most by
    child buckets created where there was nothing. *)
Definition grows (ub ub' : Bucket) : Prop :=
  forall k,
    bucket_find k ub <> None \/
    (k <> downloadItemsBucket /\ k <> watchedTorrentsBucket) ->
    bucket_find k ub' = bucket_find k ub.

(** Every bucket of the root [r] is in [r'], grown at most. *)
Definition root_grows (r r' : Bucket) : Prop :=
  forall ku ub,
    bucket_find ku r = Some (Nested ub) ->
    exists ub', bucket_find ku r' = Some (Nested ub') /\ grows ub ub'.

(** ** Durations (config.go) *)

(** The functions of package time that [Duration] calls:
    [time.Duration.String] and [time.ParseDuration], on durations counted
    in nanoseconds. *)
Record TimeLib : Type := mkTimeLib {
  time_String : Z -> string;
  time_ParseDuration : string -> goerror + Z
}.

Module Duration.

Definition String (t : TimeLib) (d : Z) : string := time_String t d.

Definition MarshalText (t : TimeLib) (d : Z) : bytes * option goerror :=
  (bytes_of_string (String t d), None).

(** The receiver [*d] before the call is [d]; the result holds it after. *)
Definition UnmarshalText (t : TimeLib) (text : bytes) (d : Z)
  : Z * option goerror :=
  if (length text =? 0)%nat then (d, None)
  else match time_ParseDuration t (string_of_list_byte text) with
       | inl err => (d, Some err)
       | inr duration => (duration, None)
       end.

End Duration.

(** ** A sample codec and host for the examples *)

Module Sample.

Definition int64_of_bytes (l : bytes) : Z :=
  let u := be_value l in if u <? 2 ^ 63 then u else u - 2 ^ 64.

Definition encode_bool (b : bool) : byte := if b then x01 else x00.
Definition decode_bool (b : byte) : bool := negb (Byte.eqb b x00).

Definition encode_string (s : string) : bytes :=
  itob (Z.of_nat (String.length s)) ++ bytes_of_string s.

(** Split off the first [n] bytes. *)
Definition take_bytes (n : nat) (l : bytes) : option (bytes * bytes) :=
  if (n <=? length l)%nat then Some (firstn n l, skipn n l) else None.

Definition take_int64 (l : bytes) : option (Z * bytes) :=
  match take_bytes 8 l with
  | Some (h, t) => Some (int64_of_bytes h, t)
  | None => None
  end.

Definition take_bool (l : bytes) : option (bool * bytes) :=
  match l with
  | b :: t => Some (decode_bool b, t)
  | [] => None
  end.

Definition take_string (l : bytes) : option (string * bytes) :=
  match take_int64 l with
  | Some (n, t) =>
      match take_bytes (Z.to_nat n) t with
      | Some (h, t') => Some (string_of_list_byte h, t')
      | None => None
      end
  | None => None
  end.

Definition encode_State (s : State) : string + bytes :=
  inr (itob (FileID s) ++ encode_bool (IsHidden s) :: Transfer s).

(** The decoder sets the fields in their order and stops at the first one
    that the input does not hold. *)
Definition decode_State (l : bytes) (s : State) : State * option string :=
  let '(mkState id hidden transfer) := s in
  match take_int64 l with
  | None => (mkState id hidden transfer, Some "unexpected EOF"%string)
  | Some (id, l) =>
  match take_bool l with
  | None => (mkState id hidden transfer, Some "unexpected EOF"%string)
  | Some (hidden, l) => (mkState id hidden l, None)
  end end.

Definition encode_Config (c : Config) : string + bytes :=
  inr (itob (PollInterval c) ++ encode_string (DownloadTo c)
       ++ itob (DownloadFrom c) ++ itob (SegmentsPerFile c)
       ++ itob (MaxParallelFiles c) ++ encode_string (OAuth2Token c)
       ++ [encode_bool (WatchTorrentsFolder c)]
       ++ encode_string (TorrentsFolder c)
       ++ [encode_bool (IsPaused c); encode_bool (DeleteRemoteFile c)]).

Definition decode_Config (l : bytes) (c : Config) : Config * option string :=
  let '(mkConfig poll to from seg par tok watch folder paused del) := c in
  match take_int64 l with
  | None =>
      (mkConfig poll to from seg par tok watch folder paused del,
       Some "unexpected EOF"%string)
  | Some (poll, l) =>
  match take_string l with
  | None =>
      (mkConfig poll to from seg par tok watch folder paused del,
       Some "unexpected EOF"%string)
  | Some (to, l) =>
  match take_int64 l with
  | None =>
      (mkConfig poll to from seg par tok watch folder paused del,
       Some "unexpected EOF"%string)
  | Some (from, l) =>
  match take_int64 l with
  | None =>
      (mkConfig poll to from seg par tok watch folder paused del,
       Some "unexpected EOF"%string)
  | Some (seg, l) =>
  match take_int64 l with
  | None =>
      (mkConfig poll to from seg par tok watch folder paused del,
       Some "unexpected EOF"%string)
  | Some (par, l) =>
  match take_string l with
  | None =>
      (mkConfig poll to from seg par tok watch folder paused del,
       Some "unexpected EOF"%string)
  | Some (tok, l) =>
  match take_bool l with
  | None =>
      (mkConfig poll to from seg par tok watch folder paused del,
       Some "unexpected EOF"%string)
  | Some (watch, l) =>
  match take_string l with
  | None =>
      (mkConfig poll to from seg par tok watch folder paused del,
       Some "unexpected EOF"%string)
  | Some (folder, l) =>
  match take_bool l with
  | None =>
      (mkConfig poll to from seg par tok watch folder paused del,
       Some "unexpected EOF"%string)
  | Some (paused, l) =>
  match take_bool l with
  | None =>
      (mkConfig poll to from seg par tok watch folder paused del,
       Some "unexpected EOF"%string)
  | Some (del, l) =>
      (mkConfig poll to from seg par tok watch folder paused del, None)
  end end end end end end end end end end.

Definition gobState : Gob State := Build_Gob encode_State decode_State.
Definition gobConfig : Gob Config := Build_Gob encode_Config decode_Config.

(** An empty database file, just opened. *)
Definition empty_db : DB := mkDB [] true None None.

(** The same on a disk that is full. *)
Definition full_db : DB :=
  mkDB [] true (Some (Foreign "no space left on device")) None.

(** A host with an empty database file at every path. *)
Definition host : Host :=
  mkHost (fun _ => inr empty_db)
         (inr (mkOsUser "/home/alice"))
         (fun a b => (a ++ "/" ++ b)%string).

(** A host whose disk is full: the file opens, no commit succeeds. *)
Definition full_disk : Host :=
  mkHost (fun _ => inr full_db)
         (inr (mkOsUser "/home/alice"))
         (fun a b => (a ++ "/" ++ b)%string).

Definition state (id : Z) (hidden : bool) : State :=
  mkState id hidden (bytes_of_string "progress").

Definition config : Config :=
  mkConfig 60000000000 "/srv/media" 42 4 2 "token" true "/srv/torrents"
           false true.

(** The store of [host], opened. *)
Definition opened_store : Store :=
  match Store.Open host (NewStore "putio.db") with
  | Returns (_, s) => s
  | Panics => NewStore "putio.db"
  end.

(** Its database: the [defaults] bucket alone. *)
Definition opened_db : DB := mkDB [(defaultsBucket, Nested [])] true None None.

(** The same store with the buckets of alice created. *)
Definition alice_store : Store :=
  match Store.CreateBuckets "alice" opened_store with
  | Returns (_, s) => s
  | Panics => opened_store
  end.

(** The store of alice after saving a state and her configuration. *)
Definition alice_saved : Store :=
  match @Store.SaveState gobState (state 1 false) "alice" alice_store with
  | Returns (_, s) =>
      match @Store.SaveConfig gobConfig config "alice" s with
      | Returns (_, s') => s'
      | Panics => s
      end
  | Panics => alice_store
  end.

(** The [download-items] bucket of a store whose second record does not
    decode. *)
Definition corrupt_downloads : Bucket :=
  [(itob 1, Leaf (itob 1 ++ [x00])); (itob 2, Leaf [x07])].

(** The store of alice holding a state and a record that does not decode. *)
Definition corrupt_store : Store :=
  mkStore "putio.db"
    (Some (mkDB
       [(bytes_of_string "alice",
         Nested
           [(downloadItemsBucket, Nested corrupt_downloads);
            (watchedTorrentsBucket, Nested [])]);
        (defaultsBucket, Nested [])]
       true None None)).

(** A time library that prints a duration as its count of nanoseconds,
    ["90ns"], and parses this form only. *)
Definition print_ns (d : Z) : string :=
  (NilZero.string_of_int (Z.to_int d) ++ "ns")%string.

Definition parse_ns (s : string) : goerror + Z :=
  let n := String.length s in
  if (2 <=? n)%nat && String.eqb (substring (n - 2) 2 s) "ns" then
    match NilZero.int_of_string (substring 0 (n - 2) s) with
    | Some i => inr (Z.of_int i)
    | None => inl (Foreign "time: invalid duration")
    end
  else inl (Foreign "time: missing unit in duration").

Definition timelib : TimeLib := mkTimeLib print_ns parse_ns.

(** The database of [alice_store]. *)
Definition alice_db : DB :=
  match db alice_store with
  | Some d => d
  | None => empty_db
  end.

(** [alice_saved] with the buckets of bob created. *)
Definition two_users : Store :=
  match Store.CreateBuckets "bob" alice_saved with
  | Returns (_, s) => s
  | Panics => alice_saved
  end.

(** [two_users] after bob saved a state, ... *)
Definition bob_saved : Store :=
  match @Store.SaveState gobState (state 2 false) "bob" two_users with
  | Returns (_, s) => s
  | Panics => two_users
  end.

(** ... after bob saved a configuration, ... *)
Definition bob_configured : Store :=
  match @Store.SaveConfig gobConfig zero_Config "bob" two_users with
  | Returns (_, s) => s
  | Panics => two_users
  end.

(** ... and after alice logged in. *)
Definition alice_logged_in : Store :=
  match Store.SaveCurrentUser "alice" two_users with
  | Returns (_, s) => s
  | Panics => two_users
  end.

(** [alice_store], closed. *)
Definition alice_closed : Store :=
  match Store.Close alice_store with
  | Returns (_, s) => s
  | Panics => alice_store
  end.

(** The bucket of a user whose state 5 and whose configuration were cut
    short after their first field. *)
Definition truncated_bucket : Bucket :=
  [(bytes_of_string "config", Leaf (itob 5));
   (downloadItemsBucket, Nested [(itob 5, Leaf (itob 5))]);
   (watchedTorrentsBucket, Nested [])].

Definition truncated_db : DB :=
  mkDB [(bytes_of_string "alice", Nested truncated_bucket);
        (defaultsBucket, Nested [])]
       true None None.

Definition truncated_store : Store := mkStore "putio.db" (Some truncated_db).

(** The store of [host], open, after its disk became full. *)
Definition full_opened_db : DB :=
  mkDB [(defaultsBucket, Nested [])] true
       (Some (Foreign "no space left on device")) None.

Definition full_store : Store := mkStore "putio.db" (Some full_opened_db).

(** [two_users] with the buckets of carol created. *)
Definition three_users : Store :=
  match Store.CreateBuckets "carol" two_users with
  | Returns (_, s) => s
  | Panics => two_users
  end.

(** The database of [two_users]. *)
Definition two_users_db : DB :=
  match db two_users with
  | Some d => d
  | None => empty_db
  end.

(** A store whose file another program wrote: the bucket of alice holds a
    plain value under [watched-torrents] and no [download-items]. *)
Definition foreign_bucket : Bucket :=
  [(watchedTorrentsBucket, Leaf (bytes_of_string "seen"))].

Definition foreign_db : DB :=
  mkDB [(bytes_of_string "alice", Nested foreign_bucket);
        (defaultsBucket, Nested [])]
       true None None.

Definition foreign_store : Store := mkStore "putio.db" (Some foreign_db).

(** A host that does not resolve the current user. *)
Definition homeless : Host :=
  mkHost (fun _ => inr empty_db)
         (inl (Foreign "user: Current not implemented"))
         (fun a b => (a ++ "/" ++ b)%string).

End Sample.

(** ** Facts about bytes and keys *)

Unset Implicit Arguments.

Lemma byte_to_Z_range (x : byte) : 0 <= byte_to_Z x < 256.
Proof.
  unfold byte_to_Z. pose proof (Byte.to_N_bounded x) as H.
  split; [apply N2Z.is_nonneg|].
  apply N2Z.inj_le in H. change (Z.of_N 255) with 255 in H. lia.
Qed.

Lemma byte_to_Z_inj (x y : byte) : byte_to_Z x = byte_to_Z y -> x = y.
Proof.
  unfold byte_to_Z. intros H. apply N2Z.inj in H.
  assert (E : Byte.of_N (Byte.to_N x) = Byte.of_N (Byte.to_N y)) by (now rewrite H).
  rewrite !Byte.of_to_N in E. congruence.
Qed.

Lemma byte_to_Z_of_Z (z : Z) : byte_to_Z (byte_of_Z z) = z mod 256.
Proof.
  unfold byte_of_Z, byte_to_Z.
  assert (R : 0 <= z mod 256 < 256) by (apply Z.mod_pos_bound; lia).
  destruct (Byte.of_N (Z.to_N (z mod 256))) as [b|] eqn:E.
  - apply Byte.to_of_N in E. rewrite E. rewrite Z2N.id; lia.
  - apply Byte.of_N_None_iff in E.
    apply N2Z.inj_lt in E. rewrite Z2N.id in E by lia.
    change (Z.of_N 255) with 255 in E. lia.
Qed.

Lemma bytes_compare_refl (a : bytes) : bytes_compare a a = Eq.
Proof.
  induction a as [|x a IH]; simpl; [reflexivity|].
  now rewrite Z.compare_refl.
Qed.

Lemma bytes_compare_eq (a b : bytes) : bytes_compare a b = Eq -> a = b.
Proof.
  revert b. induction a as [|x a IH]; intros [|y b]; simpl; try discriminate.
  - reflexivity.
  - destruct (Z.compare_spec (byte_to_Z x) (byte_to_Z y)) as [E| |];
      try discriminate.
    intros H. apply byte_to_Z_inj in E. apply IH in H. congruence.
Qed.

Lemma bytes_compare_antisym (a b : bytes) :
  bytes_compare b a = CompOpp (bytes_compare a b).
Proof.
  revert b. induction a as [|x a IH]; intros [|y b]; simpl; try reflexivity.
  rewrite (Z.compare_antisym (byte_to_Z x) (byte_to_Z y)).
  destruct (byte_to_Z x ?= byte_to_Z y); simpl; auto.
Qed.

Lemma bytes_lt_trans (a b c : bytes) :
  bytes_lt a b -> bytes_lt b c -> bytes_lt a c.
Proof.
  unfold bytes_lt. revert b c.
  induction a as [|x a IH]; intros [|y b] [|z c]; simpl; try discriminate; auto.
  destruct (Z.compare_spec (byte_to_Z x) (byte_to_Z y)) as [E1|L1|G1];
    try discriminate;
    destruct (Z.compare_spec (byte_to_Z y) (byte_to_Z z)) as [E2|L2|G2];
    try discriminate; intros H1 H2.
  - rewrite E1, E2, Z.compare_refl. eauto.
  - rewrite E1. now apply Z.compare_lt_iff in L2 as ->.
  - rewrite <- E2. now apply Z.compare_lt_iff in L1 as ->.
  - assert (L : byte_to_Z x < byte_to_Z z) by lia.
    now apply Z.compare_lt_iff in L as ->.
Qed.

Lemma bytes_eqb_eq (a b : bytes) : bytes_eqb a b = true <-> a = b.
Proof.
  unfold bytes_eqb. split.
  - destruct (bytes_compare a b) eqn:E; try discriminate.
    intros _. now apply bytes_compare_eq.
  - intros ->. now rewrite bytes_compare_refl.
Qed.

Lemma bytes_eqb_refl (a : bytes) : bytes_eqb a a = true.
Proof. now apply bytes_eqb_eq. Qed.

Lemma bytes_eqb_neq (a b : bytes) : bytes_eqb a b = false <-> a <> b.
Proof.
  rewrite <- bytes_eqb_eq. destruct (bytes_eqb a b); split; congruence.
Qed.

Lemma be_value_range (l : bytes) : 0 <= be_value l < 256 ^ Z.of_nat (length l).
Proof.
  induction l as [|x l IH]; simpl be_value; simpl length.
  - simpl. lia.
  - pose proof (byte_to_Z_range x).
    rewrite Nat2Z.inj_succ, Z.pow_succ_r by lia. nia.
Qed.

(** On byte strings of one length the lexicographic order is the order of
    the big-endian values. *)
Lemma bytes_compare_be_value (a b : bytes) :
  length a = length b ->
  bytes_compare a b = Z.compare (be_value a) (be_value b).
Proof.
  revert b. induction a as [|x a IH]; intros [|y b] L; simpl in L;
    try discriminate.
  - reflexivity.
  - injection L as L. simpl bytes_compare. simpl be_value. rewrite <- L.
    pose proof (be_value_range a) as Ra. pose proof (be_value_range b) as Rb.
    rewrite <- L in Rb.
    set (p := 256 ^ Z.of_nat (length a)) in *.
    destruct (Z.compare_spec (byte_to_Z x) (byte_to_Z y)) as [E|Lt|Gt].
    + rewrite E, (IH b L).
      destruct (Z.compare_spec (be_value a) (be_value b));
        symmetry; [apply Z.compare_eq_iff | apply Z.compare_lt_iff
                  | apply Z.compare_gt_iff]; lia.
    + symmetry. apply Z.compare_lt_iff. nia.
    + symmetry. apply Z.compare_gt_iff. nia.
Qed.

Lemma be_value_PutUint64 (u : Z) :
  0 <= u < 2 ^ 64 -> be_value (PutUint64 u) = u.
Proof.
  intros R. unfold PutUint64. cbn [be_value length].
  rewrite !byte_to_Z_of_Z, !Z.shiftr_div_pow2 by lia.
  change (Z.of_nat 7) with 7; change (Z.of_nat 6) with 6;
    change (Z.of_nat 5) with 5; change (Z.of_nat 4) with 4;
    change (Z.of_nat 3) with 3; change (Z.of_nat 2) with 2;
    change (Z.of_nat 1) with 1; change (Z.of_nat 0) with 0.
  change (256 ^ 7) with (2 ^ 56); change (256 ^ 6) with (2 ^ 48);
    change (256 ^ 5) with (2 ^ 40); change (256 ^ 4) with (2 ^ 32);
    change (256 ^ 3) with (2 ^ 24); change (256 ^ 2) with (2 ^ 16);
    change (256 ^ 1) with (2 ^ 8); change (256 ^ 0) with 1.
  assert (S : forall k, 0 <= k ->
     u / 2 ^ k = 256 * (u / 2 ^ (k + 8)) + (u / 2 ^ k) mod 256).
  { intros k Hk. rewrite Z.pow_add_r by lia.
    rewrite <- Z.div_div by lia. change (2 ^ 8) with 256.
    apply Z.div_mod. lia. }
  pose proof (S 0 ltac:(lia)) as S0. pose proof (S 8 ltac:(lia)) as S8.
  pose proof (S 16 ltac:(lia)) as S16. pose proof (S 24 ltac:(lia)) as S24.
  pose proof (S 32 ltac:(lia)) as S32. pose proof (S 40 ltac:(lia)) as S40.
  pose proof (S 48 ltac:(lia)) as S48. pose proof (S 56 ltac:(lia)) as S56.
  cbn [Z.add Pos.add Pos.succ] in *.
  change (2 ^ 0) with 1 in *. rewrite Z.div_1_r in *.
  assert (Z64 : u / 2 ^ 64 = 0) by (apply Z.div_small; lia).
  rewrite Z64 in S56.
  change (2 ^ 56) with 72057594037927936 in *.
  lia.
Qed.

Lemma length_itob (v : Z) : length (itob v) = 8%nat.
Proof. reflexivity. Qed.

Lemma be_value_itob (v : Z) : be_value (itob v) = uint64 v.
Proof.
  unfold itob. apply be_value_PutUint64. unfold uint64.
  apply Z.mod_pos_bound. lia.
Qed.

Lemma itob_compare (a b : Z) :
  bytes_compare (itob a) (itob b) = Z.compare (uint64 a) (uint64 b).
Proof.
  rewrite bytes_compare_be_value by reflexivity. now rewrite !be_value_itob.
Qed.

Lemma itob_inj (a b : Z) : int64 a -> int64 b -> itob a = itob b -> a = b.
Proof.
  unfold int64. intros Ha Hb E.
  assert (U : uint64 a = uint64 b) by (now rewrite <- !be_value_itob, E).
  unfold uint64 in U.
  change (2 ^ 63) with 9223372036854775808 in *.
  change (2 ^ 64) with 18446744073709551616 in *.
  Z.div_mod_to_equations. lia.
Qed.

(** ** Facts about buckets *)

Lemma bytes_lt_irrefl (a : bytes) : ~ bytes_lt a a.
Proof. unfold bytes_lt. now rewrite bytes_compare_refl. Qed.

Lemma bytes_compare_gt_eqb (a b : bytes) :
  bytes_compare a b = Gt -> bytes_eqb b a = false.
Proof.
  intros H. unfold bytes_eqb. now rewrite bytes_compare_antisym, H.
Qed.

Lemma bucket_find_insert_eq (k : bytes) (n : node) (b : Bucket) :
  bucket_find k (bucket_insert k n b) = Some n.
Proof.
  induction b as [|[k' m] b IH]; simpl.
  - now rewrite bytes_eqb_refl.
  - destruct (bytes_compare k k') eqn:E; simpl.
    + now rewrite bytes_eqb_refl.
    + now rewrite bytes_eqb_refl.
    + now rewrite (bytes_compare_gt_eqb _ _ E).
Qed.

Lemma bucket_find_insert_neq (k k' : bytes) (n : node) (b : Bucket) :
  k <> k' -> bucket_find k' (bucket_insert k n b) = bucket_find k' b.
Proof.
  intros N. apply bytes_eqb_neq in N.
  induction b as [|[k0 m] b IH]; simpl.
  - now rewrite N.
  - destruct (bytes_compare k k0) eqn:E; simpl.
    + apply bytes_compare_eq in E. subst k0. now rewrite N.
    + now rewrite N.
    + now rewrite IH.
Qed.

Lemma bucket_find_In (k : bytes) (n : node) (b : Bucket) :
  bucket_find k b = Some n -> In (k, n) b.
Proof.
  induction b as [|[k0 m] b IH]; simpl; [discriminate|].
  destruct (bytes_eqb k0 k) eqn:E.
  - apply bytes_eqb_eq in E. intros [= ->]. left. now subst.
  - auto.
Qed.

Lemma Forall_keys_insert (P : bytes -> Prop) (k : bytes) (n : node)
    (b : Bucket) :
  P k -> Forall P (map fst b) -> Forall P (map fst (bucket_insert k n b)).
Proof.
  intros Pk. induction b as [|[k0 m] b IH]; simpl; intros F.
  - constructor; auto.
  - inversion F as [|? ? P0 F']; subst.
    destruct (bytes_compare k k0); simpl; constructor; auto.
Qed.

Lemma keys_sorted_insert (k : bytes) (n : node) (b : Bucket) :
  keys_sorted b -> keys_sorted (bucket_insert k n b).
Proof.
  unfold keys_sorted. induction b as [|[k0 m] b IH]; simpl; intros S.
  - constructor; constructor.
  - inversion S as [|? ? S' F]; subst.
    destruct (bytes_compare k k0) eqn:E; simpl.
    + apply bytes_compare_eq in E. subst k0. constructor; auto.
    + constructor; auto. constructor; auto.
      eapply Forall_impl; [|exact F].
      intros a Ha. eapply bytes_lt_trans; eauto.
    + constructor; auto. apply Forall_keys_insert; auto.
      unfold bytes_lt. now rewrite bytes_compare_antisym, E.
Qed.

Lemma In_bucket_insert (k : bytes) (n : node) (b : Bucket)
    (e : bytes * node) :
  keys_sorted b ->
  (In e (bucket_insert k n b) <-> e = (k, n) \/ (In e b /\ fst e <> k)).
Proof.
  unfold keys_sorted. induction b as [|[k0 m] b IH]; simpl; intros S.
  - intuition.
  - inversion S as [|? ? S' F]; subst.
    assert (A : forall x, In x b -> bytes_lt k0 (fst x)).
    { intros x Hx. rewrite Forall_forall in F. apply F.
      now apply in_map. }
    destruct (bytes_compare k k0) eqn:E; simpl.
    + apply bytes_compare_eq in E. subst k0. split.
      * intros [H|H]; [now left|]. right. split; [now right|].
        intros Q. apply A in H. rewrite Q in H.
        now apply bytes_lt_irrefl in H.
      * intros [H|[[H|H] N]]; auto. subst e. now elim N.
    + split.
      * intros [H|[H|H]]; [now left | |]; right.
        -- subst e. split; [now left|]. simpl. intros Q. subst k0.
           now apply bytes_lt_irrefl in E.
        -- split; [now right|]. intros Q. apply A in H. rewrite Q in H.
           apply (bytes_lt_irrefl k). eapply bytes_lt_trans; eauto.
      * intros [H|[[H|H] N]]; auto.
    + rewrite (IH S'). split.
      * intros [H|[H|[H N]]]; auto. subst e. right. split; [now left|].
        simpl. intros Q. subst k0. rewrite bytes_compare_refl in E.
        discriminate.
      * intros [H|[[H|H] N]]; auto.
Qed.

Lemma records_only_insert (k v : bytes) (b : Bucket) :
  records_only b -> records_only (bucket_insert k (Leaf v) b).
Proof.
  unfold records_only. intros R k' c.
  induction b as [|[k0 m] b IH]; simpl.
  - intros [H|[]]. discriminate.
  - assert (R' : forall k c, ~ In (k, Nested c) b).
    { intros k1 c1 H. apply (R k1 c1). now right. }
    destruct (bytes_compare k k0); simpl.
    + intros [H|H]; [discriminate|]. now apply (R' k' c).
    + intros [H|H]; [discriminate|]. now apply (R k' c).
    + intros [H|H]; [apply (R k' c); now left|].
      apply IH; auto.
Qed.

Lemma bucket_at_update (r : Bucket) (p : bucket_path) (f : Bucket -> Bucket)
    (b : Bucket) :
  bucket_at r p = Some b -> bucket_at (bucket_update r p f) p = Some (f b).
Proof.
  revert r. induction p as [|name p IH]; simpl; intros r H.
  - congruence.
  - destruct (bucket_find name r) as [[v|c]|] eqn:E; try discriminate.
    rewrite bucket_find_insert_eq. auto.
Qed.

Lemma set_root_same (d : DB) : set_root d (root d) = d.
Proof. now destruct d. Qed.

(** ** Facts about the bolt operations *)

Arguments itob : simpl never.

Lemma bytes_of_string_nonempty (u : string) :
  u <> ""%string -> (length (bytes_of_string u) =? 0)%nat = false.
Proof.
  destruct u as [|c u]; [congruence|]. intros _. reflexivity.
Qed.

Lemma Bucket_Bucket_nil (name : bytes) (r : Bucket) :
  Bucket_Bucket None name r = Panics.
Proof. reflexivity. Qed.

Lemma Bucket_Bucket_at (p : bucket_path) (name : bytes) (r b : Bucket) :
  bucket_at r p = Some b ->
  Bucket_Bucket (Some p) name r =
  Returns (match bucket_find name b with
           | Some (Nested _) => Some (p ++ [name])
           | _ => None
           end, r).
Proof.
  intros H. unfold Bucket_Bucket, with_bucket. rewrite H.
  now destruct (bucket_find name b) as [[v|c]|].
Qed.

Lemma tx_Bucket_root (name : bytes) (r : Bucket) :
  tx_Bucket name r =
  Returns (match bucket_find name r with
           | Some (Nested _) => Some [name]
           | _ => None
           end, r).
Proof. exact (Bucket_Bucket_at [] name r r eq_refl). Qed.

Lemma Bucket_Get_at (p : bucket_path) (key : bytes) (r b : Bucket) :
  bucket_at r p = Some b ->
  Bucket_Get (Some p) key r =
  Returns (match bucket_find key b with
           | Some (Leaf v) => Some v
           | _ => None
           end, r).
Proof.
  intros H. unfold Bucket_Get, with_bucket. rewrite H.
  now destruct (bucket_find key b) as [[v|c]|].
Qed.

Lemma Bucket_Put_at (p : bucket_path) (key value : bytes) (r b : Bucket) :
  bucket_at r p = Some b ->
  (length key =? 0)%nat = false ->
  Z.of_nat (length key) <= MaxKeySize ->
  Z.of_nat (length value) <= MaxValueSize ->
  (forall c, bucket_find key b <> Some (Nested c)) ->
  Bucket_Put (Some p) key value r =
  Returns (None, bucket_update r p (bucket_insert key (Leaf value))).
Proof.
  intros H K0 K V N. unfold Bucket_Put, with_bucket. rewrite H, K0.
  destruct (Z.gtb_spec (Z.of_nat (length key)) MaxKeySize); [lia|].
  destruct (Z.gtb_spec (Z.of_nat (length value)) MaxValueSize); [lia|].
  destruct (bucket_find key b) as [[v|c]|] eqn:E; auto.
  now elim (N c).
Qed.

Lemma Bucket_CreateBucketIfNotExists_exists (p : bucket_path) (key : bytes)
    (r b c : Bucket) :
  bucket_at r p = Some b ->
  (length key =? 0)%nat = false ->
  bucket_find key b = Some (Nested c) ->
  Bucket_CreateBucketIfNotExists (Some p) key r =
  Returns ((Some (p ++ [key]), None), r).
Proof.
  intros H K E.
  unfold Bucket_CreateBucketIfNotExists, tx_bind, Bucket_CreateBucket,
    with_bucket.
  rewrite H, K, E. unfold tx_ret at 1. cbv beta iota.
  change (goerror_eqb ErrBucketExists ErrBucketExists) with true. cbv iota.
  unfold tx_bind. rewrite (Bucket_Bucket_at _ key _ _ H), E. reflexivity.
Qed.

Lemma Bucket_CreateBucketIfNotExists_absent (p : bucket_path) (key : bytes)
    (r b : Bucket) :
  bucket_at r p = Some b ->
  (length key =? 0)%nat = false ->
  bucket_find key b = None ->
  Bucket_CreateBucketIfNotExists (Some p) key r =
  Returns ((Some (p ++ [key]), None),
           bucket_update r p (bucket_insert key (Nested []))).
Proof.
  intros H K E.
  unfold Bucket_CreateBucketIfNotExists, tx_bind, Bucket_CreateBucket,
    with_bucket.
  now rewrite H, K, E.
Qed.

(** ** Facts about the store operations *)

Section StoreFacts.

Context {gobState : Gob State} {gobConfig : Gob Config}.

Lemma bucket_at_two (r : Bucket) (a b : bytes) (c : Bucket) :
  bucket_at r [a; b] = Some c <->
  exists ub, bucket_find a r = Some (Nested ub) /\
             bucket_find b ub = Some (Nested c).
Proof.
  simpl. split.
  - destruct (bucket_find a r) as [[v|ub]|]; try discriminate.
    destruct (bucket_find b ub) as [[v|c']|] eqn:E; try discriminate.
    intros [= ->]. eauto.
  - intros (ub & -> & ->). reflexivity.
Qed.

Lemma bucket_at_one (r : Bucket) (a : bytes) (c : Bucket) :
  bucket_at r [a] = Some c <-> bucket_find a r = Some (Nested c).
Proof.
  simpl. destruct (bucket_find a r) as [[v|ub]|]; split; congruence.
Qed.

Lemma itob_key_ok (id : Z) :
  (length (itob id) =? 0)%nat = false /\
  Z.of_nat (length (itob id)) <= MaxKeySize.
Proof. rewrite length_itob. split; [reflexivity|]. now vm_compute. Qed.

Lemma SaveState_run (st : State) (u : string) (s : Store) (d : DB)
    (dl : Bucket) (v : bytes) :
  db s = Some d -> opened d = true -> commit_err d = None ->
  bucket_at (root d) [bytes_of_string u; downloadItemsBucket] = Some dl ->
  gob_encode st = inr v ->
  Z.of_nat (length v) <= MaxValueSize ->
  (forall c, bucket_find (itob (FileID st)) dl <> Some (Nested c)) ->
  Store.SaveState st u s =
  Returns (None,
           mkStore (path s)
             (Some (set_root d
                      (bucket_update (root d)
                         [bytes_of_string u; downloadItemsBucket]
                         (bucket_insert (itob (FileID st)) (Leaf v)))))).
Proof.
  intros Hd Ho Hc Hat He Hv Hn.
  destruct (itob_key_ok (FileID st)) as [K0 K].
  pose proof Hat as Hat'. apply bucket_at_two in Hat' as (ub & Hu & Hdl).
  unfold Store.SaveState, Store.db_Update. rewrite Hd.
  unfold DB_Update. rewrite Ho. cbn [negb]. unfold tx_bind.
  rewrite tx_Bucket_root, Hu.
  rewrite (Bucket_Bucket_at [bytes_of_string u] _ _ ub), Hdl
    by now apply bucket_at_one.
  cbn [app]. rewrite He.
  rewrite (Bucket_Put_at _ _ _ _ dl) by assumption.
  now rewrite Hc.
Qed.

Lemma State_run (id : Z) (u : string) (s : Store) (d : DB) (dl : Bucket) :
  db s = Some d -> opened d = true ->
  bucket_at (root d) [bytes_of_string u; downloadItemsBucket] = Some dl ->
  Store.State id u s =
  Returns (match bucket_find (itob id) dl with
           | Some (Leaf v) =>
               (fst (gob_decode v zero_State),
                decode_err (snd (gob_decode v zero_State)))
           | _ => (zero_State, Some ErrStateNotFound)
           end).
Proof.
  intros Hd Ho Hat.
  pose proof Hat as Hat'. apply bucket_at_two in Hat' as (ub & Hu & Hdl).
  unfold Store.State, Store.db_View. rewrite Hd.
  unfold DB_View. rewrite Ho. cbn [negb]. unfold tx_bind.
  rewrite tx_Bucket_root, Hu.
  rewrite (Bucket_Bucket_at [bytes_of_string u] _ _ ub), Hdl
    by now apply bucket_at_one.
  cbn [app]. rewrite (Bucket_Get_at _ _ _ dl) by assumption.
  destruct (bucket_find (itob id) dl) as [[v|c]|]; try reflexivity.
  now destruct (gob_decode v zero_State).
Qed.

Lemma States_run (u : string) (s : Store) (d : DB) (dl : Bucket) :
  u <> ""%string ->
  db s = Some d -> opened d = true ->
  bucket_at (root d) [bytes_of_string u; downloadItemsBucket] = Some dl ->
  Store.States u s = Returns (Store.States_loop (cursor_items dl) []).
Proof.
  intros Hne Hd Ho Hat.
  pose proof Hat as Hat'. apply bucket_at_two in Hat' as (ub & Hu & Hdl).
  unfold Store.States. apply String.eqb_neq in Hne. rewrite Hne.
  unfold Store.db_View. rewrite Hd.
  unfold DB_View. rewrite Ho. cbn [negb]. unfold tx_bind.
  rewrite tx_Bucket_root, Hu.
  rewrite (Bucket_Bucket_at [bytes_of_string u] _ _ ub), Hdl
    by now apply bucket_at_one.
  cbn [app]. unfold Bucket_Cursor, with_bucket. rewrite Hat.
  unfold tx_ret. now destruct (Store.States_loop (cursor_items dl) []).
Qed.

Lemma config_key_ok :
  (length (bytes_of_string "config") =? 0)%nat = false /\
  Z.of_nat (length (bytes_of_string "config")) <= MaxKeySize.
Proof. split; [reflexivity|]. now vm_compute. Qed.

Lemma SaveConfig_run (c : Config) (u : string) (s : Store) (d : DB)
    (ub : Bucket) (v : bytes) :
  db s = Some d -> opened d = true -> commit_err d = None ->
  bucket_at (root d) [bytes_of_string u] = Some ub ->
  gob_encode c = inr v ->
  Z.of_nat (length v) <= MaxValueSize ->
  (forall b, bucket_find (bytes_of_string "config") ub <> Some (Nested b)) ->
  Store.SaveConfig c u s =
  Returns (None,
           mkStore (path s)
             (Some (set_root d
                      (bucket_update (root d) [bytes_of_string u]
                         (bucket_insert (bytes_of_string "config")
                                        (Leaf v)))))).
Proof.
  intros Hd Ho Hc Hat He Hv Hn.
  destruct config_key_ok as [K0 K].
  pose proof Hat as Hu. apply bucket_at_one in Hu.
  unfold Store.SaveConfig, Store.db_Update. rewrite Hd.
  unfold DB_Update. rewrite Ho. cbn [negb]. unfold tx_bind.
  rewrite tx_Bucket_root, Hu, He.
  rewrite (Bucket_Put_at _ _ _ _ ub) by assumption.
  now rewrite Hc.
Qed.

Lemma Config_run (h : Host) (u : string) (s : Store) (d : DB) (ub : Bucket) :
  u <> ""%string ->
  db s = Some d -> opened d = true ->
  bucket_at (root d) [bytes_of_string u] = Some ub ->
  Store.Config h u s =
  Returns (match bucket_find (bytes_of_string "config") ub with
           | Some (Leaf v) =>
               (Some (fst (gob_decode v zero_Config)),
                decode_err (snd (gob_decode v zero_Config)))
           | _ => Store.DefaultConfig h
           end).
Proof.
  intros Hne Hd Ho Hat.
  pose proof Hat as Hu. apply bucket_at_one in Hu.
  unfold Store.Config. apply String.eqb_neq in Hne. rewrite Hne.
  unfold Store.db_View. rewrite Hd.
  unfold DB_View. rewrite Ho. cbn [negb]. unfold tx_bind.
  rewrite tx_Bucket_root, Hu.
  rewrite (Bucket_Get_at _ _ _ ub) by assumption.
  destruct (bucket_find (bytes_of_string "config") ub) as [[v|c]|];
    try reflexivity.
  now destruct (gob_decode v zero_Config) as [cfg [msg|]].
Qed.

Lemma provisioned_downloads (u : string) (s : Store) :
  provisioned u s ->
  exists dl, downloads u s = Some dl /\ records_only dl.
Proof.
  intros (_ & ub & dl & wt & Hub & Hdl & _ & Hr & _).
  exists dl. split; [|assumption].
  unfold user_bucket in Hub. unfold downloads.
  destruct (db s) as [d|]; [|discriminate].
  apply bucket_at_two. exists ub. split; [|assumption].
  now apply bucket_at_one.
Qed.

Lemma records_only_find (b : Bucket) (k : bytes) :
  records_only b -> forall c, bucket_find k b <> Some (Nested c).
Proof. intros R c H. apply bucket_find_In in H. exact (R _ _ H). Qed.

Lemma States_loop_decoded (items : list (bytes * bytes)) (sts acc : list State) :
  Forall2 decodes items sts ->
  Store.States_loop items acc =
  (acc ++ filter visible sts, None).
Proof.
  intros F. revert acc.
  induction F as [|[k v] st items sts D F IH]; intros acc; simpl.
  - now rewrite app_nil_r.
  - unfold decodes in D. simpl in D. rewrite D. unfold visible at 1.
    destruct (IsHidden st); simpl.
    + apply IH.
    + rewrite IH, <- app_assoc. reflexivity.
Qed.

Lemma States_loop_corrupt (pre post : list (bytes * bytes)) (k v : bytes)
    (msg : string) (sts acc : list State) :
  Forall2 decodes pre sts ->
  snd (gob_decode v zero_State) = Some msg ->
  Store.States_loop (pre ++ (k, v) :: post) acc =
  (acc ++ filter visible sts, Some (Foreign msg)).
Proof.
  intros F C. revert acc.
  induction F as [|[k0 v0] st items sts D F IH]; intros acc; simpl.
  - destruct (gob_decode v zero_State) as [st e]. simpl in C. subst e.
    now rewrite app_nil_r.
  - unfold decodes in D. simpl in D. rewrite D. unfold visible at 1.
    destruct (IsHidden st); simpl.
    + apply IH.
    + rewrite IH, <- app_assoc. reflexivity.
Qed.

(** Every list of items splits at its first item that does not decode, or
    decodes throughout. *)
Lemma first_corrupt (items : list (bytes * bytes)) :
  (exists sts,
     Forall2 decodes items sts) \/
  (exists pre k v post sts msg,
     items = pre ++ (k, v) :: post /\
     Forall2 decodes pre sts /\
     snd (gob_decode v zero_State) = Some msg).
Proof.
  induction items as [|[k v] items IH].
  - left. exists []. constructor.
  - destruct (gob_decode v zero_State) as [st [msg|]] eqn:D.
    + right. exists [], k, v, items, [], msg. rewrite D. repeat split; auto.
    + destruct IH as [[sts F]|(pre & k' & v' & post & sts & msg & E & F & C)].
      * left. exists (st :: sts). constructor; auto.
      * right. exists ((k, v) :: pre), k', v', post, (st :: sts), msg.
        subst items. repeat split; auto.
Qed.

Lemma storable_State_inv (st : State) :
  storable st ->
  exists v, gob_encode st = inr v /\
            Z.of_nat (length v) <= MaxValueSize /\
            gob_decode v zero_State = (st, None).
Proof.
  unfold storable. destruct (gob_encode st) as [msg|v]; [tauto|].
  intros [L D]. eauto.
Qed.

Lemma storable_Config_inv (c : Config) :
  storable c ->
  exists v, gob_encode c = inr v /\
            Z.of_nat (length v) <= MaxValueSize /\
            gob_decode v zero_Config = (c, None).
Proof.
  unfold storable. destruct (gob_encode c) as [msg|v]; [tauto|].
  intros [L D]. eauto.
Qed.

Lemma child_names_distinct :
  downloadItemsBucket <> watchedTorrentsBucket /\
  downloadItemsBucket <> bytes_of_string "config" /\
  bytes_of_string "config" <> watchedTorrentsBucket.
Proof. repeat split; discriminate. Qed.

(** One successful [SaveState] on a provisioned user: the record is put
    under its key and the layout of the namespace stays. *)
Lemma SaveState_step (st : State) (u : string) (s : Store) (dl : Bucket)
    (v : bytes) :
  live s -> provisioned u s -> downloads u s = Some dl ->
  gob_encode st = inr v -> Z.of_nat (length v) <= MaxValueSize ->
  exists s',
    Store.SaveState st u s = Returns (None, s') /\
    live s' /\ provisioned u s' /\
    downloads u s' = Some (bucket_insert (itob (FileID st)) (Leaf v) dl).
Proof.
  intros (d & Hd & Ho & Hc) P Hdl He Hv.
  destruct P as (Hne & ub & dl0 & wt & Hub & Hfd & Hfw & Hr & Hcfg).
  unfold downloads in Hdl. unfold user_bucket in Hub. rewrite Hd in Hdl, Hub.
  assert (dl0 = dl) as ->.
  { apply bucket_at_two in Hdl as (ub' & Hu' & Hdl').
    apply bucket_at_one in Hub. congruence. }
  destruct child_names_distinct as (N1 & N2 & N3).
  eexists. split.
  - apply (SaveState_run st u s d dl v); auto.
    now apply records_only_find.
  - set (f := bucket_insert (itob (FileID st)) (Leaf v)).
    assert (Hat : bucket_at
              (bucket_update (root d) [bytes_of_string u; downloadItemsBucket] f)
              [bytes_of_string u; downloadItemsBucket] = Some (f dl))
      by now apply bucket_at_update.
    split; [|split].
    + eexists. split; [reflexivity|]. now split.
    + split; [assumption|].
      exists (bucket_insert downloadItemsBucket (Nested (f dl)) ub), (f dl), wt.
      apply bucket_at_one in Hub.
      unfold user_bucket. cbn [db root set_root bucket_at bucket_update].
      rewrite Hub, Hfd. cbn [bucket_update].
      rewrite bucket_find_insert_eq.
      rewrite bucket_find_insert_eq.
      rewrite !bucket_find_insert_neq by assumption.
      repeat split; auto.
      now apply records_only_insert.
    + unfold downloads. cbn [db root set_root]. exact Hat.
Qed.

(** C8: listing the states of the empty user identifier returns the empty
    sequence and a nil error, whatever the store holds, open or not. *)
Theorem States_empty_user (s : Store) :
  Store.States "" s = Returns ([], None).
Proof.
  unfold Store.States. rewrite String.eqb_refl. reflexivity.
Qed.

(** C5: on a provisioned user, saving a storable state and fetching it by
    its file identifier returns that state, and saving a storable
    configuration and fetching the user's configuration returns that
    configuration. *)
Theorem save_then_fetch (h : Host) (u : string) (s : Store) (st : State)
    (c : Config) :
  live s -> provisioned u s -> storable st -> storable c ->
  (exists s1, Store.SaveState st u s = Returns (None, s1) /\
              Store.State (FileID st) u s1 = Returns (st, None)) /\
  (exists s2, Store.SaveConfig c u s = Returns (None, s2) /\
              Store.Config h u s2 = Returns (Some c, None)).
Proof.
  intros L P Sst Sc. split.
  - destruct (provisioned_downloads u s P) as (dl & Hdl & _).
    apply storable_State_inv in Sst as (v & He & Hv & Hdec).
    destruct (SaveState_step st u s dl v L P Hdl He Hv)
      as (s1 & Hs & (d1 & Hd1 & Ho1 & _) & _ & Hdl1).
    exists s1. split; [assumption|].
    unfold downloads in Hdl1. rewrite Hd1 in Hdl1.
    rewrite (State_run _ u s1 d1 _ Hd1 Ho1 Hdl1).
    now rewrite bucket_find_insert_eq, Hdec.
  - destruct L as (d & Hd & Ho & Hc).
    destruct P as (Hne & ub & dl & wt & Hub & _ & _ & _ & Hcfg).
    unfold user_bucket in Hub. rewrite Hd in Hub.
    apply storable_Config_inv in Sc as (v & He & Hv & Hdec).
    eexists. split.
    + apply (SaveConfig_run c u s d ub v); auto.
    + set (f := bucket_insert (bytes_of_string "config") (Leaf v)).
      set (d2 := set_root d (bucket_update (root d) [bytes_of_string u] f)).
      assert (Hat : bucket_at (root d2) [bytes_of_string u] = Some (f ub))
        by (cbn [root set_root d2]; now apply bucket_at_update).
      rewrite (Config_run h u (mkStore (path s) (Some d2)) d2 (f ub)
                 Hne eq_refl Ho Hat).
      unfold f. now rewrite bucket_find_insert_eq, Hdec.
Qed.

Lemma save_all_run (l : list State) (u : string) (s : Store) (dl : Bucket) :
  live s -> provisioned u s -> downloads u s = Some dl ->
  Forall storable l ->
  exists s',
    save_all l u s = Returns (None, s') /\
    live s' /\ provisioned u s' /\
    downloads u s' = Some (fold_left put_record l dl).
Proof.
  intros L P Hdl F. revert s dl L P Hdl.
  induction F as [|st l Sst F IH]; intros s dl L P Hdl.
  - exists s. auto.
  - apply storable_State_inv in Sst as (v & He & Hv & Hdec).
    destruct (SaveState_step st u s dl v L P Hdl He Hv)
      as (s1 & Hs & L1 & P1 & Hdl1).
    destruct (IH s1 _ L1 P1 Hdl1) as (s' & Hall & L' & P' & Hdl').
    exists s'. simpl. rewrite Hs.
    split; [assumption|]. split; [assumption|]. split; [assumption|].
    rewrite Hdl'. unfold put_record at 3, record_of. now rewrite He.
Qed.

Lemma decode_record_of (st : State) :
  storable st -> gob_decode (record_of st) zero_State = (st, None).
Proof.
  intros S. apply storable_State_inv in S as (v & He & _ & D).
  unfold record_of. now rewrite He.
Qed.

Lemma last_saved_None (id : Z) (l : list State) :
  last_saved id l = None <-> ~ In id (map FileID l).
Proof.
  induction l as [|st l IH]; simpl; [tauto|].
  destruct (last_saved id l) as [x|].
  - split; [discriminate|]. intros N. exfalso. apply N. right.
    destruct (in_dec Z.eq_dec id (map FileID l)) as [I|I]; [assumption|].
    apply IH in I. discriminate.
  - destruct (Z.eqb_spec (FileID st) id) as [E|E].
    + split; [discriminate|]. intros N. elim N. now left.
    + split; [|reflexivity]. intros _ [H|H]; [contradiction|].
      now apply IH in H.
Qed.

Lemma last_saved_Some (id : Z) (l : list State) (st : State) :
  last_saved id l = Some st -> In st l /\ FileID st = id.
Proof.
  induction l as [|x l IH]; simpl; [discriminate|].
  destruct (last_saved id l) as [y|].
  - intros [= ->]. destruct (IH eq_refl). auto.
  - destruct (Z.eqb_spec (FileID x) id); [|discriminate].
    intros [= ->]. auto.
Qed.

(** The entry under the key of an identifier after a run of saves: the
    record of the state saved last under it, else what was there. *)
Lemma find_put_records (id : Z) (l : list State) (b : Bucket) :
  int64 id -> Forall (fun st => int64 (FileID st)) l ->
  bucket_find (itob id) (fold_left put_record l b) =
  match last_saved id l with
  | Some st => Some (Leaf (record_of st))
  | None => bucket_find (itob id) b
  end.
Proof.
  intros Hid F. revert b.
  induction F as [|st l Hst F IH]; intros b; simpl; [reflexivity|].
  rewrite IH. destruct (last_saved id l) as [x|]; [reflexivity|].
  unfold put_record. destruct (Z.eqb_spec (FileID st) id) as [E|E].
  - rewrite E. apply bucket_find_insert_eq.
  - apply bucket_find_insert_neq. intros K. apply itob_inj in K; auto.
Qed.

(** C9: on a provisioned user, fetching a state reports [ErrStateNotFound]
    exactly when no entry is stored under the big-endian key of the
    identifier, and succeeds with a state exactly when a record that decodes
    to it is stored under that key. A record under the key that does not
    decode gives neither: the error of the decoder is returned, next to the
    state as the decoder left it. After any run of saves the fetch returns
    the state saved last under the identifier, and [ErrStateNotFound] for an
    identifier that no saved state bears. *)
Theorem State_found_exactly (id : Z) (u : string) (s : Store) :
  live s -> provisioned u s ->
  exists dl,
    downloads u s = Some dl /\
    (bucket_find (itob id) dl = None <->
     Store.State id u s = Returns (zero_State, Some ErrStateNotFound)) /\
    (forall st,
       Store.State id u s = Returns (st, Some ErrStateNotFound) ->
       bucket_find (itob id) dl = None) /\
    (forall st,
       Store.State id u s = Returns (st, None) <->
       exists v, bucket_find (itob id) dl = Some (Leaf v) /\
                 gob_decode v zero_State = (st, None)) /\
    (forall v st msg,
       bucket_find (itob id) dl = Some (Leaf v) ->
       gob_decode v zero_State = (st, Some msg) ->
       Store.State id u s = Returns (st, Some (Foreign msg))) /\
    (forall l,
       Forall storable l -> Forall (fun st => int64 (FileID st)) l ->
       int64 id ->
       bucket_find (itob id) dl = None ->
       exists s',
         save_all l u s = Returns (None, s') /\
         Store.State id u s' =
         Returns (match last_saved id l with
                  | Some st => (st, None)
                  | None => (zero_State, Some ErrStateNotFound)
                  end)).
Proof.
  intros L P.
  destruct (provisioned_downloads u s P) as (dl & Hdl & Hr).
  exists dl. split; [assumption|].
  pose proof L as (d & Hd & Ho & _).
  pose proof Hdl as Hat. unfold downloads in Hat. rewrite Hd in Hat.
  rewrite (State_run id u s d dl Hd Ho Hat).
  pose proof (records_only_find dl (itob id) Hr) as Hn.
  split; [|split; [|split; [|split]]].
  - destruct (bucket_find (itob id) dl) as [[v|c]|]; split; try congruence.
    destruct (gob_decode v zero_State) as [st [msg|]]; discriminate.
  - intros st.
    destruct (bucket_find (itob id) dl) as [[v|c]|]; try reflexivity.
    + destruct (gob_decode v zero_State) as [st' [msg|]]; discriminate.
    + now elim (Hn c).
  - intros st.
    destruct (bucket_find (itob id) dl) as [[v|c]|]; split.
    + destruct (gob_decode v zero_State) as [st' [msg|]] eqn:D;
        [discriminate|].
      intros [= ->]. eauto.
    + intros (v' & [= <-] & D). now rewrite D.
    + now elim (Hn c).
    + intros (v' & E & _). discriminate.
    + discriminate.
    + intros (v' & E & _). discriminate.
  - intros v st msg E D. now rewrite E, D.
  - intros l F I Hid E.
    destruct (save_all_run l u s dl L P Hdl F)
      as (s' & Hall & (d' & Hd' & Ho' & _) & _ & Hdl').
    exists s'. split; [assumption|].
    unfold downloads in Hdl'. rewrite Hd' in Hdl'.
    rewrite (State_run id u s' d' _ Hd' Ho' Hdl').
    rewrite (find_put_records id l dl Hid I), E.
    destruct (last_saved id l) as [st|] eqn:LS; [|reflexivity].
    apply last_saved_Some in LS as [Hin _].
    rewrite Forall_forall in F. now rewrite (decode_record_of st (F st Hin)).
Qed.

(** C10: when some record under [download-items] does not decode, listing
    returns the decoding error of the first such record together with only
    the visible states that precede it: each record is decoded before its
    flag is read, and nothing that follows the failure is listed. *)
Theorem States_aborts_on_corrupt_record (u : string) (s : Store)
    (dl : Bucket) (k v : bytes) (msg : string) :
  live s -> u <> ""%string -> downloads u s = Some dl ->
  In (k, v) (cursor_items dl) ->
  snd (gob_decode v zero_State) = Some msg ->
  exists pre k1 v1 post sts msg1,
    cursor_items dl = pre ++ (k1, v1) :: post /\
    Forall2 decodes pre sts /\
    snd (gob_decode v1 zero_State) = Some msg1 /\
    Store.States u s = Returns (filter visible sts, Some (Foreign msg1)).
Proof.
  intros (d & Hd & Ho & _) Hne Hdl Hin Hbad.
  unfold downloads in Hdl. rewrite Hd in Hdl.
  rewrite (States_run u s d dl Hne Hd Ho Hdl).
  destruct (first_corrupt (cursor_items dl))
    as [[sts F]|(pre & k1 & v1 & post & sts & msg1 & E & F & C)].
  - exfalso. clear - F Hin Hbad.
    induction F as [|[k0 v0] st items sts D F IH]; simpl in Hin; [tauto|].
    destruct Hin as [[= -> ->]|Hin]; auto.
    unfold decodes in D. simpl in D. rewrite D in Hbad. discriminate.
  - exists pre, k1, v1, post, sts, msg1. repeat split; auto.
    rewrite E. now rewrite (States_loop_corrupt pre post k1 v1 msg1 sts []).
Qed.

(** Decide the order of two keys of known identifiers. *)
Ltac order_keys :=
  repeat match goal with
         | |- context [bytes_compare (itob ?a) (itob ?b)] =>
             rewrite (itob_compare a b);
             let c := eval vm_compute in (uint64 a ?= uint64 b) in
             change (uint64 a ?= uint64 b) with c;
             cbn [bucket_insert]
         end.

Lemma States_listing (u : string) (s : Store) (dl : Bucket)
    (sts : list State) :
  live s -> u <> ""%string -> downloads u s = Some dl ->
  Forall2 decodes (cursor_items dl) sts ->
  Store.States u s = Returns (filter visible sts, None).
Proof.
  intros (d & Hd & Ho & _) Hne Hdl F.
  unfold downloads in Hdl. rewrite Hd in Hdl.
  rewrite (States_run u s d dl Hne Hd Ho Hdl).
  now rewrite (States_loop_decoded _ sts []).
Qed.

(** C6: listing returns the stored states that are not hidden, in the order
    of their keys; with the states of identifiers 1 (visible), 2 (hidden)
    and 3 (visible) saved for a user who had none, it returns exactly the
    first and the third, and the hidden one can still be fetched. *)
Theorem States_excludes_hidden (u : string) (s : Store) :
  live s -> provisioned u s ->
  (forall dl sts,
     downloads u s = Some dl ->
     Forall2 decodes (cursor_items dl) sts ->
     Store.States u s = Returns (filter visible sts, None)) /\
  (forall s1 s2 s3,
     downloads u s = Some [] ->
     storable s1 -> storable s2 -> storable s3 ->
     FileID s1 = 1 -> IsHidden s1 = false ->
     FileID s2 = 2 -> IsHidden s2 = true ->
     FileID s3 = 3 -> IsHidden s3 = false ->
     exists s',
       save_all [s1; s2; s3] u s = Returns (None, s') /\
       Store.States u s' = Returns ([s1; s3], None) /\
       Store.State 2 u s' = Returns (s2, None)).
Proof.
  intros L P. pose proof P as (Hne & _). split.
  - intros dl sts Hdl F. now apply (States_listing u s dl sts).
  - intros s1 s2 s3 Hdl S1 S2 S3 I1 V1 I2 V2 I3 V3.
    destruct (save_all_run [s1; s2; s3] u s [] L P Hdl)
      as (s' & Hall & L' & P' & Hdl').
    { repeat constructor; assumption. }
    exists s'. split; [assumption|].
    cbn [fold_left] in Hdl'. unfold put_record in Hdl'.
    rewrite I1, I2, I3 in Hdl'. cbn [bucket_insert] in Hdl'.
    revert Hdl'. order_keys. intros Hdl'.
    split.
    + rewrite (States_listing u s' _ [s1; s2; s3] L' Hne Hdl').
      * cbn [filter]. unfold visible. now rewrite V1, V2, V3.
      * cbn [cursor_items map fst snd].
        repeat constructor; unfold decodes; cbn [snd];
          now apply decode_record_of.
    + destruct L' as (d' & Hd' & Ho' & _).
      unfold downloads in Hdl'. rewrite Hd' in Hdl'.
      rewrite (State_run 2 u s' d' _ Hd' Ho' Hdl').
      cbn [bucket_find].
      replace (bytes_eqb (itob 1) (itob 2)) with false by reflexivity.
      rewrite bytes_eqb_refl. now rewrite (decode_record_of s2 S2).
Qed.

Lemma Forall_bucket_insert (P : bytes * node -> Prop) (k : bytes)
    (n : node) (b : Bucket) :
  P (k, n) -> Forall P b -> Forall P (bucket_insert k n b).
Proof.
  intros Pk. induction b as [|[k0 m] b IH]; simpl; intros F.
  - constructor; auto.
  - inversion F as [|? ? P0 F']; subst.
    destruct (bytes_compare k k0); constructor; auto.
Qed.

Lemma keys_sorted_put_records (l : list State) (b : Bucket) :
  keys_sorted b -> keys_sorted (fold_left put_record l b).
Proof.
  revert b. induction l as [|st l IH]; simpl; intros b S; [assumption|].
  apply IH. now apply keys_sorted_insert.
Qed.

Lemma records_of_put_records (l0 l : list State) (b : Bucket) :
  incl l l0 -> records_of l0 b -> records_of l0 (fold_left put_record l b).
Proof.
  revert b. induction l as [|st l IH]; simpl; intros b I R; [assumption|].
  apply IH.
  - intros x Hx. apply I. now right.
  - apply Forall_bucket_insert; [|assumption].
    exists st. split; [|reflexivity]. apply I. now left.
Qed.

(** The items of such a bucket decode to the states they were put for. *)
Lemma records_of_decode (l : list State) (b : Bucket) :
  Forall storable l -> records_of l b ->
  exists sts,
    Forall2 decodes (cursor_items b) sts /\
    map (fun st => itob (FileID st)) sts = map fst b /\
    incl sts l.
Proof.
  intros S R. induction R as [|[k n] b (st & Hin & E) R IH].
  - exists []. repeat split; [constructor | intros x []].
  - destruct IH as (sts & F & M & I). injection E as -> ->.
    exists (st :: sts). split; [|split].
    + constructor; [|assumption]. unfold decodes. cbn [snd].
      apply decode_record_of. rewrite Forall_forall in S. now apply S.
    + simpl. now rewrite M.
    + intros x [<-|Hx]; auto.
Qed.

Lemma StronglySorted_filter {A} (R : A -> A -> Prop) (f : A -> bool)
    (l : list A) :
  StronglySorted R l -> StronglySorted R (filter f l).
Proof.
  induction 1 as [|a l S IH F]; simpl; [constructor|].
  destruct (f a); [|assumption].
  constructor; [assumption|].
  rewrite Forall_forall in *. intros x Hx. apply F.
  now apply filter_In in Hx.
Qed.

Lemma StronglySorted_map_inv {A B} (R : B -> B -> Prop) (g : A -> B)
    (l : list A) :
  StronglySorted R (map g l) -> StronglySorted (fun x y => R (g x) (g y)) l.
Proof.
  induction l as [|a l IH]; simpl; intros S; [constructor|].
  inversion S as [|? ? S' F]; subst. constructor; [auto|].
  rewrite Forall_forall in *. intros x Hx. apply F. now apply in_map.
Qed.

Lemma StronglySorted_weaken {A} (R Q : A -> A -> Prop) (l : list A) :
  (forall x y, In x l -> In y l -> R x y -> Q x y) ->
  StronglySorted R l -> StronglySorted Q l.
Proof.
  intros W S. induction S as [|a l S IH F]; [constructor|].
  constructor.
  - apply IH. intros x y Hx Hy. apply W; now right.
  - rewrite Forall_forall in *. intros x Hx.
    apply W; [now left | now right | now apply F].
Qed.

Lemma bytes_lt_itob (a b : Z) :
  bytes_lt (itob a) (itob b) <-> uint64 a < uint64 b.
Proof.
  unfold bytes_lt. rewrite itob_compare. apply Z.compare_lt_iff.
Qed.

Lemma uint64_nonneg (a : Z) : 0 <= a < 2 ^ 63 -> uint64 a = a.
Proof. intros H. unfold uint64. apply Z.mod_small. lia. Qed.

Lemma uint64_neg (a : Z) : - 2 ^ 63 <= a < 0 -> uint64 a = a + 2 ^ 64.
Proof.
  intros H. unfold uint64.
  change (2 ^ 63) with 9223372036854775808 in *.
  change (2 ^ 64) with 18446744073709551616 in *.
  Z.div_mod_to_equations. lia.
Qed.

(** The listing after saving [l] for a user who had no states. *)
Lemma States_after_saves (u : string) (s : Store) (l : list State) :
  live s -> provisioned u s -> downloads u s = Some [] ->
  Forall storable l ->
  exists s' sts,
    save_all l u s = Returns (None, s') /\
    downloads u s' = Some (fold_left put_record l []) /\
    Forall2 decodes (cursor_items (fold_left put_record l [])) sts /\
    Store.States u s' = Returns (filter visible sts, None) /\
    StronglySorted (fun x y => uint64 (FileID x) < uint64 (FileID y)) sts /\
    incl sts l.
Proof.
  intros L P Hdl S. pose proof P as (Hne & _).
  destruct (save_all_run l u s [] L P Hdl S) as (s' & Hall & L' & P' & Hdl').
  destruct (records_of_decode l (fold_left put_record l []) S)
    as (sts & F & M & I).
  { apply records_of_put_records; [apply incl_refl | constructor]. }
  exists s', sts. repeat (split; [assumption|]).
  split; [now apply (States_listing u s' (fold_left put_record l []) sts)|].
  split; [|assumption].
  assert (K : keys_sorted (fold_left put_record l []))
    by (apply keys_sorted_put_records; constructor).
  unfold keys_sorted in K. rewrite <- M in K.
  apply StronglySorted_map_inv in K.
  eapply StronglySorted_weaken; [|exact K].
  intros x y _ _. apply bytes_lt_itob.
Qed.

(** C2 (amended): the key of an identifier is the big-endian form of its
    conversion to [uint64], so keys are ordered as these unsigned values:
    the order of the identifiers is kept among the non-negative ones and
    among the negative ones, and the key of every negative identifier comes
    after the key of every non-negative one. Listing yields the visible
    saved states in this ascending key order, which is the ascending order
    of the identifiers when none is negative; after saving 5, 1 and 3 it
    yields 1, 3, 5. *)
Theorem itob_order_and_listing :
  (forall a b,
     int64 a -> int64 b ->
     (bytes_lt (itob a) (itob b) <-> uint64 a < uint64 b) /\
     (a < b -> 0 <= a \/ b < 0 -> bytes_lt (itob a) (itob b)) /\
     (a < 0 <= b -> bytes_lt (itob b) (itob a))) /\
  (forall u s l,
     live s -> provisioned u s -> downloads u s = Some [] ->
     Forall storable l ->
     exists s' r,
       save_all l u s = Returns (None, s') /\
       Store.States u s' = Returns (r, None) /\
       StronglySorted (fun x y => uint64 (FileID x) < uint64 (FileID y)) r /\
       (forall x, In x r -> In x l /\ IsHidden x = false) /\
       (Forall (fun st => 0 <= FileID st < 2 ^ 63) l ->
        StronglySorted (fun x y => FileID x < FileID y) r) /\
       (forall s1 s3 s5,
          l = [s5; s1; s3] ->
          FileID s1 = 1 -> FileID s3 = 3 -> FileID s5 = 5 ->
          IsHidden s1 = false -> IsHidden s3 = false ->
          IsHidden s5 = false ->
          r = [s1; s3; s5])).
Proof.
  split.
  - intros a b Ha Hb. unfold int64 in Ha, Hb.
    split; [apply bytes_lt_itob|]. split.
    + intros Hab [H|H]; apply bytes_lt_itob.
      * rewrite !uint64_nonneg by lia. lia.
      * rewrite !uint64_neg by lia. lia.
    + intros H. apply bytes_lt_itob.
      rewrite (uint64_nonneg b), (uint64_neg a) by lia.
      change (2 ^ 63) with 9223372036854775808 in *.
      change (2 ^ 64) with 18446744073709551616 in *. lia.
  - intros u s l L P Hdl S.
    destruct (States_after_saves u s l L P Hdl S)
      as (s' & sts & Hall & Hdl' & F & Hst & Sorted & I).
    exists s', (filter visible sts).
    split; [assumption|]. split; [assumption|].
    assert (Sr : StronglySorted
                   (fun x y => uint64 (FileID x) < uint64 (FileID y))
                   (filter visible sts))
      by now apply StronglySorted_filter.
    assert (Mem : forall x, In x (filter visible sts) ->
                            In x l /\ IsHidden x = false).
    { intros x Hx. apply filter_In in Hx as [Hx V]. split; [now apply I|].
      unfold visible in V. now destruct (IsHidden x). }
    split; [assumption|]. split; [assumption|]. split.
    + intros N. rewrite Forall_forall in N.
      eapply StronglySorted_weaken; [|exact Sr].
      intros x y Hx Hy. cbv beta.
      rewrite !uint64_nonneg; auto; apply N; now apply Mem.
    + intros s1 s3 s5 -> I1 I3 I5 V1 V3 V5.
      cbn [fold_left] in F. unfold put_record in F.
      rewrite I1, I3, I5 in F. cbn [bucket_insert] in F.
      revert F. order_keys. cbn [cursor_items map fst snd]. intros F.
      inversion S as [|? ? S5 S']; subst.
      inversion S' as [|? ? S1 S'']; subst.
      inversion S'' as [|? ? S3 _]; subst.
      inversion F as [|? x1 ? ? D1 F1]; subst.
      inversion F1 as [|? x3 ? ? D3 F3]; subst.
      inversion F3 as [|? x5 ? ? D5 F5]; subst.
      inversion F5; subst.
      unfold decodes in D1, D3, D5. cbn [snd] in D1, D3, D5.
      rewrite decode_record_of in D1, D3, D5 by assumption.
      injection D1 as <-. injection D3 as <-. injection D5 as <-.
      cbn [filter]. unfold visible. now rewrite V1, V3, V5.
Qed.

Lemma Bucket_CreateBucketIfNotExists_value (p : bucket_path) (key : bytes)
    (r b : Bucket) (v : bytes) :
  bucket_at r p = Some b ->
  (length key =? 0)%nat = false ->
  bucket_find key b = Some (Leaf v) ->
  Bucket_CreateBucketIfNotExists (Some p) key r =
  Returns ((None, Some ErrIncompatibleValue), r).
Proof.
  intros H K E.
  unfold Bucket_CreateBucketIfNotExists, tx_bind, Bucket_CreateBucket,
    with_bucket.
  now rewrite H, K, E.
Qed.

Lemma Bucket_CreateBucketIfNotExists_noname (p : bucket_path) (key : bytes)
    (r b : Bucket) :
  bucket_at r p = Some b ->
  (length key =? 0)%nat = true ->
  Bucket_CreateBucketIfNotExists (Some p) key r =
  Returns ((None, Some ErrBucketNameRequired), r).
Proof.
  intros H K.
  unfold Bucket_CreateBucketIfNotExists, tx_bind, Bucket_CreateBucket,
    with_bucket.
  now rewrite H, K.
Qed.

(** What holds after [CreateBucketIfNotExists] returned without error. *)
Lemma Bucket_CreateBucketIfNotExists_ok (p : bucket_path) (key : bytes)
    (r b : Bucket) (h : handle) (r' : Bucket) :
  bucket_at r p = Some b ->
  Bucket_CreateBucketIfNotExists (Some p) key r = Returns ((h, None), r') ->
  (length key =? 0)%nat = false /\
  h = Some (p ++ [key]) /\
  exists b' c,
    bucket_at r' p = Some b' /\
    bucket_find key b' = Some (Nested c) /\
    (forall k, key <> k -> bucket_find k b' = bucket_find k b).
Proof.
  intros H R.
  destruct (length key =? 0)%nat eqn:K.
  { rewrite (Bucket_CreateBucketIfNotExists_noname p key r b H K) in R.
    discriminate. }
  split; [reflexivity|].
  destruct (bucket_find key b) as [[v|c]|] eqn:E.
  - rewrite (Bucket_CreateBucketIfNotExists_value p key r b v H K E) in R.
    discriminate.
  - rewrite (Bucket_CreateBucketIfNotExists_exists p key r b c H K E) in R.
    injection R as <- <-. split; [reflexivity|]. exists b, c. auto.
  - rewrite (Bucket_CreateBucketIfNotExists_absent p key r b H K E) in R.
    injection R as <- <-. split; [reflexivity|].
    exists (bucket_insert key (Nested []) b), [].
    split; [now apply bucket_at_update|].
    split; [apply bucket_find_insert_eq|].
    intros k N. now apply bucket_find_insert_neq.
Qed.

Lemma store_eta (s : Store) (d : DB) :
  db s = Some d -> mkStore (path s) (Some d) = s.
Proof. destruct s as [p o]. simpl. now intros ->. Qed.

(** [CreateBuckets] on a user whose buckets exist changes nothing. *)
Lemma CreateBuckets_unchanged (u : string) (s : Store) :
  live s -> has_namespace u s ->
  Store.CreateBuckets u s = Returns (None, s).
Proof.
  intros (d & Hd & Ho & Hc) (Hne & ub & dl & wt & Hub & Hfd & Hfw).
  unfold user_bucket in Hub. rewrite Hd in Hub.
  pose proof Hub as Hu. apply bucket_at_one in Hu.
  pose proof (bytes_of_string_nonempty u Hne) as K.
  unfold Store.CreateBuckets, Store.db_Update. rewrite Hd.
  unfold DB_Update. rewrite Ho. cbn [negb]. unfold tx_bind at 1.
  unfold tx_CreateBucketIfNotExists.
  rewrite (Bucket_CreateBucketIfNotExists_exists [] _ _ (root d) ub eq_refl K Hu).
  cbn [app Store.CreateBuckets_loop]. unfold tx_bind.
  rewrite (Bucket_CreateBucketIfNotExists_exists _ downloadItemsBucket _ ub dl
             Hub eq_refl Hfd).
  rewrite (Bucket_CreateBucketIfNotExists_exists _ watchedTorrentsBucket _ ub
             wt Hub eq_refl Hfw).
  unfold tx_ret. rewrite Hc, set_root_same. now rewrite store_eta.
Qed.

(** A successful [CreateBuckets] leaves the user with its buckets. *)
Lemma CreateBuckets_establishes (u : string) (s s1 : Store) :
  Store.CreateBuckets u s = Returns (None, s1) ->
  live s1 /\ has_namespace u s1.
Proof.
  unfold Store.CreateBuckets, Store.db_Update.
  destruct (db s) as [d|] eqn:Hd; [|discriminate].
  unfold DB_Update. destruct (opened d) eqn:Ho; [|discriminate].
  cbn [negb]. unfold tx_bind at 1. unfold tx_CreateBucketIfNotExists.
  destruct (Bucket_CreateBucketIfNotExists (Some [])
              (bytes_of_string u) (root d)) as [[[h [e|]] r0]|] eqn:E0;
    try discriminate.
  destruct (Bucket_CreateBucketIfNotExists_ok [] _ (root d) (root d) h r0
              eq_refl E0) as (K & -> & b0 & ub0 & Hb0 & Hu0 & _).
  injection Hb0 as <-. cbn [app Store.CreateBuckets_loop].
  assert (Hat0 : bucket_at r0 [bytes_of_string u] = Some ub0)
    by now apply bucket_at_one.
  unfold tx_bind at 1.
  destruct (Bucket_CreateBucketIfNotExists (Some [bytes_of_string u])
              downloadItemsBucket r0) as [[[h1 [e|]] r1]|] eqn:E1;
    try discriminate.
  destruct (Bucket_CreateBucketIfNotExists_ok _ _ r0 ub0 h1 r1 Hat0 E1)
    as (_ & _ & ub1 & dl & Hat1 & Hd1 & _).
  unfold tx_bind at 1.
  destruct (Bucket_CreateBucketIfNotExists (Some [bytes_of_string u])
              watchedTorrentsBucket r1) as [[[h2 [e|]] r2]|] eqn:E2;
    try discriminate.
  destruct (Bucket_CreateBucketIfNotExists_ok _ _ r1 ub1 h2 r2 Hat1 E2)
    as (_ & _ & ub2 & wt & Hat2 & Hw2 & Hother).
  unfold tx_ret. destruct (commit_err d) eqn:Hc; [discriminate|].
  intros [= <-]. split.
  - exists (set_root d r2). now repeat split.
  - split.
    + intros ->. discriminate.
    + exists ub2, dl, wt. unfold user_bucket. cbn [db root set_root].
      split; [assumption|]. split; [|assumption].
      rewrite Hother; [assumption|].
      intros E. symmetry in E. now apply child_names_distinct in E.
Qed.

(** [CreateBuckets] for a user who has no bucket yet provisions the user,
    with no states. *)
Lemma CreateBuckets_provisions (u : string) (s : Store) (d : DB) :
  db s = Some d -> opened d = true -> commit_err d = None ->
  u <> ""%string ->
  bucket_find (bytes_of_string u) (root d) = None ->
  exists s',
    Store.CreateBuckets u s = Returns (None, s') /\
    live s' /\ provisioned u s' /\ downloads u s' = Some [].
Proof.
  intros Hd Ho Hc Hne Hu.
  pose proof (bytes_of_string_nonempty u Hne) as K.
  set (ku := bytes_of_string u) in *.
  set (r0 := bucket_insert ku (Nested []) (root d)).
  assert (Hat0 : bucket_at r0 [ku] = Some []).
  { apply bucket_at_one. apply bucket_find_insert_eq. }
  set (f1 := bucket_insert downloadItemsBucket (Nested [])).
  set (r1 := bucket_update r0 [ku] f1).
  assert (Hat1 : bucket_at r1 [ku] = Some (f1 []))
    by now apply bucket_at_update.
  set (f2 := bucket_insert watchedTorrentsBucket (Nested [])).
  set (r2 := bucket_update r1 [ku] f2).
  assert (Hat2 : bucket_at r2 [ku] = Some (f2 (f1 [])))
    by now apply bucket_at_update.
  exists (mkStore (path s) (Some (set_root d r2))). split.
  - unfold Store.CreateBuckets, Store.db_Update. rewrite Hd.
    unfold DB_Update. rewrite Ho. cbn [negb]. unfold tx_bind at 1.
    unfold tx_CreateBucketIfNotExists. fold ku.
    rewrite (Bucket_CreateBucketIfNotExists_absent [] ku (root d) (root d)
               eq_refl K Hu).
    cbn [app Store.CreateBuckets_loop bucket_update]. fold r0.
    unfold tx_bind.
    rewrite (Bucket_CreateBucketIfNotExists_absent [ku] downloadItemsBucket
               r0 [] Hat0 eq_refl eq_refl).
    fold f1. fold r1.
    rewrite (Bucket_CreateBucketIfNotExists_absent [ku] watchedTorrentsBucket
               r1 (f1 []) Hat1 eq_refl eq_refl).
    fold f2. fold r2. unfold tx_ret. now rewrite Hc.
  - split; [|split].
    + eexists. split; [reflexivity|]. now split.
    + split; [assumption|].
      exists (f2 (f1 [])), [], []. unfold user_bucket. cbn [db root set_root].
      split; [assumption|]. split; [reflexivity|]. split; [reflexivity|].
      split; [intros k c []|]. intros c. discriminate.
    + unfold downloads. cbn [db root set_root].
      apply bucket_at_two. exists (f2 (f1 [])).
      split; [now apply bucket_at_one | reflexivity].
Qed.

(** A save that succeeded ran on a live store and rewrote one bucket. *)
Lemma SaveState_success (st : State) (v : string) (s s2 : Store) :
  Store.SaveState st v s = Returns (None, s2) ->
  exists d val,
    db s = Some d /\ opened d = true /\ commit_err d = None /\
    s2 = mkStore (path s)
           (Some (set_root d
                    (bucket_update (root d)
                       [bytes_of_string v; downloadItemsBucket]
                       (bucket_insert (itob (FileID st)) (Leaf val))))).
Proof.
  unfold Store.SaveState, Store.db_Update.
  destruct (db s) as [d|] eqn:Hd; [|discriminate].
  unfold DB_Update. destruct (opened d) eqn:Ho; [|discriminate].
  cbn [negb]. unfold tx_bind. rewrite tx_Bucket_root.
  destruct (bucket_find (bytes_of_string v) (root d)) as [[x|ub]|] eqn:Hu;
    try discriminate.
  rewrite (Bucket_Bucket_at [bytes_of_string v] _ _ ub)
    by now apply bucket_at_one.
  destruct (bucket_find downloadItemsBucket ub) as [[x|dl]|] eqn:Hdl;
    cbn [app]; destruct (gob_encode st) as [msg|val]; try discriminate.
  unfold Bucket_Put, with_bucket.
  assert (Hat : bucket_at (root d) [bytes_of_string v; downloadItemsBucket]
                = Some dl) by (apply bucket_at_two; eauto).
  rewrite Hat.
  destruct (length (itob (FileID st)) =? 0)%nat; [discriminate|].
  destruct (Z.of_nat (length (itob (FileID st))) >? MaxKeySize);
    [discriminate|].
  destruct (Z.of_nat (length val) >? MaxValueSize); [discriminate|].
  destruct (bucket_find (itob (FileID st)) dl) as [[x|c]|];
    try discriminate;
    (destruct (commit_err d) eqn:Hc; [discriminate|]);
    intros [= <-];
    exists d, val;
    (split; [reflexivity|]); (split; [assumption|]);
    (split; [assumption|]); reflexivity.
Qed.

Lemma SaveConfig_success (c : Config) (v : string) (s s2 : Store) :
  Store.SaveConfig c v s = Returns (None, s2) ->
  exists d val,
    db s = Some d /\ opened d = true /\ commit_err d = None /\
    s2 = mkStore (path s)
           (Some (set_root d
                    (bucket_update (root d) [bytes_of_string v]
                       (bucket_insert (bytes_of_string "config")
                                      (Leaf val))))).
Proof.
  unfold Store.SaveConfig, Store.db_Update.
  destruct (db s) as [d|] eqn:Hd; [|discriminate].
  unfold DB_Update. destruct (opened d) eqn:Ho; [|discriminate].
  cbn [negb]. unfold tx_bind. rewrite tx_Bucket_root.
  destruct (bucket_find (bytes_of_string v) (root d)) as [[x|ub]|] eqn:Hu;
    destruct (gob_encode c) as [msg|val]; try discriminate.
  unfold Bucket_Put, with_bucket.
  assert (Hat : bucket_at (root d) [bytes_of_string v] = Some ub)
    by now apply bucket_at_one.
  rewrite Hat.
  destruct (length (bytes_of_string "config") =? 0)%nat; [discriminate|].
  destruct (Z.of_nat (length (bytes_of_string "config")) >? MaxKeySize);
    [discriminate|].
  destruct (Z.of_nat (length val) >? MaxValueSize); [discriminate|].
  destruct (bucket_find (bytes_of_string "config") ub) as [[x|b]|];
    try discriminate;
    (destruct (commit_err d) eqn:Hc; [discriminate|]);
    intros [= <-];
    exists d, val;
    (split; [reflexivity|]); (split; [assumption|]);
    (split; [assumption|]); reflexivity.
Qed.

(** The buckets of a user outlast a write into the states of any user. *)
Lemma namespace_kept_state (r : Bucket) (ku kv : bytes)
    (f : Bucket -> Bucket) (ub dl wt : Bucket) :
  bucket_find ku r = Some (Nested ub) ->
  bucket_find downloadItemsBucket ub = Some (Nested dl) ->
  bucket_find watchedTorrentsBucket ub = Some (Nested wt) ->
  exists ub' dl' wt',
    bucket_find ku (bucket_update r [kv; downloadItemsBucket] f)
      = Some (Nested ub') /\
    bucket_find downloadItemsBucket ub' = Some (Nested dl') /\
    bucket_find watchedTorrentsBucket ub' = Some (Nested wt').
Proof.
  intros Hu Hd Hw. cbn [bucket_update].
  destruct (bucket_find kv r) as [[x|vb]|] eqn:Hv; cbv iota; eauto 10.
  destruct (bytes_eqb kv ku) eqn:E.
  - apply bytes_eqb_eq in E. subst kv. rewrite Hu in Hv.
    injection Hv as <-. rewrite Hd, bucket_find_insert_eq.
    do 3 eexists. split; [reflexivity|].
    split; [apply bucket_find_insert_eq|].
    rewrite bucket_find_insert_neq; [eassumption|].
    apply child_names_distinct.
  - apply bytes_eqb_neq in E. rewrite bucket_find_insert_neq by assumption.
    eauto 10.
Qed.

(** The buckets of a user outlast a write of any user's configuration. *)
Lemma namespace_kept_config (r : Bucket) (ku kv val : bytes)
    (ub dl wt : Bucket) :
  bucket_find ku r = Some (Nested ub) ->
  bucket_find downloadItemsBucket ub = Some (Nested dl) ->
  bucket_find watchedTorrentsBucket ub = Some (Nested wt) ->
  exists ub' dl' wt',
    bucket_find ku
      (bucket_update r [kv]
         (bucket_insert (bytes_of_string "config") (Leaf val)))
      = Some (Nested ub') /\
    bucket_find downloadItemsBucket ub' = Some (Nested dl') /\
    bucket_find watchedTorrentsBucket ub' = Some (Nested wt').
Proof.
  intros Hu Hd Hw. cbn [bucket_update].
  destruct (bucket_find kv r) as [[x|vb]|] eqn:Hv; cbv iota; eauto 10.
  destruct (bytes_eqb kv ku) eqn:E.
  - apply bytes_eqb_eq in E. subst kv. rewrite Hu in Hv.
    injection Hv as <-. rewrite bucket_find_insert_eq.
    destruct child_names_distinct as (_ & N2 & N3).
    do 3 eexists. split; [reflexivity|].
    rewrite !bucket_find_insert_neq by auto. eauto 10.
  - apply bytes_eqb_neq in E. rewrite bucket_find_insert_neq by assumption.
    eauto 10.
Qed.

Lemma saved_from_keeps (u : string) (s1 s2 : Store) :
  saved_from s1 s2 ->
  live s1 /\ has_namespace u s1 -> live s2 /\ has_namespace u s2.
Proof.
  induction 1 as [|sa sb st v Hsaved IH Hsave|sa sb c v Hsaved IH Hsave];
    intros H0; [assumption| |].
  - destruct (IH H0) as (_ & Hne & ub & dl & wt & Hub & Hfd & Hfw).
    apply SaveState_success in Hsave as (d & val & Hd & Ho & Hc & ->).
    unfold user_bucket in Hub. rewrite Hd in Hub.
    apply bucket_at_one in Hub.
    destruct (namespace_kept_state (root d) (bytes_of_string u)
                (bytes_of_string v)
                (bucket_insert (itob (FileID st)) (Leaf val))
                ub dl wt Hub Hfd Hfw)
      as (ub' & dl' & wt' & Hu' & Hd' & Hw').
    split.
    + eexists. split; [reflexivity|]. now split.
    + split; [assumption|]. exists ub', dl', wt'.
      unfold user_bucket. cbn [db root set_root].
      split; [now apply bucket_at_one|]. now split.
  - destruct (IH H0) as (_ & Hne & ub & dl & wt & Hub & Hfd & Hfw).
    apply SaveConfig_success in Hsave as (d & val & Hd & Ho & Hc & ->).
    unfold user_bucket in Hub. rewrite Hd in Hub.
    apply bucket_at_one in Hub.
    destruct (namespace_kept_config (root d) (bytes_of_string u)
                (bytes_of_string v) val ub dl wt Hub Hfd Hfw)
      as (ub' & dl' & wt' & Hu' & Hd' & Hw').
    split.
    + eexists. split; [reflexivity|]. now split.
    + split; [assumption|]. exists ub', dl', wt'.
      unfold user_bucket. cbn [db root set_root].
      split; [now apply bucket_at_one|]. now split.
Qed.

(** C7: once [CreateBuckets] succeeded for a user, calling it again, at
    once or after any successful saves of states and configurations,
    succeeds and returns the store as it was: the same buckets, and every
    stored record, of this user and of the others, byte for byte. *)
Theorem CreateBuckets_idempotent (u : string) (s s1 s2 : Store) :
  Store.CreateBuckets u s = Returns (None, s1) ->
  saved_from s1 s2 ->
  Store.CreateBuckets u s2 = Returns (None, s2).
Proof.
  intros Hc Hs. apply CreateBuckets_establishes in Hc.
  destruct (saved_from_keeps u s1 s2 Hs Hc) as [L N].
  now apply CreateBuckets_unchanged.
Qed.

(** *** The layout that the calls maintain *)

Lemma good_namespace_nil : good_namespace [].
Proof. split; intros x H; discriminate. Qed.

Lemma good_put_leaf (ub : Bucket) (k v : bytes) :
  good_namespace ub -> k <> downloadItemsBucket ->
  good_namespace (bucket_insert k (Leaf v) ub).
Proof.
  intros [Gc Gd] N. split.
  - intros c. destruct (bytes_eqb k (bytes_of_string "config")) eqn:E.
    + apply bytes_eqb_eq in E. subst k. rewrite bucket_find_insert_eq.
      discriminate.
    + apply bytes_eqb_neq in E. rewrite bucket_find_insert_neq by assumption.
      apply Gc.
  - intros dl. rewrite bucket_find_insert_neq by assumption. apply Gd.
Qed.

Lemma good_put_child (ub : Bucket) (k : bytes) :
  good_namespace ub -> k <> bytes_of_string "config" ->
  good_namespace (bucket_insert k (Nested []) ub).
Proof.
  intros [Gc Gd] N. split.
  - intros c. rewrite bucket_find_insert_neq by assumption. apply Gc.
  - intros dl. destruct (bytes_eqb k downloadItemsBucket) eqn:E.
    + apply bytes_eqb_eq in E. subst k. rewrite bucket_find_insert_eq.
      intros [= <-] x c [].
    + apply bytes_eqb_neq in E. rewrite bucket_find_insert_neq by assumption.
      apply Gd.
Qed.

Lemma good_put_record (ub : Bucket) (key v : bytes) :
  good_namespace ub ->
  good_namespace
    (bucket_update ub [downloadItemsBucket] (bucket_insert key (Leaf v))).
Proof.
  intros G. cbn [bucket_update].
  destruct (bucket_find downloadItemsBucket ub) as [[x|dl]|] eqn:E;
    try assumption.
  destruct G as [Gc Gd].
  destruct child_names_distinct as (_ & N & _). split.
  - intros c. rewrite bucket_find_insert_neq by assumption. apply Gc.
  - intros dl'. rewrite bucket_find_insert_eq. intros [= <-].
    apply records_only_insert. now apply Gd.
Qed.

Lemma well_formed_update (r : Bucket) (k : bytes) (p : list bytes)
    (f : Bucket -> Bucket) :
  well_formed_root r ->
  (forall ub, good_namespace ub -> good_namespace (bucket_update ub p f)) ->
  well_formed_root (bucket_update r (k :: p) f).
Proof.
  intros W G. cbn [bucket_update].
  destruct (bucket_find k r) as [[x|ub]|] eqn:E; try assumption.
  intros k' ub' H. destruct (bytes_eqb k k') eqn:Q.
  - apply bytes_eqb_eq in Q. subst k'. rewrite bucket_find_insert_eq in H.
    injection H as <-. apply G. now apply (W k ub).
  - apply bytes_eqb_neq in Q.
    rewrite bucket_find_insert_neq in H by assumption. now apply (W k' ub').
Qed.

Lemma well_formed_create_top (r : Bucket) (k : bytes) :
  well_formed_root r -> well_formed_root (bucket_insert k (Nested []) r).
Proof.
  intros W k' ub' H. destruct (bytes_eqb k k') eqn:Q.
  - apply bytes_eqb_eq in Q. subst k'. rewrite bucket_find_insert_eq in H.
    injection H as <-. apply good_namespace_nil.
  - apply bytes_eqb_neq in Q.
    rewrite bucket_find_insert_neq in H by assumption. now apply (W k' ub').
Qed.

(** What [CreateBucketIfNotExists] leaves of the root. *)
Lemma Bucket_CreateBucketIfNotExists_root (p : list bytes) (key : bytes)
    (r b : Bucket) (res : option (list bytes) * option goerror)
    (r' : Bucket) :
  bucket_at r p = Some b ->
  Bucket_CreateBucketIfNotExists (Some p) key r = Returns (res, r') ->
  r' = r \/ r' = bucket_update r p (bucket_insert key (Nested [])).
Proof.
  intros H R. destruct (length key =? 0)%nat eqn:K.
  - rewrite (Bucket_CreateBucketIfNotExists_noname p key r b H K) in R.
    injection R as _ <-. now left.
  - destruct (bucket_find key b) as [[v|c]|] eqn:E.
    + rewrite (Bucket_CreateBucketIfNotExists_value p key r b v H K E) in R.
      injection R as _ <-. now left.
    + rewrite (Bucket_CreateBucketIfNotExists_exists p key r b c H K E) in R.
      injection R as _ <-. now left.
    + rewrite (Bucket_CreateBucketIfNotExists_absent p key r b H K E) in R.
      injection R as _ <-. now right.
Qed.

(** A transaction that returned an error left the store as it was. *)
Lemma db_Update_error (s : Store) (fn : Tx (option goerror)) (e : goerror)
    (s' : Store) :
  Store.db_Update s fn = Returns (Some e, s') -> s' = s.
Proof.
  unfold Store.db_Update. destruct (db s) as [d|] eqn:Hd; [|discriminate].
  unfold DB_Update. destruct (opened d); cbn [negb].
  - destruct (fn (root d)) as [[[e'|] r]|]; try discriminate.
    + intros [= _ <-]. now apply store_eta.
    + destruct (commit_err d); [|discriminate].
      intros [= _ <-]. now apply store_eta.
  - intros [= _ <-]. now apply store_eta.
Qed.

Lemma SaveCurrentUser_success (name : string) (s s2 : Store) :
  Store.SaveCurrentUser name s = Returns (None, s2) ->
  exists d,
    db s = Some d /\
    s2 = mkStore (path s)
           (Some (set_root d
                    (bucket_update (root d) [defaultsBucket]
                       (bucket_insert (bytes_of_string "current-user")
                          (Leaf (bytes_of_string name)))))).
Proof.
  unfold Store.SaveCurrentUser, Store.db_Update.
  destruct (db s) as [d|] eqn:Hd; [|discriminate].
  unfold DB_Update. destruct (opened d) eqn:Ho; [|discriminate].
  cbn [negb]. unfold tx_bind. rewrite tx_Bucket_root.
  destruct (bucket_find defaultsBucket (root d)) as [[x|ub]|] eqn:Hu;
    try discriminate.
  unfold Bucket_Put, with_bucket.
  assert (Hat : bucket_at (root d) [defaultsBucket] = Some ub)
    by now apply bucket_at_one.
  rewrite Hat.
  destruct (length (bytes_of_string "current-user") =? 0)%nat;
    [discriminate|].
  destruct (Z.of_nat (length (bytes_of_string "current-user")) >? MaxKeySize);
    [discriminate|].
  destruct (Z.of_nat (length (bytes_of_string name)) >? MaxValueSize);
    [discriminate|].
  destruct (bucket_find (bytes_of_string "current-user") ub) as [[x|b]|];
    try discriminate;
    (destruct (commit_err d) eqn:Hc; [discriminate|]);
    intros [= <-]; exists d; (split; reflexivity).
Qed.

Lemma SaveState_well_formed (st : State) (u : string) (s s' : Store)
    (e : option goerror) :
  well_formed s -> Store.SaveState st u s = Returns (e, s') ->
  well_formed s'.
Proof.
  intros W H. destruct e as [e|].
  - apply db_Update_error in H. now subst.
  - apply SaveState_success in H as (d & val & Hd & _ & _ & ->).
    unfold well_formed in *. rewrite Hd in W. cbn [db root set_root].
    apply well_formed_update; [assumption|].
    intros ub. apply good_put_record.
Qed.

Lemma SaveConfig_well_formed (c : Config) (u : string) (s s' : Store)
    (e : option goerror) :
  well_formed s -> Store.SaveConfig c u s = Returns (e, s') ->
  well_formed s'.
Proof.
  intros W H. destruct e as [e|].
  - apply db_Update_error in H. now subst.
  - apply SaveConfig_success in H as (d & val & Hd & _ & _ & ->).
    unfold well_formed in *. rewrite Hd in W. cbn [db root set_root].
    apply well_formed_update; [assumption|].
    intros ub G. cbn [bucket_update]. apply good_put_leaf; [assumption|].
    intros E. symmetry in E. now apply child_names_distinct in E.
Qed.

Lemma SaveCurrentUser_well_formed (name : string) (s s' : Store)
    (e : option goerror) :
  well_formed s -> Store.SaveCurrentUser name s = Returns (e, s') ->
  well_formed s'.
Proof.
  intros W H. destruct e as [e|].
  - apply db_Update_error in H. now subst.
  - apply SaveCurrentUser_success in H as (d & Hd & ->).
    unfold well_formed in *. rewrite Hd in W. cbn [db root set_root].
    apply well_formed_update; [assumption|].
    intros ub G. cbn [bucket_update]. apply good_put_leaf; [assumption|].
    discriminate.
Qed.

Lemma CreateBuckets_well_formed (u : string) (s s' : Store)
    (e : option goerror) :
  well_formed s -> Store.CreateBuckets u s = Returns (e, s') ->
  well_formed s'.
Proof.
  intros W H. destruct e as [e|].
  { apply db_Update_error in H. now subst. }
  revert H. unfold Store.CreateBuckets, Store.db_Update.
  destruct (db s) as [d|] eqn:Hd; [|discriminate].
  unfold well_formed in W. rewrite Hd in W.
  unfold DB_Update. destruct (opened d) eqn:Ho; [|discriminate].
  cbn [negb]. unfold tx_bind at 1. unfold tx_CreateBucketIfNotExists.
  destruct (Bucket_CreateBucketIfNotExists (Some [])
              (bytes_of_string u) (root d)) as [[[h [e|]] r0]|] eqn:E0;
    try discriminate.
  assert (W0 : well_formed_root r0).
  { destruct (Bucket_CreateBucketIfNotExists_root [] _ (root d) (root d)
                _ r0 eq_refl E0) as [->| ->]; [assumption|].
    now apply well_formed_create_top. }
  destruct (Bucket_CreateBucketIfNotExists_ok [] _ (root d) (root d) h r0
              eq_refl E0) as (K & -> & b0 & ub0 & Hb0 & Hu0 & _).
  injection Hb0 as <-. cbn [app Store.CreateBuckets_loop].
  assert (Hat0 : bucket_at r0 [bytes_of_string u] = Some ub0)
    by now apply bucket_at_one.
  destruct child_names_distinct as (_ & N2 & N3).
  unfold tx_bind at 1.
  destruct (Bucket_CreateBucketIfNotExists (Some [bytes_of_string u])
              downloadItemsBucket r0) as [[[h1 [e|]] r1]|] eqn:E1;
    try discriminate.
  assert (W1 : well_formed_root r1).
  { destruct (Bucket_CreateBucketIfNotExists_root _ _ r0 ub0 _ r1 Hat0 E1)
      as [->| ->]; [assumption|].
    apply well_formed_update; [assumption|].
    intros ub G. cbn [bucket_update]. now apply good_put_child. }
  destruct (Bucket_CreateBucketIfNotExists_ok _ _ r0 ub0 h1 r1 Hat0 E1)
    as (_ & _ & ub1 & dl & Hat1 & _ & _).
  unfold tx_bind at 1.
  destruct (Bucket_CreateBucketIfNotExists (Some [bytes_of_string u])
              watchedTorrentsBucket r1) as [[[h2 [e|]] r2]|] eqn:E2;
    try discriminate.
  assert (W2 : well_formed_root r2).
  { destruct (Bucket_CreateBucketIfNotExists_root _ _ r1 ub1 _ r2 Hat1 E2)
      as [->| ->]; [assumption|].
    apply well_formed_update; [assumption|].
    intros ub G. cbn [bucket_update]. apply good_put_child; [assumption|].
    intros Q. symmetry in Q. contradiction. }
  unfold tx_ret. destruct (commit_err d); [discriminate|].
  intros [= <-]. exact W2.
Qed.

Lemma Close_well_formed (s s' : Store) (e : option goerror) :
  well_formed s -> Store.Close s = Returns (e, s') -> well_formed s'.
Proof.
  unfold Store.Close, well_formed.
  destruct (db s) as [d|]; [|discriminate].
  unfold DB_Close. destruct (opened d); cbn [negb];
    intros W [= _ <-]; exact W.
Qed.

Lemma Open_well_formed (h : Host) (s s' : Store) (e : option goerror) :
  sound_host h -> well_formed s -> Store.Open h s = Returns (e, s') ->
  well_formed s'.
Proof.
  intros Hh W. unfold Store.Open.
  destruct (bolt_Open h (path s)) as [err|d] eqn:Hopen.
  { intros [= _ <-]. exact W. }
  apply Hh in Hopen.
  destruct (Store.db_Update {| path := path s; db := Some d |}
              ('(_, err) <- tx_CreateBucketIfNotExists defaultsBucket;;
               tx_ret err)) as [[[e1|] s1]|] eqn:U; try discriminate.
  - apply db_Update_error in U. subst s1. cbn [db path].
    unfold DB_Close. destruct (opened d); cbn [negb];
      intros [= _ <-]; exact Hopen.
  - intros [= _ <-]. revert U. unfold Store.db_Update. cbn [db path].
    unfold DB_Update. destruct (opened d); [|discriminate].
    cbn [negb]. unfold tx_bind, tx_CreateBucketIfNotExists.
    destruct (Bucket_CreateBucketIfNotExists (Some []) defaultsBucket
                (root d)) as [[[hd err] r0]|] eqn:E0; [|discriminate].
    unfold tx_ret. destruct err; [discriminate|].
    destruct (commit_err d); [discriminate|]. intros [= <-].
    unfold well_formed. cbn [db root set_root].
    destruct (Bucket_CreateBucketIfNotExists_root [] _ (root d) (root d)
                _ r0 eq_refl E0) as [->| ->]; [assumption|].
    now apply well_formed_create_top.
Qed.

(** Every store a program reaches keeps the layout. *)
Lemma reachable_well_formed (h : Host) (s : Store) :
  sound_host h -> reachable h s -> well_formed s.
Proof.
  intros Hh R. induction R as [p|s s' c e R IH Hc]; [exact I|].
  destruct c; cbn [run_call] in Hc.
  - now apply (Open_well_formed h s s' e).
  - now apply (Close_well_formed s s' e).
  - now apply (CreateBuckets_well_formed forUser s s' e).
  - now apply (SaveState_well_formed state forUser s s' e).
  - now apply (SaveConfig_well_formed cfg forUser s s' e).
  - now apply (SaveCurrentUser_well_formed username s s' e).
Qed.

(** On a reachable store, a user for whom [CreateBuckets] succeeded is
    provisioned. *)
Lemma CreateBuckets_provisioned (h : Host) (u : string) (s s' : Store) :
  sound_host h -> reachable h s ->
  Store.CreateBuckets u s = Returns (None, s') ->
  live s' /\ provisioned u s'.
Proof.
  intros Hh R H.
  assert (W : well_formed s').
  { apply (reachable_well_formed h); [assumption|].
    exact (reach_call (CallCreateBuckets u) R H). }
  apply CreateBuckets_establishes in H
    as [L (Hne & ub & dl & wt & Hub & Hfd & Hfw)].
  split; [assumption|]. split; [assumption|].
  exists ub, dl, wt. repeat (split; [assumption|]).
  unfold well_formed in W. unfold user_bucket in Hub.
  destruct (db s') as [d|]; [|discriminate].
  apply bucket_at_one in Hub. destruct (W _ _ Hub) as [Gc Gd].
  split; [now apply Gd | exact Gc].
Qed.

(** The paths of [Config] that fall back to the default configuration:
    the empty user, and a user whose bucket holds no [config] record. *)
Lemma Config_falls_back (h : Host) (u : string) (s : Store) (d : DB)
    (ub : Bucket) :
  Store.Config h "" s = Returns (Store.DefaultConfig h) /\
  (u <> ""%string -> db s = Some d -> opened d = true ->
   bucket_find (bytes_of_string u) (root d) = Some (Nested ub) ->
   bucket_find (bytes_of_string "config") ub = None ->
   Store.Config h u s = Returns (Store.DefaultConfig h)).
Proof.
  split; [reflexivity|]. intros Hne Hd Ho Hu Hc.
  rewrite (Config_run h u s d ub Hne Hd Ho) by now apply bucket_at_one.
  now rewrite Hc.
Qed.

(** C1: for a user without a bucket, that is one for whom [CreateBuckets]
    never ran, [Config] does not reach its fallback: the nil bucket is
    dereferenced and the call panics. *)
Theorem Config_unprovisioned_panics (h : Host) (u : string) (s : Store)
    (d : DB) :
  u <> ""%string -> db s = Some d -> opened d = true ->
  bucket_find (bytes_of_string u) (root d) = None ->
  Store.Config h u s = Panics.
Proof.
  intros Hne Hd Ho Hu.
  unfold Store.Config. apply String.eqb_neq in Hne. rewrite Hne.
  unfold Store.db_View. rewrite Hd.
  unfold DB_View. rewrite Ho. cbn [negb]. unfold tx_bind.
  now rewrite tx_Bucket_root, Hu.
Qed.

(** C4: for a user without a bucket, [SaveState] returns no error value:
    the nil bucket is dereferenced and the call panics. *)
Theorem SaveState_unprovisioned_panics (st : State) (u : string) (s : Store)
    (d : DB) :
  db s = Some d -> opened d = true ->
  bucket_find (bytes_of_string u) (root d) = None ->
  Store.SaveState st u s = Panics.
Proof.
  intros Hd Ho Hu.
  unfold Store.SaveState, Store.db_Update. rewrite Hd.
  unfold DB_Update. rewrite Ho. cbn [negb]. unfold tx_bind.
  now rewrite tx_Bucket_root, Hu.
Qed.

End StoreFacts.

Lemma Bucket_CreateBucketIfNotExists_returns (p : list bytes) (key : bytes)
    (r b : Bucket) :
  bucket_at r p = Some b ->
  exists res r',
    Bucket_CreateBucketIfNotExists (Some p) key r = Returns (res, r').
Proof.
  intros H. destruct (length key =? 0)%nat eqn:K.
  - rewrite (Bucket_CreateBucketIfNotExists_noname p key r b H K). eauto.
  - destruct (bucket_find key b) as [[v|c]|] eqn:E.
    + rewrite (Bucket_CreateBucketIfNotExists_value p key r b v H K E). eauto.
    + rewrite (Bucket_CreateBucketIfNotExists_exists p key r b c H K E). eauto.
    + rewrite (Bucket_CreateBucketIfNotExists_absent p key r b H K E). eauto.
Qed.

(** C3: when the database file opens and the transaction that creates the
    [defaults] bucket fails to commit, [Open] closes the handle and returns
    what closing returned: nil when closing succeeds, so the caller is told
    that the store is open. *)
Theorem Open_loses_provisioning_error (h : Host) (s : Store) (d : DB)
    (e : goerror) :
  bolt_Open h (path s) = inr d ->
  opened d = true -> commit_err d = Some e -> close_err d = None ->
  Store.Open h s =
  Returns (None,
           mkStore (path s)
             (Some (mkDB (root d) false (Some e) None))).
Proof.
  intros Hopen Ho Hc Hclose.
  unfold Store.Open. rewrite Hopen.
  unfold Store.db_Update. cbn [db path].
  unfold DB_Update. rewrite Ho. cbn [negb]. unfold tx_bind.
  unfold tx_CreateBucketIfNotExists.
  destruct (Bucket_CreateBucketIfNotExists_returns [] defaultsBucket
              (root d) (root d) eq_refl) as ([hd err] & r' & ->).
  unfold tx_ret.
  destruct err as [e'|]; [|rewrite Hc]; cbn [db path];
    unfold DB_Close; rewrite Ho; cbn [negb]; rewrite ?Hc, Hclose; reflexivity.
Qed.

(** ** Further facts about the store *)

Section MoreStoreFacts.

Context {gobState : Gob State} {gobConfig : Gob Config}.

(** What the reads compute from the bucket of the user. *)
Lemma State_eval (id : Z) (u : string) (s : Store) (d : DB) :
  db s = Some d -> opened d = true ->
  Store.State id u s =
  match bucket_find (bytes_of_string u) (root d) with
  | Some (Nested ub) =>
      match bucket_find downloadItemsBucket ub with
      | Some (Nested dl) =>
          Returns (match bucket_find (itob id) dl with
                   | Some (Leaf v) =>
                       (fst (gob_decode v zero_State),
                        decode_err (snd (gob_decode v zero_State)))
                   | _ => (zero_State, Some ErrStateNotFound)
                   end)
      | _ => Panics
      end
  | _ => Panics
  end.
Proof.
  intros Hd Ho.
  destruct (bucket_find (bytes_of_string u) (root d)) as [[x|ub]|] eqn:Hu.
  - unfold Store.State, Store.db_View. rewrite Hd. unfold DB_View.
    rewrite Ho. cbn [negb]. unfold tx_bind.
    now rewrite tx_Bucket_root, Hu.
  - destruct (bucket_find downloadItemsBucket ub) as [[x|dl]|] eqn:Hdl.
    + unfold Store.State, Store.db_View. rewrite Hd. unfold DB_View.
      rewrite Ho. cbn [negb]. unfold tx_bind.
      rewrite tx_Bucket_root, Hu.
      rewrite (Bucket_Bucket_at [bytes_of_string u] _ _ ub), Hdl
        by now apply bucket_at_one.
      reflexivity.
    + apply (State_run id u s d dl Hd Ho). apply bucket_at_two. eauto.
    + unfold Store.State, Store.db_View. rewrite Hd. unfold DB_View.
      rewrite Ho. cbn [negb]. unfold tx_bind.
      rewrite tx_Bucket_root, Hu.
      rewrite (Bucket_Bucket_at [bytes_of_string u] _ _ ub), Hdl
        by now apply bucket_at_one.
      reflexivity.
  - unfold Store.State, Store.db_View. rewrite Hd. unfold DB_View.
    rewrite Ho. cbn [negb]. unfold tx_bind.
    now rewrite tx_Bucket_root, Hu.
Qed.

Lemma States_eval (u : string) (s : Store) (d : DB) :
  u <> ""%string -> db s = Some d -> opened d = true ->
  Store.States u s =
  match bucket_find (bytes_of_string u) (root d) with
  | Some (Nested ub) =>
      match bucket_find downloadItemsBucket ub with
      | Some (Nested dl) => Returns (Store.States_loop (cursor_items dl) [])
      | _ => Panics
      end
  | _ => Panics
  end.
Proof.
  intros Hne Hd Ho. pose proof Hne as Hne'. apply String.eqb_neq in Hne'.
  destruct (bucket_find (bytes_of_string u) (root d)) as [[x|ub]|] eqn:Hu.
  - unfold Store.States, Store.db_View. rewrite Hne', Hd. unfold DB_View.
    rewrite Ho. cbn [negb]. unfold tx_bind.
    now rewrite tx_Bucket_root, Hu.
  - destruct (bucket_find downloadItemsBucket ub) as [[x|dl]|] eqn:Hdl.
    + unfold Store.States, Store.db_View. rewrite Hne', Hd. unfold DB_View.
      rewrite Ho. cbn [negb]. unfold tx_bind.
      rewrite tx_Bucket_root, Hu.
      rewrite (Bucket_Bucket_at [bytes_of_string u] _ _ ub), Hdl
        by now apply bucket_at_one.
      reflexivity.
    + apply (States_run u s d dl Hne Hd Ho). apply bucket_at_two. eauto.
    + unfold Store.States, Store.db_View. rewrite Hne', Hd. unfold DB_View.
      rewrite Ho. cbn [negb]. unfold tx_bind.
      rewrite tx_Bucket_root, Hu.
      rewrite (Bucket_Bucket_at [bytes_of_string u] _ _ ub), Hdl
        by now apply bucket_at_one.
      reflexivity.
  - unfold Store.States, Store.db_View. rewrite Hne', Hd. unfold DB_View.
    rewrite Ho. cbn [negb]. unfold tx_bind.
    now rewrite tx_Bucket_root, Hu.
Qed.

Lemma Config_eval (h : Host) (u : string) (s : Store) (d : DB) :
  u <> ""%string -> db s = Some d -> opened d = true ->
  Store.Config h u s =
  match bucket_find (bytes_of_string u) (root d) with
  | Some (Nested ub) =>
      Returns (match bucket_find (bytes_of_string "config") ub with
               | Some (Leaf v) =>
                   (Some (fst (gob_decode v zero_Config)),
                    decode_err (snd (gob_decode v zero_Config)))
               | _ => Store.DefaultConfig h
               end)
  | _ => Panics
  end.
Proof.
  intros Hne Hd Ho. pose proof Hne as Hne'. apply String.eqb_neq in Hne'.
  destruct (bucket_find (bytes_of_string u) (root d)) as [[x|ub]|] eqn:Hu.
  - unfold Store.Config, Store.db_View. rewrite Hne', Hd. unfold DB_View.
    rewrite Ho. cbn [negb]. unfold tx_bind.
    now rewrite tx_Bucket_root, Hu.
  - apply (Config_run h u s d ub Hne Hd Ho). now apply bucket_at_one.
  - unfold Store.Config, Store.db_View. rewrite Hne', Hd. unfold DB_View.
    rewrite Ho. cbn [negb]. unfold tx_bind.
    now rewrite tx_Bucket_root, Hu.
Qed.

(** X1: every key is eight bytes long and denotes, read big-endian, the
    identifier converted to [uint64]; two identifiers in the range of
    [int64] have the same key only when they are equal. *)
Theorem itob_keys_distinct (a b : Z) :
  int64 a -> int64 b ->
  length (itob a) = 8%nat /\
  be_value (itob a) = uint64 a /\
  (itob a = itob b <-> a = b).
Proof.
  intros Ha Hb. split; [apply length_itob|]. split; [apply be_value_itob|].
  split; [now apply itob_inj | now intros ->].
Qed.

(** X2: for a user who has no bucket, fetching a state and listing the
    states dereference the nil bucket and panic, as [SaveState] and [Config]
    do; saving a configuration panics too once the configuration is
    encoded, and returns the encoding error, the store unchanged, when the
    encoding fails. *)
Theorem unprovisioned_user_panics (id : Z) (c : Config) (u : string)
    (s : Store) (d : DB) :
  u <> ""%string -> db s = Some d -> opened d = true ->
  bucket_find (bytes_of_string u) (root d) = None ->
  Store.State id u s = Panics /\
  Store.States u s = Panics /\
  Store.SaveConfig c u s =
  match gob_encode c with
  | inl msg => Returns (Some (Foreign msg), s)
  | inr _ => Panics
  end.
Proof.
  intros Hne Hd Ho Hu. split; [|split].
  - now rewrite (State_eval id u s d Hd Ho), Hu.
  - now rewrite (States_eval u s d Hne Hd Ho), Hu.
  - unfold Store.SaveConfig, Store.db_Update. rewrite Hd.
    unfold DB_Update. rewrite Ho. cbn [negb]. unfold tx_bind.
    rewrite tx_Bucket_root, Hu.
    destruct (gob_encode c); [|reflexivity].
    unfold tx_ret. now rewrite store_eta.
Qed.

End MoreStoreFacts.

Section CurrentUserFacts.

Context {gobState : Gob State} {gobConfig : Gob Config}.

Lemma CurrentUser_eval (s : Store) (d : DB) :
  db s = Some d -> opened d = true ->
  Store.CurrentUser s =
  match bucket_find defaultsBucket (root d) with
  | Some (Nested b) =>
      Returns (string_of_list_byte
                 (match bucket_find (bytes_of_string "current-user") b with
                  | Some (Leaf v) => v
                  | _ => []
                  end), None)
  | _ => Panics
  end.
Proof.
  intros Hd Ho. unfold Store.CurrentUser, Store.db_View. rewrite Hd.
  unfold DB_View. rewrite Ho. cbn [negb]. unfold tx_bind.
  rewrite tx_Bucket_root.
  destruct (bucket_find defaultsBucket (root d)) as [[x|b]|] eqn:Hb;
    try reflexivity.
  rewrite (Bucket_Get_at [defaultsBucket] _ _ b) by now apply bucket_at_one.
  now destruct (bucket_find (bytes_of_string "current-user") b) as [[v|c]|].
Qed.

Lemma SaveCurrentUser_run (name : string) (s : Store) (d : DB) (b : Bucket) :
  db s = Some d -> opened d = true -> commit_err d = None ->
  bucket_find defaultsBucket (root d) = Some (Nested b) ->
  (forall c, bucket_find (bytes_of_string "current-user") b
             <> Some (Nested c)) ->
  Z.of_nat (length (bytes_of_string name)) <= MaxValueSize ->
  Store.SaveCurrentUser name s =
  Returns (None,
           mkStore (path s)
             (Some (set_root d
                      (bucket_insert defaultsBucket
                         (Nested
                            (bucket_insert (bytes_of_string "current-user")
                               (Leaf (bytes_of_string name)) b))
                         (root d))))).
Proof.
  intros Hd Ho Hc Hb Hn Hv.
  unfold Store.SaveCurrentUser, Store.db_Update. rewrite Hd.
  unfold DB_Update. rewrite Ho. cbn [negb]. unfold tx_bind.
  rewrite tx_Bucket_root, Hb.
  rewrite (Bucket_Put_at [defaultsBucket] _ _ _ b);
    [ | now apply bucket_at_one | reflexivity | now vm_compute
      | assumption | assumption ].
  cbn [bucket_update]. now rewrite Hb, Hc.
Qed.

(** X3: opening a database file that holds no bucket yet succeeds, and the
    current user read from the store just opened is the empty string, with
    no error. *)
Theorem CurrentUser_first_run (h : Host) (s : Store) (d : DB) :
  bolt_Open h (path s) = inr d ->
  root d = [] -> opened d = true -> commit_err d = None ->
  exists s',
    Store.Open h s = Returns (None, s') /\
    Store.CurrentUser s' = Returns (""%string, None).
Proof.
  intros Hopen Hr Ho Hc.
  exists (mkStore (path s)
            (Some (set_root d [(defaultsBucket, Nested [])]))).
  split.
  - unfold Store.Open. rewrite Hopen.
    unfold Store.db_Update. cbn [db path].
    unfold DB_Update. rewrite Ho. cbn [negb]. unfold tx_bind.
    unfold tx_CreateBucketIfNotExists.
    rewrite (Bucket_CreateBucketIfNotExists_absent [] defaultsBucket
               (root d) (root d) eq_refl eq_refl)
      by now rewrite Hr.
    unfold tx_ret. rewrite Hc, Hr. reflexivity.
  - now rewrite (CurrentUser_eval
                   (mkStore (path s)
                      (Some (set_root d [(defaultsBucket, Nested [])])))
                   (set_root d [(defaultsBucket, Nested [])]) eq_refl Ho).
Qed.

(** X4: on an open store with its [defaults] bucket, saving the current
    user and reading it back returns the name saved, and a later save
    replaces it: no history is kept. *)
Theorem SaveCurrentUser_then_CurrentUser (name name2 : string) (s : Store)
    (d : DB) (b : Bucket) :
  db s = Some d -> opened d = true -> commit_err d = None ->
  bucket_find defaultsBucket (root d) = Some (Nested b) ->
  (forall c, bucket_find (bytes_of_string "current-user") b
             <> Some (Nested c)) ->
  Z.of_nat (length (bytes_of_string name)) <= MaxValueSize ->
  Z.of_nat (length (bytes_of_string name2)) <= MaxValueSize ->
  exists s' s'',
    Store.SaveCurrentUser name s = Returns (None, s') /\
    Store.CurrentUser s' = Returns (name, None) /\
    Store.SaveCurrentUser name2 s' = Returns (None, s'') /\
    Store.CurrentUser s'' = Returns (name2, None).
Proof.
  intros Hd Ho Hc Hb Hn Hv Hv2.
  set (cu := bytes_of_string "current-user") in *.
  set (b1 := bucket_insert cu (Leaf (bytes_of_string name)) b).
  set (d1 := set_root d (bucket_insert defaultsBucket (Nested b1) (root d))).
  set (b2 := bucket_insert cu (Leaf (bytes_of_string name2)) b1).
  set (d2 := set_root d1 (bucket_insert defaultsBucket (Nested b2) (root d1))).
  assert (Hb1 : bucket_find defaultsBucket (root d1) = Some (Nested b1))
    by apply bucket_find_insert_eq.
  assert (Hb2 : bucket_find defaultsBucket (root d2) = Some (Nested b2))
    by apply bucket_find_insert_eq.
  assert (Hn1 : forall c, bucket_find cu b1 <> Some (Nested c)).
  { intros c. unfold b1. rewrite bucket_find_insert_eq. discriminate. }
  exists (mkStore (path s) (Some d1)), (mkStore (path s) (Some d2)).
  split; [exact (SaveCurrentUser_run name s d b Hd Ho Hc Hb Hn Hv)|].
  split.
  - rewrite (CurrentUser_eval (mkStore (path s) (Some d1)) d1 eq_refl Ho),
      Hb1. unfold b1.
    fold cu. rewrite bucket_find_insert_eq.
    unfold bytes_of_string. now rewrite string_of_list_byte_of_string.
  - split.
    + exact (SaveCurrentUser_run name2 (mkStore (path s) (Some d1)) d1 b1
               eq_refl Ho Hc Hb1 Hn1 Hv2).
    + rewrite (CurrentUser_eval (mkStore (path s) (Some d2)) d2 eq_refl Ho),
        Hb2. unfold b2.
      fold cu. rewrite bucket_find_insert_eq.
      unfold bytes_of_string. now rewrite string_of_list_byte_of_string.
Qed.

(** X5: closing an open store returns what closing the file returned;
    afterwards a second [Close] returns nil, every write returns
    [ErrDatabaseNotOpen] and leaves the store as it is, and every read
    returns that error with a zero value. Nothing panics. *)
Theorem calls_after_Close (h : Host) (s : Store) (d : DB) (st : State)
    (c : Config) (id : Z) (u name : string) :
  db s = Some d -> opened d = true -> u <> ""%string ->
  exists s',
    Store.Close s = Returns (close_err d, s') /\
    Store.Close s' = Returns (None, s') /\
    Store.CreateBuckets u s' = Returns (Some ErrDatabaseNotOpen, s') /\
    Store.SaveState st u s' = Returns (Some ErrDatabaseNotOpen, s') /\
    Store.SaveConfig c u s' = Returns (Some ErrDatabaseNotOpen, s') /\
    Store.SaveCurrentUser name s'
      = Returns (Some ErrDatabaseNotOpen, s') /\
    Store.State id u s'
      = Returns (zero_State, Some ErrDatabaseNotOpen) /\
    Store.States u s' = Returns ([], Some ErrDatabaseNotOpen) /\
    Store.Config h u s'
      = Returns (Some zero_Config, Some ErrDatabaseNotOpen) /\
    Store.CurrentUser s' = Returns (""%string, Some ErrDatabaseNotOpen).
Proof.
  intros Hd Ho Hne. apply String.eqb_neq in Hne.
  exists (mkStore (path s)
            (Some (mkDB (root d) false (commit_err d) (close_err d)))).
  split.
  { unfold Store.Close. rewrite Hd. unfold DB_Close. now rewrite Ho. }
  unfold Store.Close, Store.CreateBuckets, Store.SaveState, Store.SaveConfig,
    Store.SaveCurrentUser, Store.State, Store.States, Store.Config,
    Store.CurrentUser, Store.db_Update, Store.db_View, DB_Update, DB_View,
    DB_Close.
  rewrite Hne. cbn [db opened negb path].
  repeat split; reflexivity.
Qed.

Lemma SaveState_written (st : State) (u : string) (s s' : Store) :
  Store.SaveState st u s = Returns (None, s') ->
  written (CallSaveState st u) s'.
Proof.
  unfold Store.SaveState, Store.db_Update.
  destruct (db s) as [d|] eqn:Hd; [|discriminate].
  unfold DB_Update. destruct (opened d) eqn:Ho; [|discriminate].
  cbn [negb]. unfold tx_bind. rewrite tx_Bucket_root.
  destruct (bucket_find (bytes_of_string u) (root d)) as [[x|ub]|] eqn:Hu;
    try discriminate.
  rewrite (Bucket_Bucket_at [bytes_of_string u] _ _ ub)
    by now apply bucket_at_one.
  destruct (bucket_find downloadItemsBucket ub) as [[x|dl]|] eqn:Hdl;
    cbn [app]; destruct (gob_encode st) as [msg|val] eqn:He;
    try discriminate.
  unfold Bucket_Put, with_bucket.
  assert (Hat : bucket_at (root d) [bytes_of_string u; downloadItemsBucket]
                = Some dl) by (apply bucket_at_two; eauto).
  rewrite Hat.
  destruct (length (itob (FileID st)) =? 0)%nat; [discriminate|].
  destruct (Z.of_nat (length (itob (FileID st))) >? MaxKeySize);
    [discriminate|].
  destruct (Z.of_nat (length val) >? MaxValueSize); [discriminate|].
  destruct (bucket_find (itob (FileID st)) dl) as [[x|c]|];
    try discriminate;
    (destruct (commit_err d) eqn:Hc; [discriminate|]);
    intros [= <-];
    exists (bucket_insert (itob (FileID st)) (Leaf val) dl), val;
    cbn [written]; rewrite He;
    (split; [reflexivity|]);
    (split; [exact (bucket_at_update _ _ _ _ Hat)
            | apply bucket_find_insert_eq]).
Qed.

Lemma SaveConfig_written (c : Config) (u : string) (s s' : Store) :
  Store.SaveConfig c u s = Returns (None, s') ->
  written (CallSaveConfig c u) s'.
Proof.
  unfold Store.SaveConfig, Store.db_Update.
  destruct (db s) as [d|] eqn:Hd; [|discriminate].
  unfold DB_Update. destruct (opened d) eqn:Ho; [|discriminate].
  cbn [negb]. unfold tx_bind. rewrite tx_Bucket_root.
  destruct (bucket_find (bytes_of_string u) (root d)) as [[x|ub]|] eqn:Hu;
    destruct (gob_encode c) as [msg|val] eqn:He; try discriminate.
  unfold Bucket_Put, with_bucket.
  assert (Hat : bucket_at (root d) [bytes_of_string u] = Some ub)
    by now apply bucket_at_one.
  rewrite Hat.
  destruct (length (bytes_of_string "config") =? 0)%nat; [discriminate|].
  destruct (Z.of_nat (length (bytes_of_string "config")) >? MaxKeySize);
    [discriminate|].
  destruct (Z.of_nat (length val) >? MaxValueSize); [discriminate|].
  destruct (bucket_find (bytes_of_string "config") ub) as [[x|b]|];
    try discriminate;
    (destruct (commit_err d) eqn:Hc; [discriminate|]);
    intros [= <-];
    exists (bucket_insert (bytes_of_string "config") (Leaf val) ub), val;
    cbn [written]; rewrite He;
    (split; [reflexivity|]);
    (split; [exact (bucket_at_update _ _ _ _ Hat)
            | apply bucket_find_insert_eq]).
Qed.

Lemma SaveCurrentUser_written (name : string) (s s' : Store) :
  Store.SaveCurrentUser name s = Returns (None, s') ->
  Store.CurrentUser s' = Returns (name, None).
Proof.
  intros H. pose proof H as H'.
  apply SaveCurrentUser_success in H' as (d & Hd & ->).
  unfold Store.SaveCurrentUser, Store.db_Update in H. rewrite Hd in H.
  unfold DB_Update in H. destruct (opened d) eqn:Ho; [|discriminate].
  cbn [negb] in H. unfold tx_bind in H. rewrite tx_Bucket_root in H.
  destruct (bucket_find defaultsBucket (root d)) as [[x|ub]|] eqn:Hu;
    try discriminate.
  clear H.
  set (f := bucket_insert (bytes_of_string "current-user")
              (Leaf (bytes_of_string name))).
  set (d' := set_root d (bucket_update (root d) [defaultsBucket] f)).
  rewrite (CurrentUser_eval (mkStore (path s) (Some d')) d' eq_refl Ho).
  unfold d'. cbn [root set_root bucket_update]. rewrite Hu. unfold f.
  rewrite bucket_find_insert_eq. cbn [bucket_update].
  rewrite bucket_find_insert_eq.
  unfold bytes_of_string. now rewrite string_of_list_byte_of_string.
Qed.

(** X6: a write is all or nothing. A call of [CreateBuckets], [SaveState],
    [SaveConfig] or [SaveCurrentUser] that returns an error leaves the
    store as it was, and one that returns nil has done all of its work.
    In particular [CreateBuckets] leaves no bucket behind when it fails
    after creating some: when the commit fails after the three buckets of
    a new user were created, and when the second child bucket cannot be
    created after the first one was. *)
Theorem writes_all_or_nothing (h : Host) (s : Store) (d : DB) :
  db s = Some d -> opened d = true ->
  (forall c s' e,
     c <> CallOpen -> c <> CallClose ->
     run_call h c s = Returns (e, s') ->
     match e with
     | Some _ => s' = s
     | None => written c s'
     end) /\
  (forall u e,
     commit_err d = Some e -> u <> ""%string ->
     bucket_find (bytes_of_string u) (root d) = None ->
     Store.CreateBuckets u s = Returns (Some e, s)) /\
  (forall u ub v,
     u <> ""%string ->
     bucket_find (bytes_of_string u) (root d) = Some (Nested ub) ->
     bucket_find downloadItemsBucket ub = None ->
     bucket_find watchedTorrentsBucket ub = Some (Leaf v) ->
     Store.CreateBuckets u s = Returns (Some ErrIncompatibleValue, s)).
Proof.
  intros Hd Ho. split; [|split].
  - intros c s' e NO NC H.
    destruct c; try contradiction; cbn [run_call] in H;
      (destruct e as [e|]; [now apply db_Update_error in H|]).
    + exact (proj2 (CreateBuckets_establishes _ _ _ H)).
    + exact (SaveState_written _ _ _ _ H).
    + exact (SaveConfig_written _ _ _ _ H).
    + exact (SaveCurrentUser_written _ _ _ H).
  - intros u e Hc Hne Hu.
    pose proof (bytes_of_string_nonempty u Hne) as K.
    set (ku := bytes_of_string u) in *.
    set (r0 := bucket_insert ku (Nested []) (root d)).
    assert (Hat0 : bucket_at r0 [ku] = Some []).
    { apply bucket_at_one. apply bucket_find_insert_eq. }
    set (f1 := bucket_insert downloadItemsBucket (Nested [])).
    set (r1 := bucket_update r0 [ku] f1).
    assert (Hat1 : bucket_at r1 [ku] = Some (f1 []))
      by now apply bucket_at_update.
    unfold Store.CreateBuckets, Store.db_Update. rewrite Hd.
    unfold DB_Update. rewrite Ho. cbn [negb]. unfold tx_bind at 1.
    unfold tx_CreateBucketIfNotExists. fold ku.
    rewrite (Bucket_CreateBucketIfNotExists_absent [] ku (root d) (root d)
               eq_refl K Hu).
    cbn [app Store.CreateBuckets_loop bucket_update]. fold r0.
    unfold tx_bind.
    rewrite (Bucket_CreateBucketIfNotExists_absent [ku] downloadItemsBucket
               r0 [] Hat0 eq_refl eq_refl).
    fold f1. fold r1.
    rewrite (Bucket_CreateBucketIfNotExists_absent [ku] watchedTorrentsBucket
               r1 (f1 []) Hat1 eq_refl eq_refl).
    unfold tx_ret. rewrite Hc. now rewrite store_eta.
  - intros u ub v Hne Hu Hdl Hwt.
    pose proof (bytes_of_string_nonempty u Hne) as K.
    set (ku := bytes_of_string u) in *.
    assert (Hat0 : bucket_at (root d) [ku] = Some ub)
      by now apply bucket_at_one.
    set (f1 := bucket_insert downloadItemsBucket (Nested [])).
    set (r1 := bucket_update (root d) [ku] f1).
    assert (Hat1 : bucket_at r1 [ku] = Some (f1 ub))
      by now apply bucket_at_update.
    assert (Hwt1 : bucket_find watchedTorrentsBucket (f1 ub) = Some (Leaf v)).
    { unfold f1. rewrite bucket_find_insert_neq; [assumption|].
      apply child_names_distinct. }
    unfold Store.CreateBuckets, Store.db_Update. rewrite Hd.
    unfold DB_Update. rewrite Ho. cbn [negb]. unfold tx_bind at 1.
    unfold tx_CreateBucketIfNotExists. fold ku.
    rewrite (Bucket_CreateBucketIfNotExists_exists [] ku (root d) (root d) ub
               eq_refl K Hu).
    cbn [app Store.CreateBuckets_loop]. unfold tx_bind.
    rewrite (Bucket_CreateBucketIfNotExists_absent [ku] downloadItemsBucket
               (root d) ub Hat0 eq_refl Hdl).
    fold f1. fold r1.
    rewrite (Bucket_CreateBucketIfNotExists_value [ku] watchedTorrentsBucket
               r1 (f1 ub) v Hat1 eq_refl Hwt1).
    unfold tx_ret. now rewrite store_eta.
Qed.

(** X7: the empty user identifier cannot be provisioned: on an open store
    [CreateBuckets] of the empty string returns bolt's
    [ErrBucketNameRequired] and leaves the store unchanged. *)
Theorem CreateBuckets_empty_user (s : Store) (d : DB) :
  db s = Some d -> opened d = true ->
  Store.CreateBuckets "" s = Returns (Some ErrBucketNameRequired, s).
Proof.
  intros Hd Ho. unfold Store.CreateBuckets, Store.db_Update. rewrite Hd.
  unfold DB_Update. rewrite Ho. cbn [negb]. unfold tx_bind.
  unfold tx_CreateBucketIfNotExists.
  rewrite (Bucket_CreateBucketIfNotExists_noname [] (bytes_of_string "")
             (root d) (root d) eq_refl eq_refl).
  unfold tx_ret. now rewrite store_eta.
Qed.

End CurrentUserFacts.

Section FrameFacts.

Context {gobState : Gob State} {gobConfig : Gob Config}.

Lemma bytes_of_string_inj (a b : string) :
  bytes_of_string a = bytes_of_string b -> a = b.
Proof.
  unfold bytes_of_string. intros H.
  rewrite <- (string_of_list_byte_of_string a),
          <- (string_of_list_byte_of_string b).
  now rewrite H.
Qed.

(** The entry under a key after an update below the key [kv]. *)
Lemma bucket_find_update (r : Bucket) (kv ku : bytes) (p : list bytes)
    (f : Bucket -> Bucket) :
  bucket_find ku (bucket_update r (kv :: p) f) =
  match bucket_find ku r with
  | Some (Nested b) =>
      if bytes_eqb kv ku then Some (Nested (bucket_update b p f))
      else Some (Nested b)
  | x => x
  end.
Proof.
  cbn [bucket_update]. destruct (bytes_eqb kv ku) eqn:E.
  - apply bytes_eqb_eq in E. subst ku.
    destruct (bucket_find kv r) as [[x|b]|] eqn:F; rewrite ?F; try reflexivity.
    apply bucket_find_insert_eq.
  - apply bytes_eqb_neq in E.
    destruct (bucket_find kv r) as [[x|b]|] eqn:F;
      rewrite ?bucket_find_insert_neq by assumption;
      now destruct (bucket_find ku r) as [[y|c]|].
Qed.

Lemma bucket_find_update_other (r : Bucket) (kv ku : bytes) (p : list bytes)
    (f : Bucket -> Bucket) :
  kv <> ku ->
  bucket_find ku (bucket_update r (kv :: p) f) = bucket_find ku r.
Proof.
  intros N. rewrite bucket_find_update. apply bytes_eqb_neq in N.
  rewrite N. now destruct (bucket_find ku r) as [[y|c]|].
Qed.

(** Reads of a store depend on the handle being open and on the bucket of
    the user only: the states on its [download-items] entry, the
    configuration on its [config] entry. *)
Lemma states_agree (id : Z) (u : string) (s s' : Store) (d d' : DB) :
  db s = Some d -> db s' = Some d' ->
  opened d = true -> opened d' = true ->
  (bucket_find (bytes_of_string u) (root d') =
   bucket_find (bytes_of_string u) (root d) \/
   exists ub ub',
     bucket_find (bytes_of_string u) (root d) = Some (Nested ub) /\
     bucket_find (bytes_of_string u) (root d') = Some (Nested ub') /\
     bucket_find downloadItemsBucket ub'
       = bucket_find downloadItemsBucket ub) ->
  Store.State id u s' = Store.State id u s /\
  Store.States u s' = Store.States u s.
Proof.
  intros Hd Hd' Ho Ho' H.
  rewrite (State_eval id u s d Hd Ho), (State_eval id u s' d' Hd' Ho').
  destruct (String.eqb_spec u "") as [->|Hne].
  { split; [|reflexivity].
    destruct H as [->|(ub & ub' & -> & -> & ->)]; reflexivity. }
  rewrite (States_eval u s d Hne Hd Ho), (States_eval u s' d' Hne Hd' Ho').
  destruct H as [->|(ub & ub' & -> & -> & ->)]; auto.
Qed.

Lemma config_agrees (h : Host) (u : string) (s s' : Store) (d d' : DB) :
  db s = Some d -> db s' = Some d' ->
  opened d = true -> opened d' = true ->
  (bucket_find (bytes_of_string u) (root d') =
   bucket_find (bytes_of_string u) (root d) \/
   exists ub ub',
     bucket_find (bytes_of_string u) (root d) = Some (Nested ub) /\
     bucket_find (bytes_of_string u) (root d') = Some (Nested ub') /\
     bucket_find (bytes_of_string "config") ub'
       = bucket_find (bytes_of_string "config") ub) ->
  Store.Config h u s' = Store.Config h u s.
Proof.
  intros Hd Hd' Ho Ho' H.
  destruct (String.eqb_spec u "") as [->|Hne]; [reflexivity|].
  rewrite (Config_eval h u s d Hne Hd Ho), (Config_eval h u s' d' Hne Hd' Ho').
  destruct H as [->|(ub & ub' & -> & -> & ->)]; auto.
Qed.

Lemma current_user_agrees (s s' : Store) (d d' : DB) :
  db s = Some d -> db s' = Some d' ->
  opened d = true -> opened d' = true ->
  (bucket_find defaultsBucket (root d') = bucket_find defaultsBucket (root d) \/
   exists b b',
     bucket_find defaultsBucket (root d) = Some (Nested b) /\
     bucket_find defaultsBucket (root d') = Some (Nested b') /\
     bucket_find (bytes_of_string "current-user") b'
       = bucket_find (bytes_of_string "current-user") b) ->
  Store.CurrentUser s' = Store.CurrentUser s.
Proof.
  intros Hd Hd' Ho Ho' H.
  rewrite (CurrentUser_eval s d Hd Ho), (CurrentUser_eval s' d' Hd' Ho').
  destruct H as [->|(b & b' & -> & -> & ->)]; auto.
Qed.

(** The bucket under the key [ku] after an update below [kv]: the same, or
    the bucket updated, a key [k] of which is as before when the update
    does not go through it. *)
Lemma bucket_find_update_frame (r : Bucket) (kv ku k k0 : bytes)
    (p : list bytes) (f : Bucket -> Bucket) :
  k0 <> k ->
  bucket_find ku (bucket_update r (kv :: k0 :: p) f) = bucket_find ku r \/
  exists ub ub',
    bucket_find ku r = Some (Nested ub) /\
    bucket_find ku (bucket_update r (kv :: k0 :: p) f) = Some (Nested ub') /\
    bucket_find k ub' = bucket_find k ub.
Proof.
  intros N. rewrite bucket_find_update.
  destruct (bucket_find ku r) as [[x|ub]|] eqn:E; try (left; reflexivity).
  destruct (bytes_eqb kv ku); [|left; reflexivity].
  right. exists ub, (bucket_update ub (k0 :: p) f).
  split; [reflexivity|]. split; [reflexivity|].
  now apply bucket_find_update_other.
Qed.

(** The same for an update of the bucket [kv] itself that puts the key
    [k0]. *)
Lemma bucket_find_put_frame (r : Bucket) (kv ku k k0 : bytes) (n : node) :
  k0 <> k ->
  bucket_find ku (bucket_update r [kv] (bucket_insert k0 n)) = bucket_find ku r \/
  exists ub ub',
    bucket_find ku r = Some (Nested ub) /\
    bucket_find ku (bucket_update r [kv] (bucket_insert k0 n))
      = Some (Nested ub') /\
    bucket_find k ub' = bucket_find k ub.
Proof.
  intros N. rewrite bucket_find_update.
  destruct (bucket_find ku r) as [[x|ub]|] eqn:E; try (left; reflexivity).
  destruct (bytes_eqb kv ku); [|left; reflexivity].
  right. exists ub, (bucket_insert k0 n ub).
  split; [reflexivity|]. split; [reflexivity|].
  now apply bucket_find_insert_neq.
Qed.

(** X8: a successful [SaveState] changes the answer of no other read: the
    states of the other users and the other identifiers of the same user
    are fetched as before, the listings of the other users, every
    configuration and the current user are as before. *)
Theorem SaveState_touches_one_record (st : State) (v : string)
    (s s' : Store) :
  Store.SaveState st v s = Returns (None, s') ->
  (forall id u,
     u <> v \/ itob id <> itob (FileID st) ->
     Store.State id u s' = Store.State id u s) /\
  (forall u, u <> v -> Store.States u s' = Store.States u s) /\
  (forall h u, Store.Config h u s' = Store.Config h u s) /\
  Store.CurrentUser s' = Store.CurrentUser s.
Proof.
  intros H. apply SaveState_success in H as (d & val & Hd & Ho & Hc & ->).
  set (f := bucket_insert (itob (FileID st)) (Leaf val)).
  set (r' := bucket_update (root d) [bytes_of_string v; downloadItemsBucket] f).
  set (s' := mkStore (path s) (Some (set_root d r'))).
  assert (Hd' : db s' = Some (set_root d r')) by reflexivity.
  assert (Ho' : opened (set_root d r') = true) by exact Ho.
  destruct child_names_distinct as (N1 & N2 & N3).
  assert (Other : forall u, u <> v ->
            bucket_find (bytes_of_string u) r'
            = bucket_find (bytes_of_string u) (root d)).
  { intros u Hu. apply bucket_find_update_other.
    intros E. apply bytes_of_string_inj in E. congruence. }
  split; [|split; [|split]].
  - intros id u [Hu|Hid].
    + apply (states_agree id u s s' d _ Hd Hd' Ho Ho').
      left. now apply Other.
    + rewrite (State_eval id u s d Hd Ho), (State_eval id u s' _ Hd' Ho').
      cbn [root set_root]. unfold r'. rewrite bucket_find_update.
      destruct (bucket_find (bytes_of_string u) (root d)) as [[x|ub]|];
        try reflexivity.
      destruct (bytes_eqb (bytes_of_string v) (bytes_of_string u));
        [|reflexivity].
      rewrite bucket_find_update, bytes_eqb_refl.
      destruct (bucket_find downloadItemsBucket ub) as [[x|dl]|];
        try reflexivity.
      cbn [bucket_update]. unfold f.
      rewrite bucket_find_insert_neq by congruence. reflexivity.
  - intros u Hu.
    apply (states_agree 0 u s s' d _ Hd Hd' Ho Ho').
    left. now apply Other.
  - intros h u.
    apply (config_agrees h u s s' d _ Hd Hd' Ho Ho').
    cbn [root set_root]. unfold r'. now apply bucket_find_update_frame.
  - apply (current_user_agrees s s' d _ Hd Hd' Ho Ho').
    cbn [root set_root]. unfold r'. apply bucket_find_update_frame.
    discriminate.
Qed.

(** X9: a successful [SaveConfig] changes the answer of no other read: every
    state and every listing, the configurations of the other users and the
    current user are as before. *)
Theorem SaveConfig_touches_one_record (c : Config) (v : string)
    (s s' : Store) :
  Store.SaveConfig c v s = Returns (None, s') ->
  (forall id u, Store.State id u s' = Store.State id u s) /\
  (forall u, Store.States u s' = Store.States u s) /\
  (forall h u, u <> v -> Store.Config h u s' = Store.Config h u s) /\
  Store.CurrentUser s' = Store.CurrentUser s.
Proof.
  intros H. apply SaveConfig_success in H as (d & val & Hd & Ho & Hc & ->).
  set (r' := bucket_update (root d) [bytes_of_string v]
               (bucket_insert (bytes_of_string "config") (Leaf val))).
  set (s' := mkStore (path s) (Some (set_root d r'))).
  assert (Hd' : db s' = Some (set_root d r')) by reflexivity.
  assert (Ho' : opened (set_root d r') = true) by exact Ho.
  destruct child_names_distinct as (N1 & N2 & N3).
  assert (St : forall id u,
            Store.State id u s' = Store.State id u s /\
            Store.States u s' = Store.States u s).
  { intros id u. apply (states_agree id u s s' d _ Hd Hd' Ho Ho').
    cbn [root set_root]. unfold r'. apply bucket_find_put_frame. congruence. }
  split; [intros id u; apply St|]. split; [intros u; apply (St 0 u)|]. split.
  - intros h u Hu. apply (config_agrees h u s s' d _ Hd Hd' Ho Ho').
    left. apply bucket_find_update_other.
    intros E. apply bytes_of_string_inj in E. congruence.
  - apply (current_user_agrees s s' d _ Hd Hd' Ho Ho').
    cbn [root set_root]. unfold r'. apply bucket_find_put_frame.
    discriminate.
Qed.

(** X10: a successful [SaveCurrentUser] changes no state, no listing and no
    configuration of any user, the user named [defaults] included. *)
Theorem SaveCurrentUser_touches_one_key (name : string) (s s' : Store) :
  Store.SaveCurrentUser name s = Returns (None, s') ->
  (forall id u, Store.State id u s' = Store.State id u s) /\
  (forall u, Store.States u s' = Store.States u s) /\
  (forall h u, Store.Config h u s' = Store.Config h u s).
Proof.
  intros H. pose proof H as H'.
  apply SaveCurrentUser_success in H as (d & Hd & ->).
  assert (Ho : opened d = true).
  { revert H'. unfold Store.SaveCurrentUser, Store.db_Update. rewrite Hd.
    unfold DB_Update. destruct (opened d); [reflexivity|discriminate]. }
  set (r' := bucket_update (root d) [defaultsBucket]
               (bucket_insert (bytes_of_string "current-user")
                  (Leaf (bytes_of_string name)))).
  set (s' := mkStore (path s) (Some (set_root d r'))).
  assert (Hd' : db s' = Some (set_root d r')) by reflexivity.
  assert (Ho' : opened (set_root d r') = true) by exact Ho.
  assert (St : forall id u,
            Store.State id u s' = Store.State id u s /\
            Store.States u s' = Store.States u s).
  { intros id u. apply (states_agree id u s s' d _ Hd Hd' Ho Ho').
    cbn [root set_root]. unfold r'. apply bucket_find_put_frame.
    discriminate. }
  split; [intros id u; apply St|]. split; [intros u; apply (St 0 u)|].
  intros h u. apply (config_agrees h u s s' d _ Hd Hd' Ho Ho').
  cbn [root set_root]. unfold r'. apply bucket_find_put_frame. discriminate.
Qed.

End FrameFacts.

Section ProvisioningFacts.

Context {gobState : Gob State} {gobConfig : Gob Config}.

(** X11: when the database file opens and the transaction commits, [Open]
    returns nil and the store is open with a [defaults] bucket; the other
    buckets of the file are as they were, and a file that had the bucket
    already is not changed at all. *)
Theorem Open_provisions_defaults (h : Host) (s : Store) (d : DB) :
  bolt_Open h (path s) = inr d ->
  opened d = true -> commit_err d = None ->
  (forall v, bucket_find defaultsBucket (root d) <> Some (Leaf v)) ->
  exists d',
    Store.Open h s = Returns (None, mkStore (path s) (Some d')) /\
    opened d' = true /\ commit_err d' = None /\ close_err d' = close_err d /\
    (exists b, bucket_find defaultsBucket (root d') = Some (Nested b)) /\
    (forall k, k <> defaultsBucket ->
               bucket_find k (root d') = bucket_find k (root d)) /\
    (forall b, bucket_find defaultsBucket (root d) = Some (Nested b) ->
               d' = d).
Proof.
  intros Hopen Ho Hc Hv.
  destruct (bucket_find defaultsBucket (root d)) as [[x|b]|] eqn:E.
  - now elim (Hv x).
  - exists d. split.
    + unfold Store.Open. rewrite Hopen.
      unfold Store.db_Update. cbn [db path].
      unfold DB_Update. rewrite Ho. cbn [negb]. unfold tx_bind.
      unfold tx_CreateBucketIfNotExists.
      rewrite (Bucket_CreateBucketIfNotExists_exists [] defaultsBucket
                 (root d) (root d) b eq_refl eq_refl E).
      unfold tx_ret. now rewrite Hc, set_root_same.
    + repeat (split; [assumption || reflexivity|]).
      split; [exists b; assumption|]. split; reflexivity.
  - exists (set_root d (bucket_insert defaultsBucket (Nested []) (root d))).
    split.
    + unfold Store.Open. rewrite Hopen.
      unfold Store.db_Update. cbn [db path].
      unfold DB_Update. rewrite Ho. cbn [negb]. unfold tx_bind.
      unfold tx_CreateBucketIfNotExists.
      rewrite (Bucket_CreateBucketIfNotExists_absent [] defaultsBucket
                 (root d) (root d) eq_refl eq_refl E).
      unfold tx_ret. now rewrite Hc.
    + cbn [opened commit_err close_err root set_root].
      repeat (split; [assumption || reflexivity|]).
      split; [exists []; apply bucket_find_insert_eq|]. split.
      * intros k N. apply bucket_find_insert_neq. congruence.
      * discriminate.
Qed.

(** X12: when a record is stored under [config] in the bucket of the user,
    [Config] returns the configuration as the decoder left it, a zero
    configuration with the fields the decoder set, next to the error of the
    decoder or nil: it does not fall back to the default and does not ask
    the host, whose failure to resolve the home directory is not seen. *)
Theorem Config_stored_record (h : Host) (u : string) (s : Store) (d : DB)
    (ub : Bucket) (v : bytes) (cfg : Config) (err : option string) :
  u <> ""%string -> db s = Some d -> opened d = true ->
  bucket_find (bytes_of_string u) (root d) = Some (Nested ub) ->
  bucket_find (bytes_of_string "config") ub = Some (Leaf v) ->
  gob_decode v zero_Config = (cfg, err) ->
  Store.Config h u s =
  Returns (Some cfg,
           match err with
           | Some msg => Some (Foreign msg)
           | None => None
           end).
Proof.
  intros Hne Hd Ho Hu Hc D.
  now rewrite (Config_eval h u s d Hne Hd Ho), Hu, Hc, D.
Qed.

Lemma grows_refl (ub : Bucket) : grows ub ub.
Proof. intros k _. reflexivity. Qed.

Lemma grows_trans (a b c : Bucket) : grows a b -> grows b c -> grows a c.
Proof.
  intros G1 G2 k H. rewrite <- (G1 k H). apply G2.
  destruct H as [H|H]; [left; now rewrite (G1 k (or_introl H)) | now right].
Qed.

Lemma grows_child (ub : Bucket) (key : bytes) :
  key = downloadItemsBucket \/ key = watchedTorrentsBucket ->
  bucket_find key ub = None ->
  grows ub (bucket_insert key (Nested []) ub).
Proof.
  intros K E k H. apply bucket_find_insert_neq. intros Q. subst k.
  destruct H as [H|[H1 H2]]; [contradiction|]. destruct K; contradiction.
Qed.

Lemma root_grows_refl (r : Bucket) : root_grows r r.
Proof. intros ku ub H. exists ub. split; [assumption | apply grows_refl]. Qed.

Lemma root_grows_trans (a b c : Bucket) :
  root_grows a b -> root_grows b c -> root_grows a c.
Proof.
  intros G1 G2 ku ub H. destruct (G1 ku ub H) as (ub1 & H1 & Gr1).
  destruct (G2 ku ub1 H1) as (ub2 & H2 & Gr2).
  exists ub2. split; [assumption | eapply grows_trans; eauto].
Qed.

(** The two ways [CreateBucketIfNotExists] returns without error. *)
Lemma Bucket_CreateBucketIfNotExists_cases (p : list bytes) (key : bytes)
    (r b : Bucket) (h : option (list bytes)) (r' : Bucket) :
  bucket_at r p = Some b ->
  Bucket_CreateBucketIfNotExists (Some p) key r = Returns ((h, None), r') ->
  (exists c, bucket_find key b = Some (Nested c) /\ r' = r) \/
  (bucket_find key b = None /\
   r' = bucket_update r p (bucket_insert key (Nested []))).
Proof.
  intros H R. destruct (length key =? 0)%nat eqn:K.
  { rewrite (Bucket_CreateBucketIfNotExists_noname p key r b H K) in R.
    discriminate. }
  destruct (bucket_find key b) as [[v|c]|] eqn:E.
  - rewrite (Bucket_CreateBucketIfNotExists_value p key r b v H K E) in R.
    discriminate.
  - rewrite (Bucket_CreateBucketIfNotExists_exists p key r b c H K E) in R.
    injection R as _ <-. left. eauto.
  - rewrite (Bucket_CreateBucketIfNotExists_absent p key r b H K E) in R.
    injection R as _ <-. now right.
Qed.

Lemma root_grows_create_top (r : Bucket) (k : bytes) :
  bucket_find k r = None -> root_grows r (bucket_insert k (Nested []) r).
Proof.
  intros E ku ub H. exists ub. split; [|apply grows_refl].
  rewrite bucket_find_insert_neq; [assumption|]. congruence.
Qed.

Lemma root_grows_create_child (r : Bucket) (kv key : bytes) (b : Bucket) :
  key = downloadItemsBucket \/ key = watchedTorrentsBucket ->
  bucket_find kv r = Some (Nested b) ->
  bucket_find key b = None ->
  root_grows r (bucket_update r [kv] (bucket_insert key (Nested []))).
Proof.
  intros K Hb E ku ub H. rewrite bucket_find_update, H.
  destruct (bytes_eqb kv ku) eqn:Q.
  - apply bytes_eqb_eq in Q. subst ku. rewrite Hb in H. injection H as <-.
    eexists. split; [reflexivity|]. cbn [bucket_update].
    now apply grows_child.
  - exists ub. split; [reflexivity | apply grows_refl].
Qed.

(** What a successful [CreateBuckets] does to the root. *)
Lemma CreateBuckets_effect (v : string) (s s' : Store) :
  Store.CreateBuckets v s = Returns (None, s') ->
  exists d r',
    db s = Some d /\ opened d = true /\
    s' = mkStore (path s) (Some (set_root d r')) /\
    root_grows (root d) r'.
Proof.
  unfold Store.CreateBuckets, Store.db_Update.
  destruct (db s) as [d|] eqn:Hd; [|discriminate].
  unfold DB_Update. destruct (opened d) eqn:Ho; [|discriminate].
  cbn [negb]. unfold tx_bind at 1. unfold tx_CreateBucketIfNotExists.
  destruct (Bucket_CreateBucketIfNotExists (Some [])
              (bytes_of_string v) (root d)) as [[[h [e|]] r0]|] eqn:E0;
    try discriminate.
  assert (G0 : root_grows (root d) r0).
  { destruct (Bucket_CreateBucketIfNotExists_cases [] _ (root d) (root d)
                h r0 eq_refl E0) as [(c & _ & ->)|(E & ->)].
    - apply root_grows_refl.
    - now apply root_grows_create_top. }
  destruct (Bucket_CreateBucketIfNotExists_ok [] _ (root d) (root d) h r0
              eq_refl E0) as (K & -> & b0 & ub0 & Hb0 & Hu0 & _).
  injection Hb0 as <-. cbn [app Store.CreateBuckets_loop].
  assert (Hat0 : bucket_at r0 [bytes_of_string v] = Some ub0)
    by now apply bucket_at_one.
  unfold tx_bind at 1.
  destruct (Bucket_CreateBucketIfNotExists (Some [bytes_of_string v])
              downloadItemsBucket r0) as [[[h1 [e|]] r1]|] eqn:E1;
    try discriminate.
  assert (G1 : root_grows r0 r1).
  { destruct (Bucket_CreateBucketIfNotExists_cases _ _ r0 ub0 h1 r1 Hat0 E1)
      as [(c & _ & ->)|(E & ->)].
    - apply root_grows_refl.
    - apply (root_grows_create_child r0 _ _ ub0); auto. }
  destruct (Bucket_CreateBucketIfNotExists_ok _ _ r0 ub0 h1 r1 Hat0 E1)
    as (_ & _ & ub1 & dl & Hat1 & _ & _).
  unfold tx_bind at 1.
  destruct (Bucket_CreateBucketIfNotExists (Some [bytes_of_string v])
              watchedTorrentsBucket r1) as [[[h2 [e|]] r2]|] eqn:E2;
    try discriminate.
  assert (G2 : root_grows r1 r2).
  { destruct (Bucket_CreateBucketIfNotExists_cases _ _ r1 ub1 h2 r2 Hat1 E2)
      as [(c & _ & ->)|(E & ->)].
    - apply root_grows_refl.
    - apply (root_grows_create_child r1 _ _ ub1); auto.
      apply (proj1 (bucket_at_one _ _ _) Hat1). }
  unfold tx_ret. destruct (commit_err d); [discriminate|].
  intros [= <-]. exists d, r2.
  split; [reflexivity|]. split; [exact Ho|]. split; [reflexivity|].
  eapply root_grows_trans; [exact G0|].
  eapply root_grows_trans; [exact G1 | exact G2].
Qed.

(** X13: a successful [CreateBuckets], for any user, loses nothing: every
    read that returned before it, of any user and of the current user,
    returns the same afterwards. *)
Theorem CreateBuckets_loses_nothing (v : string) (s s' : Store) :
  Store.CreateBuckets v s = Returns (None, s') ->
  (forall id u x, Store.State id u s = Returns x ->
                  Store.State id u s' = Returns x) /\
  (forall u x, Store.States u s = Returns x ->
               Store.States u s' = Returns x) /\
  (forall h u x, Store.Config h u s = Returns x ->
                 Store.Config h u s' = Returns x) /\
  (forall x, Store.CurrentUser s = Returns x ->
             Store.CurrentUser s' = Returns x).
Proof.
  intros H. apply CreateBuckets_effect in H as (d & r' & Hd & Ho & -> & G).
  set (s' := mkStore (path s) (Some (set_root d r'))).
  assert (Hd' : db s' = Some (set_root d r')) by reflexivity.
  assert (Ho' : opened (set_root d r') = true) by exact Ho.
  split; [|split; [|split]].
  - intros id u x.
    rewrite (State_eval id u s d Hd Ho), (State_eval id u s' _ Hd' Ho').
    cbn [root set_root].
    destruct (bucket_find (bytes_of_string u) (root d)) as [[y|ub]|] eqn:E;
      try discriminate.
    destruct (G _ _ E) as (ub' & -> & Gr).
    destruct (bucket_find downloadItemsBucket ub) as [[y|dl]|] eqn:F;
      try discriminate.
    rewrite (Gr downloadItemsBucket), F; [trivial|].
    left. congruence.
  - intros u x. destruct (String.eqb_spec u "") as [->|Hne]; [trivial|].
    rewrite (States_eval u s d Hne Hd Ho), (States_eval u s' _ Hne Hd' Ho').
    cbn [root set_root].
    destruct (bucket_find (bytes_of_string u) (root d)) as [[y|ub]|] eqn:E;
      try discriminate.
    destruct (G _ _ E) as (ub' & -> & Gr).
    destruct (bucket_find downloadItemsBucket ub) as [[y|dl]|] eqn:F;
      try discriminate.
    rewrite (Gr downloadItemsBucket), F; [trivial|].
    left. congruence.
  - intros h u x. destruct (String.eqb_spec u "") as [->|Hne]; [trivial|].
    rewrite (Config_eval h u s d Hne Hd Ho), (Config_eval h u s' _ Hne Hd' Ho').
    cbn [root set_root].
    destruct (bucket_find (bytes_of_string u) (root d)) as [[y|ub]|] eqn:E;
      try discriminate.
    destruct (G _ _ E) as (ub' & -> & Gr).
    rewrite (Gr (bytes_of_string "config")); [trivial|].
    right. split; discriminate.
  - intros x.
    rewrite (CurrentUser_eval s d Hd Ho), (CurrentUser_eval s' _ Hd' Ho').
    cbn [root set_root].
    destruct (bucket_find defaultsBucket (root d)) as [[y|b]|] eqn:E;
      try discriminate.
    destruct (G _ _ E) as (b' & -> & Gr).
    rewrite (Gr (bytes_of_string "current-user")); [trivial|].
    right. split; discriminate.
Qed.

End ProvisioningFacts.

Section ListingFacts.

Context {gobState : Gob State} {gobConfig : Gob Config}.

Lemma keys_sorted_find (b : Bucket) (k : bytes) (n : node) :
  keys_sorted b -> In (k, n) b -> bucket_find k b = Some n.
Proof.
  unfold keys_sorted. induction b as [|[k0 m] b IH]; simpl; [tauto|].
  intros S [H|H].
  - injection H as -> ->. now rewrite bytes_eqb_refl.
  - inversion S as [|? ? S' F]; subst.
    rewrite Forall_forall in F.
    assert (L : bytes_lt k0 k) by (apply F; now apply (in_map fst) in H).
    unfold bytes_eqb. unfold bytes_lt in L. rewrite L. auto.
Qed.

(** The items of a bucket of records put for [l], state by state. *)
Lemma records_of_states (l : list State) (b : Bucket) :
  records_of l b ->
  exists sts,
    Forall2 (fun e st => e = (itob (FileID st), Leaf (record_of st))) b sts /\
    incl sts l.
Proof.
  intros R. induction R as [|[k n] b (st & Hin & E) R IH].
  - exists []. split; [constructor | intros x []].
  - destruct IH as (sts & F & I). exists (st :: sts). split.
    + constructor; assumption.
    + intros x [<-|Hx]; auto.
Qed.

Lemma Forall2_In_l {A B} (R : A -> B -> Prop) (l1 : list A) (l2 : list B)
    (a : A) :
  Forall2 R l1 l2 -> In a l1 -> exists b, In b l2 /\ R a b.
Proof.
  induction 1 as [|x y l1 l2 Hxy F IH]; simpl; [tauto|].
  intros [<-|H]; [eauto|]. destruct (IH H) as (b & Hb & Rb). eauto.
Qed.

Lemma Forall2_In_r {A B} (R : A -> B -> Prop) (l1 : list A) (l2 : list B)
    (b : B) :
  Forall2 R l1 l2 -> In b l2 -> exists a, In a l1 /\ R a b.
Proof.
  induction 1 as [|x y l1 l2 Hxy F IH]; simpl; [tauto|].
  intros [<-|H]; [eauto|]. destruct (IH H) as (a & Ha & Ra). eauto.
Qed.

Lemma record_of_inj (x y : State) :
  storable x -> storable y -> record_of x = record_of y -> x = y.
Proof.
  intros Sx Sy E. apply decode_record_of in Sx, Sy.
  rewrite E in Sx. congruence.
Qed.

Lemma StronglySorted_NoDup {A} (R : A -> A -> Prop) (l : list A) :
  (forall x, ~ R x x) -> StronglySorted R l -> NoDup l.
Proof.
  intros Irr S. induction S as [|a l S IH F]; constructor; [|assumption].
  intros H. rewrite Forall_forall in F. exact (Irr a (F a H)).
Qed.

(** X14: after saving the states [l], in any order and with repetitions,
    for a user who had none, the listing holds exactly the states saved
    last under their identifier that are not hidden, each identifier
    once. *)
Theorem States_lists_last_saved (u : string) (s : Store) (l : list State) :
  live s -> provisioned u s -> downloads u s = Some [] ->
  Forall storable l -> Forall (fun st => int64 (FileID st)) l ->
  exists s' r,
    save_all l u s = Returns (None, s') /\
    Store.States u s' = Returns (r, None) /\
    NoDup (map FileID r) /\
    (forall x, In x r <->
               last_saved (FileID x) l = Some x /\ IsHidden x = false).
Proof.
  intros L P Hdl S I.
  destruct (States_after_saves u s l L P Hdl S)
    as (s' & sts & Hall & Hdl' & F & Hst & Sorted & Incl).
  set (b := fold_left put_record l []) in *.
  assert (K : keys_sorted b)
    by (apply keys_sorted_put_records; constructor).
  destruct (records_of_states l b) as (sts' & F' & Incl').
  { apply records_of_put_records; [apply incl_refl | constructor]. }
  rewrite Forall_forall in S, I.
  assert (E : sts' = sts).
  { clear - F F' S Incl'. revert sts F Incl'.
    induction F' as [|e st b sts' He F' IH]; intros sts F Incl';
      inversion F as [|? y ? sts0 D F0]; subst; [reflexivity|].
    unfold decodes in D. cbn [cursor_items map fst snd] in D.
    rewrite decode_record_of in D by (apply S, Incl'; now left).
    injection D as <-. f_equal. apply IH; [assumption|].
    intros x Hx. apply Incl'. now right. }
  subst sts'.
  assert (Mem : forall x, In x sts <-> last_saved (FileID x) l = Some x).
  { intros x. split.
    - intros Hx. destruct (Forall2_In_r _ _ _ x F' Hx) as (e & He & ->).
      apply (keys_sorted_find b _ _ K) in He. unfold b in He.
      rewrite (find_put_records (FileID x) l []) in He
        by (try apply Forall_forall; auto).
      destruct (last_saved (FileID x) l) as [st|] eqn:LS; [|discriminate].
      injection He as He. f_equal.
      apply last_saved_Some in LS as [Hin _].
      apply record_of_inj; auto.
    - intros LS.
      assert (Hf : bucket_find (itob (FileID x)) b
                   = Some (Leaf (record_of x))).
      { unfold b. rewrite (find_put_records (FileID x) l []), LS;
          [reflexivity| |now apply Forall_forall].
        apply last_saved_Some in LS as [Hin _]. auto. }
      apply bucket_find_In in Hf.
      destruct (Forall2_In_l _ _ _ _ F' Hf) as (st & Hst' & E).
      injection E as E1 E2.
      assert (st = x) as <-; [|assumption].
      apply record_of_inj; auto.
      apply last_saved_Some in LS as [Hin _]. auto. }
  exists s', (filter visible sts). split; [assumption|].
  split; [assumption|]. split.
  - apply (StronglySorted_NoDup
             (fun a c => uint64 a < uint64 c)); [intros x; lia|].
    apply StronglySorted_filter with (f := visible) in Sorted.
    clear - Sorted. induction Sorted as [|a r S IH F]; simpl; constructor;
      [assumption|].
    rewrite Forall_forall in *. intros y Hy.
    apply in_map_iff in Hy as (z & <- & Hz). now apply F.
  - intros x. rewrite filter_In, Mem. unfold visible.
    destruct (IsHidden x); simpl; intuition congruence.
Qed.

End ListingFacts.

Section InvariantFacts.

Context {gobState : Gob State} {gobConfig : Gob Config}.

(** X15: on a host whose database files keep the layout, every store a
    program reaches by calls of the store keeps it: a user whose bucket and
    child buckets exist is provisioned, with records only under
    [download-items] and no bucket in the place of [config]. *)
Theorem reachable_stores_keep_layout (h : Host) (u : string) (s : Store) :
  sound_host h -> reachable h s -> has_namespace u s -> provisioned u s.
Proof.
  intros Hh R (Hne & ub & dl & wt & Hub & Hfd & Hfw).
  pose proof (reachable_well_formed h s Hh R) as W.
  split; [assumption|]. exists ub, dl, wt.
  repeat (split; [assumption|]).
  unfold well_formed in W. unfold user_bucket in Hub.
  destruct (db s) as [d|]; [|discriminate].
  apply bucket_at_one in Hub. destruct (W _ _ Hub) as [Gc Gd].
  split; [now apply Gd | exact Gc].
Qed.

(** X22: [CreateBuckets] for a user who has no bucket, on an open store
    whose commits succeed, makes the user ready for use: the listing is
    empty, every identifier is reported not found, and the configuration
    is the default one. *)
Theorem CreateBuckets_then_reads (u : string) (s : Store) (d : DB) :
  db s = Some d -> opened d = true -> commit_err d = None ->
  u <> ""%string ->
  bucket_find (bytes_of_string u) (root d) = None ->
  exists s',
    Store.CreateBuckets u s = Returns (None, s') /\
    Store.States u s' = Returns ([], None) /\
    (forall id,
       Store.State id u s' = Returns (zero_State, Some ErrStateNotFound)) /\
    (forall h, Store.Config h u s' = Returns (Store.DefaultConfig h)).
Proof.
  intros Hd Ho Hc Hne Hu.
  pose proof (bytes_of_string_nonempty u Hne) as K.
  set (ku := bytes_of_string u) in *.
  set (r0 := bucket_insert ku (Nested []) (root d)).
  assert (Hat0 : bucket_at r0 [ku] = Some []).
  { apply bucket_at_one. apply bucket_find_insert_eq. }
  set (f1 := bucket_insert downloadItemsBucket (Nested [])).
  set (r1 := bucket_update r0 [ku] f1).
  assert (Hat1 : bucket_at r1 [ku] = Some (f1 []))
    by now apply bucket_at_update.
  set (f2 := bucket_insert watchedTorrentsBucket (Nested [])).
  set (r2 := bucket_update r1 [ku] f2).
  assert (Hat2 : bucket_at r2 [ku] = Some (f2 (f1 [])))
    by now apply bucket_at_update.
  set (s' := mkStore (path s) (Some (set_root d r2))).
  assert (Hd' : db s' = Some (set_root d r2)) by reflexivity.
  assert (Ho' : opened (set_root d r2) = true) by exact Ho.
  assert (Hu' : bucket_find ku (root (set_root d r2))
                = Some (Nested (f2 (f1 [])))) by now apply bucket_at_one.
  exists s'. split; [|split; [|split]].
  - unfold Store.CreateBuckets, Store.db_Update. rewrite Hd.
    unfold DB_Update. rewrite Ho. cbn [negb]. unfold tx_bind at 1.
    unfold tx_CreateBucketIfNotExists. fold ku.
    rewrite (Bucket_CreateBucketIfNotExists_absent [] ku (root d) (root d)
               eq_refl K Hu).
    cbn [app Store.CreateBuckets_loop bucket_update]. fold r0.
    unfold tx_bind.
    rewrite (Bucket_CreateBucketIfNotExists_absent [ku] downloadItemsBucket
               r0 [] Hat0 eq_refl eq_refl).
    fold f1. fold r1.
    rewrite (Bucket_CreateBucketIfNotExists_absent [ku] watchedTorrentsBucket
               r1 (f1 []) Hat1 eq_refl eq_refl).
    fold f2. fold r2. unfold tx_ret. now rewrite Hc.
  - rewrite (States_eval u s' _ Hne Hd' Ho'). fold ku. now rewrite Hu'.
  - intros id. rewrite (State_eval id u s' _ Hd' Ho'). fold ku.
    now rewrite Hu'.
  - intros h. rewrite (Config_eval h u s' _ Hne Hd' Ho'). fold ku.
    now rewrite Hu'.
Qed.

(** X17: saving a second configuration for a provisioned user replaces the
    first: [Config] then returns the second. *)
Theorem SaveConfig_overwrites (h : Host) (u : string) (s : Store)
    (c1 c2 : Config) :
  live s -> provisioned u s -> storable c1 -> storable c2 ->
  exists s1 s2,
    Store.SaveConfig c1 u s = Returns (None, s1) /\
    Store.SaveConfig c2 u s1 = Returns (None, s2) /\
    Store.Config h u s2 = Returns (Some c2, None).
Proof.
  intros (d & Hd & Ho & Hc) (Hne & ub & dl & wt & Hub & _ & _ & _ & Hcfg)
    S1 S2.
  unfold user_bucket in Hub. rewrite Hd in Hub.
  apply storable_Config_inv in S1 as (v1 & He1 & Hv1 & _).
  apply storable_Config_inv in S2 as (v2 & He2 & Hv2 & Hdec2).
  set (cf := bytes_of_string "config") in *.
  set (ub1 := bucket_insert cf (Leaf v1) ub).
  set (d1 := set_root d (bucket_update (root d) [bytes_of_string u]
                           (bucket_insert cf (Leaf v1)))).
  set (s1 := mkStore (path s) (Some d1)).
  assert (Hub1 : bucket_at (root d1) [bytes_of_string u] = Some ub1)
    by (cbn [root set_root d1]; now apply bucket_at_update).
  assert (Hcfg1 : forall b, bucket_find cf ub1 <> Some (Nested b)).
  { intros b. unfold ub1. rewrite bucket_find_insert_eq. discriminate. }
  set (ub2 := bucket_insert cf (Leaf v2) ub1).
  set (d2 := set_root d1 (bucket_update (root d1) [bytes_of_string u]
                            (bucket_insert cf (Leaf v2)))).
  assert (Hub2 : bucket_at (root d2) [bytes_of_string u] = Some ub2)
    by (cbn [root set_root d2]; now apply bucket_at_update).
  exists s1, (mkStore (path s) (Some d2)). split; [|split].
  - exact (SaveConfig_run c1 u s d ub v1 Hd Ho Hc Hub He1 Hv1 Hcfg).
  - exact (SaveConfig_run c2 u s1 d1 ub1 v2 eq_refl Ho Hc Hub1 He2 Hv2 Hcfg1).
  - rewrite (Config_run h u (mkStore (path s) (Some d2)) d2 ub2
               Hne eq_refl Ho Hub2).
    unfold ub2. fold cf. now rewrite bucket_find_insert_eq, Hdec2.
Qed.

Lemma namespace_kept_put (r : Bucket) (ku kv k0 : bytes) (n : node)
    (ub dl wt : Bucket) :
  k0 <> downloadItemsBucket -> k0 <> watchedTorrentsBucket ->
  bucket_find ku r = Some (Nested ub) ->
  bucket_find downloadItemsBucket ub = Some (Nested dl) ->
  bucket_find watchedTorrentsBucket ub = Some (Nested wt) ->
  exists ub' dl' wt',
    bucket_find ku (bucket_update r [kv] (bucket_insert k0 n))
      = Some (Nested ub') /\
    bucket_find downloadItemsBucket ub' = Some (Nested dl') /\
    bucket_find watchedTorrentsBucket ub' = Some (Nested wt').
Proof.
  intros N1 N2 Hu Hd Hw. rewrite bucket_find_update, Hu.
  destruct (bytes_eqb kv ku); [|eauto 10].
  cbn [bucket_update]. do 3 eexists. split; [reflexivity|].
  rewrite !bucket_find_insert_neq by assumption. eauto.
Qed.

(** X18: no call other than [Open] takes the buckets of a user away: a user
    whose bucket and child buckets exist has them after any call that
    returns, with or without an error. *)
Theorem namespaces_persist (h : Host) (c : call) (u : string)
    (s s' : Store) (e : option goerror) :
  c <> CallOpen ->
  has_namespace u s ->
  run_call h c s = Returns (e, s') ->
  has_namespace u s'.
Proof.
  intros NO N H.
  assert (Err : forall fn err, Store.db_Update s fn = Returns (Some err, s')
                               -> has_namespace u s').
  { intros fn err Hf. apply db_Update_error in Hf. now subst. }
  destruct N as (Hne & ub & dl & wt & Hub & Hfd & Hfw).
  destruct c; try contradiction; cbn [run_call] in H.
  - (* Close *)
    revert H. unfold Store.Close. unfold user_bucket in Hub.
    destruct (db s) as [d|] eqn:Hd; [|discriminate].
    unfold DB_Close. destruct (opened d); cbn [negb]; intros [= _ <-];
      (split; [assumption|]); exists ub, dl, wt;
      unfold user_bucket; cbn [db root]; auto.
  - (* CreateBuckets *)
    destruct e as [err|]; [now apply (Err _ err H)|].
    apply CreateBuckets_effect in H as (d & r' & Hd & Ho & -> & G).
    unfold user_bucket in Hub. rewrite Hd in Hub.
    apply bucket_at_one in Hub. destruct (G _ _ Hub) as (ub' & Hub' & Gr).
    split; [assumption|]. exists ub', dl, wt.
    unfold user_bucket. cbn [db root set_root].
    split; [now apply bucket_at_one|].
    rewrite !Gr by (left; congruence). auto.
  - (* SaveState *)
    destruct e as [err|]; [now apply (Err _ err H)|].
    apply SaveState_success in H as (d & val & Hd & Ho & Hc & ->).
    unfold user_bucket in Hub. rewrite Hd in Hub.
    apply bucket_at_one in Hub.
    destruct (namespace_kept_state (root d) (bytes_of_string u)
                (bytes_of_string forUser)
                (bucket_insert (itob (FileID state)) (Leaf val))
                ub dl wt Hub Hfd Hfw) as (ub' & dl' & wt' & Hu' & Hd' & Hw').
    split; [assumption|]. exists ub', dl', wt'.
    unfold user_bucket. cbn [db root set_root].
    split; [now apply bucket_at_one|]. now split.
  - (* SaveConfig *)
    destruct e as [err|]; [now apply (Err _ err H)|].
    apply SaveConfig_success in H as (d & val & Hd & Ho & Hc & ->).
    unfold user_bucket in Hub. rewrite Hd in Hub.
    apply bucket_at_one in Hub.
    destruct (namespace_kept_config (root d) (bytes_of_string u)
                (bytes_of_string forUser) val ub dl wt Hub Hfd Hfw)
      as (ub' & dl' & wt' & Hu' & Hd' & Hw').
    split; [assumption|]. exists ub', dl', wt'.
    unfold user_bucket. cbn [db root set_root].
    split; [now apply bucket_at_one|]. now split.
  - (* SaveCurrentUser *)
    destruct e as [err|]; [now apply (Err _ err H)|].
    apply SaveCurrentUser_success in H as (d & Hd & ->).
    unfold user_bucket in Hub. rewrite Hd in Hub.
    apply bucket_at_one in Hub.
    destruct (namespace_kept_put (root d) (bytes_of_string u) defaultsBucket
                (bytes_of_string "current-user")
                (Leaf (bytes_of_string username)) ub dl wt)
      as (ub' & dl' & wt' & Hu' & Hd' & Hw'); auto; try discriminate.
    split; [assumption|]. exists ub', dl', wt'.
    unfold user_bucket. cbn [db root set_root].
    split; [now apply bucket_at_one|]. now split.
Qed.

Lemma db_Update_path (s s' : Store) (fn : Tx (option goerror))
    (e : option goerror) :
  Store.db_Update s fn = Returns (e, s') -> path s' = path s.
Proof.
  unfold Store.db_Update. destruct (db s) as [d|]; [|discriminate].
  destruct (DB_Update fn d) as [[e' d']|]; [|discriminate].
  now intros [= _ <-].
Qed.

(** X19: the path of the store is fixed at [NewStore]: [Path] returns it on
    the new store, and no call that returns changes what [Path] returns. *)
Theorem Path_is_constant (h : Host) (c : call) (p : string) (s s' : Store)
    (e : option goerror) :
  Store.Path (NewStore p) = p /\
  (run_call h c s = Returns (e, s') -> Store.Path s' = Store.Path s).
Proof.
  split; [reflexivity|]. unfold Store.Path.
  destruct c; cbn [run_call]; try apply db_Update_path.
  - unfold Store.Open. destruct (bolt_Open h (path s)) as [err|d].
    + now intros [= _ <-].
    + destruct (Store.db_Update _ _) as [[[e1|] s1]|] eqn:U;
        try discriminate.
      * apply db_Update_path in U. cbn [path] in U.
        destruct (db s1) as [d1|]; [|discriminate].
        destruct (DB_Close d1) as [cerr d2]. intros [= _ <-]. exact U.
      * apply db_Update_path in U. cbn [path] in U. now intros [= _ <-].
  - unfold Store.Close. destruct (db s) as [d|]; [|discriminate].
    destruct (DB_Close d) as [cerr d']. now intros [= _ <-].
Qed.

(** X20: the default configuration exists exactly when the host resolves
    the current user: with the error of [user.Current], [Config] of the
    empty user returns a nil configuration and that error; otherwise it
    returns a configuration that is paused, downloads to [putio-sync] under
    the home directory from no folder (-1), carries no token, and whose
    parallelism is positive and within the limits of the package. *)
Theorem DefaultConfig_of_host (h : Host) (s : Store) :
  (forall err, user_Current h = inl err ->
     Store.Config h "" s = Returns (None, Some err)) /\
  (forall usr, user_Current h = inr usr ->
     exists cfg,
       Store.Config h "" s = Returns (Some cfg, None) /\
       IsPaused cfg = true /\
       DownloadTo cfg = filepath_Join h (HomeDir usr) "putio-sync" /\
       DownloadFrom cfg = -1 /\
       OAuth2Token cfg = ""%string /\
       0 < SegmentsPerFile cfg <= limitSegmentsPerFile /\
       0 < MaxParallelFiles cfg <= limitParallelFiles /\
       0 < PollInterval cfg).
Proof.
  split.
  - intros err E. unfold Store.Config. cbn [String.eqb].
    unfold Store.DefaultConfig. now rewrite E.
  - intros usr E. eexists. split.
    + unfold Store.Config. cbn [String.eqb].
      unfold Store.DefaultConfig. rewrite E. reflexivity.
    + cbn. repeat split; try reflexivity; discriminate.
Qed.

End InvariantFacts.

(** X21: marshalling a duration never fails; unmarshalling an empty text,
    or a text the time library does not parse, leaves the duration as it
    was (with no error for the empty text); and unmarshalling what was
    marshalled gives the duration back whenever the library parses what it
    prints and prints no empty string. *)
Theorem Duration_text_round_trip (t : TimeLib) (d d0 : Z) (text : bytes) :
  snd (Duration.MarshalText t d) = None /\
  Duration.UnmarshalText t [] d0 = (d0, None) /\
  (forall err, snd (Duration.UnmarshalText t text d0) = Some err ->
               fst (Duration.UnmarshalText t text d0) = d0) /\
  (time_String t d <> ""%string ->
   time_ParseDuration t (time_String t d) = inr d ->
   Duration.UnmarshalText t (fst (Duration.MarshalText t d)) d0 = (d, None)).
Proof.
  split; [reflexivity|]. split; [reflexivity|]. split.
  - intros err. unfold Duration.UnmarshalText.
    destruct (length text =? 0)%nat; [discriminate|].
    now destruct (time_ParseDuration t (string_of_list_byte text)).
  - intros Hne Hp. unfold Duration.UnmarshalText, Duration.MarshalText,
      Duration.String. cbn [fst].
    rewrite (bytes_of_string_nonempty _ Hne).
    unfold bytes_of_string. now rewrite string_of_list_byte_of_string, Hp.
Qed.

(** ** The sample store *)

#[local] Existing Instance Sample.gobState.
#[local] Existing Instance Sample.gobConfig.

Lemma sample_alice_created :
  Store.CreateBuckets "alice" Sample.opened_store
  = Returns (None, Sample.alice_store).
Proof. reflexivity. Qed.

Lemma sample_alice_live : live Sample.alice_store.
Proof. eexists. split; [reflexivity|]. split; reflexivity. Qed.

Lemma sample_alice_provisioned : provisioned "alice" Sample.alice_store.
Proof.
  split; [discriminate|]. exists [(downloadItemsBucket, Nested []);
                                   (watchedTorrentsBucket, Nested [])], [], [].
  split; [reflexivity|]. split; [reflexivity|]. split; [reflexivity|].
  split; [intros k c []|]. intros c. discriminate.
Qed.

Lemma sample_alice_no_states : downloads "alice" Sample.alice_store = Some [].
Proof. reflexivity. Qed.

(** A concrete value is storable by evaluation of the sample codec. *)
Ltac sample_storable :=
  unfold storable; split; [now vm_compute | reflexivity].

Lemma sample_config_storable : storable Sample.config.
Proof. sample_storable. Qed.

Lemma sample_states_storable :
  Forall storable [Sample.state 5 false; Sample.state 1 false;
                   Sample.state 3 false] /\
  storable (Sample.state 1 false) /\
  storable (Sample.state 2 true) /\
  storable (Sample.state 3 false).
Proof.
  split; [repeat (apply Forall_cons; [sample_storable|]); apply Forall_nil|].
  split; [sample_storable|]. split; sample_storable.
Qed.

(** ** The theorems at the sample store *)

Lemma Config_unprovisioned_panics_witness :
  "bob"%string <> ""%string /\
  db Sample.opened_store = Some Sample.opened_db /\
  opened Sample.opened_db = true /\
  bucket_find (bytes_of_string "bob") (root Sample.opened_db) = None /\
  Store.Config Sample.host "bob" Sample.opened_store = Panics.
Proof.
  assert (H1 : "bob"%string <> ""%string) by discriminate.
  assert (H2 : db Sample.opened_store = Some Sample.opened_db)
    by reflexivity.
  assert (H3 : opened Sample.opened_db = true) by reflexivity.
  assert (H4 : bucket_find (bytes_of_string "bob") (root Sample.opened_db)
               = None) by reflexivity.
  exact (conj H1 (conj H2 (conj H3 (conj H4
           (Config_unprovisioned_panics Sample.host "bob"
              Sample.opened_store Sample.opened_db H1 H2 H3 H4))))).
Defined.

Lemma SaveState_unprovisioned_panics_witness :
  db Sample.opened_store = Some Sample.opened_db /\
  opened Sample.opened_db = true /\
  bucket_find (bytes_of_string "bob") (root Sample.opened_db) = None /\
  Store.SaveState (Sample.state 1 false) "bob" Sample.opened_store = Panics.
Proof.
  assert (H2 : db Sample.opened_store = Some Sample.opened_db)
    by reflexivity.
  assert (H3 : opened Sample.opened_db = true) by reflexivity.
  assert (H4 : bucket_find (bytes_of_string "bob") (root Sample.opened_db)
               = None) by reflexivity.
  exact (conj H2 (conj H3 (conj H4
           (SaveState_unprovisioned_panics (Sample.state 1 false) "bob"
              Sample.opened_store Sample.opened_db H2 H3 H4)))).
Defined.

Lemma Open_loses_provisioning_error_witness :
  bolt_Open Sample.full_disk (path (NewStore "putio.db"))
    = inr Sample.full_db /\
  opened Sample.full_db = true /\
  commit_err Sample.full_db = Some (Foreign "no space left on device") /\
  close_err Sample.full_db = None /\
  Store.Open Sample.full_disk (NewStore "putio.db") =
  Returns (None,
           mkStore "putio.db"
             (Some (mkDB [] false
                      (Some (Foreign "no space left on device")) None))).
Proof.
  assert (H1 : bolt_Open Sample.full_disk (path (NewStore "putio.db"))
               = inr Sample.full_db) by reflexivity.
  assert (H2 : opened Sample.full_db = true) by reflexivity.
  assert (H3 : commit_err Sample.full_db
               = Some (Foreign "no space left on device")) by reflexivity.
  assert (H4 : close_err Sample.full_db = None) by reflexivity.
  exact (conj H1 (conj H2 (conj H3 (conj H4
           (Open_loses_provisioning_error Sample.full_disk
              (NewStore "putio.db") Sample.full_db _ H1 H2 H3 H4))))).
Defined.

Lemma save_then_fetch_witness :
  live Sample.alice_store /\
  provisioned "alice" Sample.alice_store /\
  storable (Sample.state 7 false) /\
  storable Sample.config /\
  (exists s1,
     Store.SaveState (Sample.state 7 false) "alice" Sample.alice_store
       = Returns (None, s1) /\
     Store.State 7 "alice" s1 = Returns (Sample.state 7 false, None)) /\
  (exists s2,
     Store.SaveConfig Sample.config "alice" Sample.alice_store
       = Returns (None, s2) /\
     Store.Config Sample.host "alice" s2 = Returns (Some Sample.config, None)).
Proof.
  assert (S1 : storable (Sample.state 7 false)) by sample_storable.
  exact (conj sample_alice_live (conj sample_alice_provisioned
          (conj S1 (conj sample_config_storable
            (save_then_fetch Sample.host "alice" Sample.alice_store
               (Sample.state 7 false) Sample.config
               sample_alice_live sample_alice_provisioned
               S1 sample_config_storable))))).
Defined.

Lemma States_excludes_hidden_witness :
  live Sample.alice_store /\
  provisioned "alice" Sample.alice_store /\
  downloads "alice" Sample.alice_store = Some [] /\
  Forall2 decodes (cursor_items []) [] /\
  Store.States "alice" Sample.alice_store = Returns ([], None) /\
  exists s',
    save_all [Sample.state 1 false; Sample.state 2 true; Sample.state 3 false]
      "alice" Sample.alice_store = Returns (None, s') /\
    Store.States "alice" s'
      = Returns ([Sample.state 1 false; Sample.state 3 false], None) /\
    Store.State 2 "alice" s' = Returns (Sample.state 2 true, None).
Proof.
  destruct sample_states_storable as (_ & S1 & S2 & S3).
  assert (F : Forall2 decodes (cursor_items []) []) by constructor.
  destruct (States_excludes_hidden "alice" Sample.alice_store
              sample_alice_live sample_alice_provisioned) as [A B].
  exact (conj sample_alice_live (conj sample_alice_provisioned
          (conj sample_alice_no_states (conj F
            (conj (A [] [] sample_alice_no_states F)
               (B (Sample.state 1 false) (Sample.state 2 true)
                  (Sample.state 3 false) sample_alice_no_states S1 S2 S3
                  eq_refl eq_refl eq_refl eq_refl eq_refl eq_refl)))))).
Defined.

Lemma CreateBuckets_idempotent_witness :
  Store.CreateBuckets "alice" Sample.opened_store
    = Returns (None, Sample.alice_store) /\
  saved_from Sample.alice_store Sample.alice_saved /\
  Store.CreateBuckets "alice" Sample.alice_saved
    = Returns (None, Sample.alice_saved).
Proof.
  assert (S : saved_from Sample.alice_store Sample.alice_saved).
  { eapply saved_config with (c := Sample.config) (v := "alice"%string).
    - eapply saved_state with (st := Sample.state 1 false)
                              (v := "alice"%string).
      + apply saved_none.
      + reflexivity.
    - reflexivity. }
  exact (conj sample_alice_created (conj S
           (CreateBuckets_idempotent "alice" Sample.opened_store
              Sample.alice_store Sample.alice_saved sample_alice_created S))).
Defined.

Lemma State_found_exactly_witness :
  live Sample.alice_store /\
  provisioned "alice" Sample.alice_store /\
  Forall storable [Sample.state 5 false; Sample.state 1 false;
                   Sample.state 3 false] /\
  Forall (fun st => int64 (FileID st))
    [Sample.state 5 false; Sample.state 1 false; Sample.state 3 false] /\
  int64 99 /\ int64 1 /\
  Store.State 99 "alice" Sample.alice_store
    = Returns (zero_State, Some ErrStateNotFound) /\
  (exists s',
     save_all [Sample.state 5 false; Sample.state 1 false;
               Sample.state 3 false]
       "alice" Sample.alice_store = Returns (None, s') /\
     Store.State 99 "alice" s'
       = Returns (zero_State, Some ErrStateNotFound)) /\
  (exists s',
     save_all [Sample.state 5 false; Sample.state 1 false;
               Sample.state 3 false]
       "alice" Sample.alice_store = Returns (None, s') /\
     Store.State 1 "alice" s' = Returns (Sample.state 1 false, None)) /\
  live Sample.truncated_store /\
  provisioned "alice" Sample.truncated_store /\
  downloads "alice" Sample.truncated_store = Some [(itob 5, Leaf (itob 5))] /\
  gob_decode (itob 5) zero_State
    = (mkState 5 false [], Some "unexpected EOF"%string) /\
  Store.State 5 "alice" Sample.truncated_store
    = Returns (mkState 5 false [], Some (Foreign "unexpected EOF")).
Proof.
  destruct sample_states_storable as (S & _).
  assert (I : Forall (fun st => int64 (FileID st))
                [Sample.state 5 false; Sample.state 1 false;
                 Sample.state 3 false])
    by (repeat constructor; unfold int64; simpl; lia).
  assert (I99 : int64 99) by (unfold int64; lia).
  assert (I1 : int64 1) by (unfold int64; lia).
  destruct (State_found_exactly 99 "alice" Sample.alice_store
              sample_alice_live sample_alice_provisioned)
    as (dl & Hdl & [Hnone _] & _ & _ & _ & Hsaved).
  destruct (State_found_exactly 1 "alice" Sample.alice_store
              sample_alice_live sample_alice_provisioned)
    as (dl1 & Hdl1 & _ & _ & _ & _ & Hsaved1).
  assert (E : dl = []).
  { rewrite sample_alice_no_states in Hdl. now injection Hdl. }
  assert (E1 : dl1 = []).
  { rewrite sample_alice_no_states in Hdl1. now injection Hdl1. }
  subst dl dl1.
  assert (Lt : live Sample.truncated_store)
    by (eexists; split; [reflexivity|]; split; reflexivity).
  assert (Pt : provisioned "alice" Sample.truncated_store).
  { split; [discriminate|].
    exists Sample.truncated_bucket, [(itob 5, Leaf (itob 5))], [].
    split; [reflexivity|]. split; [reflexivity|]. split; [reflexivity|].
    split; [|intros c; discriminate].
    intros k c [H|[]]. discriminate. }
  assert (Dt : downloads "alice" Sample.truncated_store
               = Some [(itob 5, Leaf (itob 5))]) by reflexivity.
  assert (Gt : gob_decode (itob 5) zero_State
               = (mkState 5 false [], Some "unexpected EOF"%string))
    by reflexivity.
  destruct (State_found_exactly 5 "alice" Sample.truncated_store Lt Pt)
    as (dl5 & Hdl5 & _ & _ & _ & Hbad & _).
  assert (E5 : dl5 = [(itob 5, Leaf (itob 5))]).
  { rewrite Dt in Hdl5. now injection Hdl5. }
  subst dl5.
  exact (conj sample_alice_live (conj sample_alice_provisioned
          (conj S (conj I (conj I99 (conj I1
            (conj (Hnone eq_refl)
               (conj (Hsaved _ S I I99 eq_refl)
                 (conj (Hsaved1 _ S I I1 eq_refl)
                   (conj Lt (conj Pt (conj Dt (conj Gt
                      (Hbad _ _ _ (bucket_find_insert_eq _ _ [])
                         Gt)))))))))))))).
Defined.

(** The claim C9 as it is stated fails where the record under the key does
    not decode: the store of alice holds a record under the key of 2, and
    fetching the state 2 neither succeeds nor reports [ErrStateNotFound]; it
    returns the error of the decoder. *)
Lemma State_undecodable_record :
  live Sample.corrupt_store /\
  provisioned "alice" Sample.corrupt_store /\
  downloads "alice" Sample.corrupt_store = Some Sample.corrupt_downloads /\
  bucket_find (itob 2) Sample.corrupt_downloads = Some (Leaf [x07]) /\
  Store.State 2 "alice" Sample.corrupt_store
    = Returns (zero_State, Some (Foreign "unexpected EOF")) /\
  ~ (exists st,
       Store.State 2 "alice" Sample.corrupt_store = Returns (st, None)).
Proof.
  split; [eexists; split; [reflexivity|]; split; reflexivity|].
  split.
  { split; [discriminate|].
    exists [(downloadItemsBucket, Nested Sample.corrupt_downloads);
            (watchedTorrentsBucket, Nested [])], Sample.corrupt_downloads, [].
    split; [reflexivity|]. split; [reflexivity|]. split; [reflexivity|].
    split; [|intros c; discriminate].
    intros k c [H|[H|[]]]; discriminate. }
  split; [reflexivity|]. split; [reflexivity|].
  assert (E : Store.State 2 "alice" Sample.corrupt_store
              = Returns (zero_State, Some (Foreign "unexpected EOF")))
    by reflexivity.
  split; [exact E|]. intros [st H]. rewrite E in H. discriminate.
Qed.

Lemma States_aborts_on_corrupt_record_witness :
  live Sample.corrupt_store /\
  "alice"%string <> ""%string /\
  downloads "alice" Sample.corrupt_store = Some Sample.corrupt_downloads /\
  In (itob 2, [x07]) (cursor_items Sample.corrupt_downloads) /\
  snd (gob_decode [x07] zero_State) = Some "unexpected EOF"%string /\
  exists pre k1 v1 post sts msg1,
    cursor_items Sample.corrupt_downloads = pre ++ (k1, v1) :: post /\
    Forall2 decodes pre sts /\
    snd (gob_decode v1 zero_State) = Some msg1 /\
    Store.States "alice" Sample.corrupt_store
      = Returns (filter visible sts, Some (Foreign msg1)).
Proof.
  assert (L : live Sample.corrupt_store)
    by (eexists; split; [reflexivity|]; split; reflexivity).
  assert (Hne : "alice"%string <> ""%string) by discriminate.
  assert (Hdl : downloads "alice" Sample.corrupt_store
                = Some Sample.corrupt_downloads) by reflexivity.
  assert (Hin : In (itob 2, [x07]) (cursor_items Sample.corrupt_downloads))
    by (simpl; auto).
  assert (Hbad : snd (gob_decode [x07] zero_State)
                 = Some "unexpected EOF"%string) by reflexivity.
  exact (conj L (conj Hne (conj Hdl (conj Hin (conj Hbad
           (States_aborts_on_corrupt_record "alice" Sample.corrupt_store
              Sample.corrupt_downloads (itob 2) [x07] "unexpected EOF"
              L Hne Hdl Hin Hbad)))))).
Defined.

Lemma itob_order_and_listing_witness :
  int64 (-1) /\ int64 0 /\ -1 < 0 <= 0 /\
  bytes_lt (itob 0) (itob (-1)) /\
  int64 1 /\ int64 5 /\ 1 < 5 /\ (0 <= 1 \/ 5 < 0) /\
  bytes_lt (itob 1) (itob 5) /\
  live Sample.alice_store /\
  provisioned "alice" Sample.alice_store /\
  downloads "alice" Sample.alice_store = Some [] /\
  Forall storable [Sample.state 5 false; Sample.state 1 false;
                   Sample.state 3 false] /\
  Forall (fun st => 0 <= FileID st < 2 ^ 63)
    [Sample.state 5 false; Sample.state 1 false; Sample.state 3 false] /\
  exists s' r,
    save_all [Sample.state 5 false; Sample.state 1 false; Sample.state 3 false]
      "alice" Sample.alice_store = Returns (None, s') /\
    Store.States "alice" s' = Returns (r, None) /\
    StronglySorted (fun x y => FileID x < FileID y) r /\
    r = [Sample.state 1 false; Sample.state 3 false; Sample.state 5 false].
Proof.
  destruct sample_states_storable as (S & _).
  assert (Im : int64 (-1)) by (unfold int64; lia).
  assert (I0 : int64 0) by (unfold int64; lia).
  assert (I1 : int64 1) by (unfold int64; lia).
  assert (I5 : int64 5) by (unfold int64; lia).
  assert (O1 : -1 < 0 <= 0) by lia.
  assert (O2 : 1 < 5) by lia.
  assert (O3 : 0 <= 1 \/ 5 < 0) by (left; lia).
  assert (NN : Forall (fun st => 0 <= FileID st < 2 ^ 63)
                 [Sample.state 5 false; Sample.state 1 false;
                  Sample.state 3 false])
    by (repeat constructor; simpl; lia).
  destruct itob_order_and_listing as [A B].
  destruct (A (-1) 0 Im I0) as (_ & _ & A3).
  destruct (A 1 5 I1 I5) as (_ & A2 & _).
  destruct (B "alice"%string Sample.alice_store _ sample_alice_live
              sample_alice_provisioned sample_alice_no_states S)
    as (s' & r & Hall & Hst & _ & _ & Hnum & Hex).
  refine (conj Im (conj I0 (conj O1 (conj (A3 O1)
           (conj I1 (conj I5 (conj O2 (conj O3 (conj (A2 O2 O3)
             (conj sample_alice_live (conj sample_alice_provisioned
               (conj sample_alice_no_states (conj S (conj NN _)))))))))))))).
  exists s', r.
  exact (conj Hall (conj Hst (conj (Hnum NN)
           (Hex _ _ _ eq_refl eq_refl eq_refl eq_refl
                eq_refl eq_refl eq_refl)))).
Defined.

(** The claim C2 as it is stated fails at the identifiers -1 and 0: the key
    of -1 is the greatest key there is, and a listing returns the state 0
    before the state -1. *)
Lemma itob_negative_sorts_last :
  int64 (-1) /\ int64 0 /\ -1 < 0 /\
  ~ bytes_lt (itob (-1)) (itob 0) /\
  bytes_compare (itob (-1)) (itob 0) = Gt /\
  exists s',
    save_all [Sample.state (-1) false; Sample.state 0 false]
      "alice" Sample.alice_store = Returns (None, s') /\
    Store.States "alice" s'
      = Returns ([Sample.state 0 false; Sample.state (-1) false], None).
Proof.
  split; [unfold int64; lia|]. split; [unfold int64; lia|].
  split; [lia|]. split; [unfold bytes_lt; now vm_compute|].
  split; [reflexivity|].
  eexists. split; reflexivity.
Qed.

(** ** The further theorems at the sample store *)

Lemma sample_alice_db : db Sample.alice_store = Some Sample.alice_db.
Proof. reflexivity. Qed.

Lemma sample_alice_namespace : has_namespace "alice" Sample.alice_store.
Proof.
  split; [discriminate|]. exists [(downloadItemsBucket, Nested []);
                                   (watchedTorrentsBucket, Nested [])], [], [].
  split; [reflexivity|]. split; reflexivity.
Qed.

Lemma sample_host_sound : sound_host Sample.host.
Proof. intros p d [= <-] k ub H. discriminate. Qed.

Lemma sample_alice_reachable : reachable Sample.host Sample.alice_store.
Proof.
  apply (reach_call (h := Sample.host) (s := Sample.opened_store)
           (CallCreateBuckets "alice") (e := None)); [|reflexivity].
  apply (reach_call (h := Sample.host) (s := NewStore "putio.db")
           CallOpen (e := None)); [|reflexivity].
  apply reach_new.
Qed.

Lemma itob_keys_distinct_witness :
  int64 1 /\ int64 5 /\
  length (itob 1) = 8%nat /\ be_value (itob 1) = uint64 1 /\
  (itob 1 = itob 5 <-> 1 = 5).
Proof.
  assert (I1 : int64 1) by (unfold int64; lia).
  assert (I5 : int64 5) by (unfold int64; lia).
  exact (conj I1 (conj I5 (itob_keys_distinct 1 5 I1 I5))).
Defined.

Lemma unprovisioned_user_panics_witness :
  "bob"%string <> ""%string /\
  db Sample.opened_store = Some Sample.opened_db /\
  opened Sample.opened_db = true /\
  bucket_find (bytes_of_string "bob") (root Sample.opened_db) = None /\
  Store.State 1 "bob" Sample.opened_store = Panics /\
  Store.States "bob" Sample.opened_store = Panics /\
  Store.SaveConfig Sample.config "bob" Sample.opened_store =
  match gob_encode Sample.config with
  | inl msg => Returns (Some (Foreign msg), Sample.opened_store)
  | inr _ => Panics
  end.
Proof.
  assert (H1 : "bob"%string <> ""%string) by discriminate.
  assert (H2 : db Sample.opened_store = Some Sample.opened_db)
    by reflexivity.
  assert (H3 : opened Sample.opened_db = true) by reflexivity.
  assert (H4 : bucket_find (bytes_of_string "bob") (root Sample.opened_db)
               = None) by reflexivity.
  exact (conj H1 (conj H2 (conj H3 (conj H4
           (unprovisioned_user_panics 1 Sample.config "bob"
              Sample.opened_store Sample.opened_db H1 H2 H3 H4))))).
Defined.

Lemma CurrentUser_first_run_witness :
  bolt_Open Sample.host (path (NewStore "putio.db")) = inr Sample.empty_db /\
  root Sample.empty_db = [] /\
  opened Sample.empty_db = true /\
  commit_err Sample.empty_db = None /\
  exists s',
    Store.Open Sample.host (NewStore "putio.db") = Returns (None, s') /\
    Store.CurrentUser s' = Returns (""%string, None).
Proof.
  exact (conj eq_refl (conj eq_refl (conj eq_refl (conj eq_refl
           (CurrentUser_first_run Sample.host (NewStore "putio.db")
              Sample.empty_db eq_refl eq_refl eq_refl eq_refl))))).
Defined.

Lemma SaveCurrentUser_then_CurrentUser_witness :
  db Sample.opened_store = Some Sample.opened_db /\
  opened Sample.opened_db = true /\
  commit_err Sample.opened_db = None /\
  bucket_find defaultsBucket (root Sample.opened_db) = Some (Nested []) /\
  (forall c, bucket_find (bytes_of_string "current-user") []
             <> Some (Nested c)) /\
  Z.of_nat (length (bytes_of_string "alice")) <= MaxValueSize /\
  Z.of_nat (length (bytes_of_string "bob")) <= MaxValueSize /\
  exists s' s'',
    Store.SaveCurrentUser "alice" Sample.opened_store = Returns (None, s') /\
    Store.CurrentUser s' = Returns ("alice"%string, None) /\
    Store.SaveCurrentUser "bob" s' = Returns (None, s'') /\
    Store.CurrentUser s'' = Returns ("bob"%string, None).
Proof.
  assert (H5 : forall c : Bucket,
            bucket_find (bytes_of_string "current-user") []
            <> Some (Nested c)) by (intros c; discriminate).
  assert (H6 : Z.of_nat (length (bytes_of_string "alice")) <= MaxValueSize)
    by now vm_compute.
  assert (H7 : Z.of_nat (length (bytes_of_string "bob")) <= MaxValueSize)
    by now vm_compute.
  exact (conj eq_refl (conj eq_refl (conj eq_refl (conj eq_refl
          (conj H5 (conj H6 (conj H7
            (SaveCurrentUser_then_CurrentUser "alice" "bob"
               Sample.opened_store Sample.opened_db []
               eq_refl eq_refl eq_refl eq_refl H5 H6 H7)))))))).
Defined.

Lemma calls_after_Close_witness :
  db Sample.alice_store = Some Sample.alice_db /\
  opened Sample.alice_db = true /\
  "alice"%string <> ""%string /\
  exists s',
    Store.Close Sample.alice_store
      = Returns (close_err Sample.alice_db, s') /\
    Store.Close s' = Returns (None, s') /\
    Store.CreateBuckets "alice" s' = Returns (Some ErrDatabaseNotOpen, s') /\
    Store.SaveState (Sample.state 1 false) "alice" s'
      = Returns (Some ErrDatabaseNotOpen, s') /\
    Store.SaveConfig Sample.config "alice" s'
      = Returns (Some ErrDatabaseNotOpen, s') /\
    Store.SaveCurrentUser "alice" s'
      = Returns (Some ErrDatabaseNotOpen, s') /\
    Store.State 1 "alice" s'
      = Returns (zero_State, Some ErrDatabaseNotOpen) /\
    Store.States "alice" s' = Returns ([], Some ErrDatabaseNotOpen) /\
    Store.Config Sample.host "alice" s'
      = Returns (Some zero_Config, Some ErrDatabaseNotOpen) /\
    Store.CurrentUser s' = Returns (""%string, Some ErrDatabaseNotOpen).
Proof.
  assert (H3 : "alice"%string <> ""%string) by discriminate.
  exact (conj sample_alice_db (conj eq_refl (conj H3
           (calls_after_Close Sample.host Sample.alice_store Sample.alice_db
              (Sample.state 1 false) Sample.config 1 "alice" "alice"
              sample_alice_db eq_refl H3)))).
Defined.

Lemma writes_all_or_nothing_witness :
  db Sample.full_store = Some Sample.full_opened_db /\
  opened Sample.full_opened_db = true /\
  commit_err Sample.full_opened_db
    = Some (Foreign "no space left on device") /\
  bucket_find (bytes_of_string "bob") (root Sample.full_opened_db) = None /\
  Store.CreateBuckets "bob" Sample.full_store
    = Returns (Some (Foreign "no space left on device"),
               Sample.full_store) /\
  db Sample.foreign_store = Some Sample.foreign_db /\
  opened Sample.foreign_db = true /\
  bucket_find (bytes_of_string "alice") (root Sample.foreign_db)
    = Some (Nested Sample.foreign_bucket) /\
  bucket_find downloadItemsBucket Sample.foreign_bucket = None /\
  bucket_find watchedTorrentsBucket Sample.foreign_bucket
    = Some (Leaf (bytes_of_string "seen")) /\
  Store.CreateBuckets "alice" Sample.foreign_store
    = Returns (Some ErrIncompatibleValue, Sample.foreign_store) /\
  db Sample.two_users = Some Sample.two_users_db /\
  opened Sample.two_users_db = true /\
  run_call Sample.host (CallSaveState (Sample.state 2 false) "bob")
    Sample.two_users = Returns (None, Sample.bob_saved) /\
  written (CallSaveState (Sample.state 2 false) "bob") Sample.bob_saved /\
  run_call Sample.host (CallSaveCurrentUser "alice") Sample.two_users
    = Returns (None, Sample.alice_logged_in) /\
  Store.CurrentUser Sample.alice_logged_in = Returns ("alice"%string, None) /\
  run_call Sample.host (CallCreateBuckets "carol") Sample.two_users
    = Returns (None, Sample.three_users) /\
  has_namespace "carol" Sample.three_users.
Proof.
  assert (Nb : "bob"%string <> ""%string) by discriminate.
  assert (Na : "alice"%string <> ""%string) by discriminate.
  destruct (writes_all_or_nothing Sample.host Sample.full_store
              Sample.full_opened_db eq_refl eq_refl) as (_ & F & _).
  destruct (writes_all_or_nothing Sample.host Sample.foreign_store
              Sample.foreign_db eq_refl eq_refl) as (_ & _ & G).
  destruct (writes_all_or_nothing Sample.host Sample.two_users
              Sample.two_users_db eq_refl eq_refl) as (W & _ & _).
  pose proof (W (CallSaveState (Sample.state 2 false) "bob")
                Sample.bob_saved None
                ltac:(discriminate) ltac:(discriminate)) as W1.
  pose proof (W (CallSaveCurrentUser "alice") Sample.alice_logged_in None
                ltac:(discriminate) ltac:(discriminate)) as W2.
  pose proof (W (CallCreateBuckets "carol") Sample.three_users None
                ltac:(discriminate) ltac:(discriminate)) as W3.
  assert (R1 : run_call Sample.host
                 (CallSaveState (Sample.state 2 false) "bob")
                 Sample.two_users = Returns (None, Sample.bob_saved))
    by reflexivity.
  assert (R2 : run_call Sample.host (CallSaveCurrentUser "alice")
                 Sample.two_users = Returns (None, Sample.alice_logged_in))
    by reflexivity.
  assert (R3 : run_call Sample.host (CallCreateBuckets "carol")
                 Sample.two_users = Returns (None, Sample.three_users))
    by reflexivity.
  exact (conj eq_refl (conj eq_refl (conj eq_refl (conj eq_refl
          (conj (F "bob"%string _ eq_refl Nb eq_refl)
            (conj eq_refl (conj eq_refl (conj eq_refl (conj eq_refl
              (conj eq_refl
                (conj (G "alice"%string _ _ Na eq_refl eq_refl eq_refl)
                  (conj eq_refl (conj eq_refl
                    (conj R1
                      (conj (W1 R1)
                        (conj R2
                          (conj (W2 R2)
                            (conj R3 (W3 R3))))))))))))))))))).
Defined.

Lemma CreateBuckets_empty_user_witness :
  db Sample.alice_store = Some Sample.alice_db /\
  opened Sample.alice_db = true /\
  Store.CreateBuckets "" Sample.alice_store
    = Returns (Some ErrBucketNameRequired, Sample.alice_store).
Proof.
  exact (conj sample_alice_db (conj eq_refl
           (CreateBuckets_empty_user Sample.alice_store Sample.alice_db
              sample_alice_db eq_refl))).
Defined.

Lemma SaveState_touches_one_record_witness :
  Store.SaveState (Sample.state 2 false) "bob" Sample.two_users
    = Returns (None, Sample.bob_saved) /\
  ("alice"%string <> "bob"%string \/
   itob 1 <> itob (FileID (Sample.state 2 false))) /\
  Store.State 1 "alice" Sample.bob_saved
    = Store.State 1 "alice" Sample.two_users /\
  Store.State 1 "alice" Sample.bob_saved
    = Returns (Sample.state 1 false, None) /\
  Store.States "alice" Sample.bob_saved
    = Store.States "alice" Sample.two_users /\
  Store.Config Sample.host "bob" Sample.bob_saved
    = Store.Config Sample.host "bob" Sample.two_users /\
  Store.CurrentUser Sample.bob_saved = Store.CurrentUser Sample.two_users.
Proof.
  assert (H : Store.SaveState (Sample.state 2 false) "bob" Sample.two_users
              = Returns (None, Sample.bob_saved)) by reflexivity.
  assert (N : "alice"%string <> "bob"%string) by discriminate.
  destruct (SaveState_touches_one_record (Sample.state 2 false) "bob"
              Sample.two_users Sample.bob_saved H) as (A & B & C & D).
  exact (conj H (conj (or_introl N)
          (conj (A 1 "alice"%string (or_introl N))
            (conj eq_refl
              (conj (B "alice"%string N)
                (conj (C Sample.host "bob"%string) D)))))).
Defined.

Lemma SaveConfig_touches_one_record_witness :
  Store.SaveConfig zero_Config "bob" Sample.two_users
    = Returns (None, Sample.bob_configured) /\
  "alice"%string <> "bob"%string /\
  Store.State 1 "alice" Sample.bob_configured
    = Store.State 1 "alice" Sample.two_users /\
  Store.States "bob" Sample.bob_configured
    = Store.States "bob" Sample.two_users /\
  Store.Config Sample.host "alice" Sample.bob_configured
    = Store.Config Sample.host "alice" Sample.two_users /\
  Store.Config Sample.host "alice" Sample.bob_configured
    = Returns (Some Sample.config, None) /\
  Store.CurrentUser Sample.bob_configured
    = Store.CurrentUser Sample.two_users.
Proof.
  assert (H : Store.SaveConfig zero_Config "bob" Sample.two_users
              = Returns (None, Sample.bob_configured)) by reflexivity.
  assert (N : "alice"%string <> "bob"%string) by discriminate.
  destruct (SaveConfig_touches_one_record zero_Config "bob"
              Sample.two_users Sample.bob_configured H) as (A & B & C & D).
  exact (conj H (conj N
          (conj (A 1 "alice"%string)
            (conj (B "bob"%string)
              (conj (C Sample.host "alice"%string N)
                (conj eq_refl D)))))).
Defined.

Lemma SaveCurrentUser_touches_one_key_witness :
  Store.SaveCurrentUser "alice" Sample.two_users
    = Returns (None, Sample.alice_logged_in) /\
  Store.State 1 "alice" Sample.alice_logged_in
    = Store.State 1 "alice" Sample.two_users /\
  Store.States "alice" Sample.alice_logged_in
    = Store.States "alice" Sample.two_users /\
  Store.Config Sample.host "defaults" Sample.alice_logged_in
    = Store.Config Sample.host "defaults" Sample.two_users.
Proof.
  assert (H : Store.SaveCurrentUser "alice" Sample.two_users
              = Returns (None, Sample.alice_logged_in)) by reflexivity.
  destruct (SaveCurrentUser_touches_one_key "alice" Sample.two_users
              Sample.alice_logged_in H) as (A & B & C).
  exact (conj H (conj (A 1 "alice"%string)
          (conj (B "alice"%string) (C Sample.host "defaults"%string)))).
Defined.

Lemma Open_provisions_defaults_witness :
  bolt_Open Sample.host (path (NewStore "putio.db")) = inr Sample.empty_db /\
  opened Sample.empty_db = true /\
  commit_err Sample.empty_db = None /\
  (forall v, bucket_find defaultsBucket (root Sample.empty_db)
             <> Some (Leaf v)) /\
  exists d',
    Store.Open Sample.host (NewStore "putio.db")
      = Returns (None, mkStore (path (NewStore "putio.db")) (Some d')) /\
    opened d' = true /\ commit_err d' = None /\
    close_err d' = close_err Sample.empty_db /\
    (exists b, bucket_find defaultsBucket (root d') = Some (Nested b)) /\
    (forall k, k <> defaultsBucket ->
               bucket_find k (root d')
               = bucket_find k (root Sample.empty_db)) /\
    (forall b, bucket_find defaultsBucket (root Sample.empty_db)
               = Some (Nested b) -> d' = Sample.empty_db).
Proof.
  assert (H4 : forall v, bucket_find defaultsBucket (root Sample.empty_db)
                         <> Some (Leaf v)) by (intros v; discriminate).
  exact (conj eq_refl (conj eq_refl (conj eq_refl (conj H4
           (Open_provisions_defaults Sample.host (NewStore "putio.db")
              Sample.empty_db eq_refl eq_refl eq_refl H4))))).
Defined.

Lemma Config_stored_record_witness :
  "alice"%string <> ""%string /\
  db Sample.truncated_store = Some Sample.truncated_db /\
  opened Sample.truncated_db = true /\
  bucket_find (bytes_of_string "alice") (root Sample.truncated_db)
    = Some (Nested Sample.truncated_bucket) /\
  bucket_find (bytes_of_string "config") Sample.truncated_bucket
    = Some (Leaf (itob 5)) /\
  gob_decode (itob 5) zero_Config
    = (mkConfig 5 "" 0 0 0 "" false "" false false,
       Some "unexpected EOF"%string) /\
  Store.Config Sample.homeless "alice" Sample.truncated_store =
  Returns (Some (mkConfig 5 "" 0 0 0 "" false "" false false),
           Some (Foreign "unexpected EOF")).
Proof.
  assert (H1 : "alice"%string <> ""%string) by discriminate.
  assert (D : gob_decode (itob 5) zero_Config
              = (mkConfig 5 "" 0 0 0 "" false "" false false,
                 Some "unexpected EOF"%string)) by reflexivity.
  exact (conj H1 (conj eq_refl (conj eq_refl (conj eq_refl (conj eq_refl
           (conj D
              (Config_stored_record Sample.homeless "alice"
                 Sample.truncated_store Sample.truncated_db
                 Sample.truncated_bucket (itob 5) _ _
                 H1 eq_refl eq_refl eq_refl eq_refl D))))))).
Defined.

Lemma CreateBuckets_loses_nothing_witness :
  Store.CreateBuckets "bob" Sample.alice_saved
    = Returns (None, Sample.two_users) /\
  Store.State 1 "alice" Sample.alice_saved
    = Returns (Sample.state 1 false, None) /\
  Store.State 1 "alice" Sample.two_users
    = Returns (Sample.state 1 false, None) /\
  Store.States "alice" Sample.two_users
    = Returns ([Sample.state 1 false], None) /\
  Store.Config Sample.host "alice" Sample.two_users
    = Returns (Some Sample.config, None) /\
  Store.CurrentUser Sample.two_users = Returns (""%string, None).
Proof.
  assert (H : Store.CreateBuckets "bob" Sample.alice_saved
              = Returns (None, Sample.two_users)) by reflexivity.
  assert (S1 : Store.State 1 "alice" Sample.alice_saved
               = Returns (Sample.state 1 false, None)) by reflexivity.
  destruct (CreateBuckets_loses_nothing "bob" Sample.alice_saved
              Sample.two_users H) as (A & B & C & D).
  exact (conj H (conj S1
          (conj (A 1 "alice"%string _ S1)
            (conj (B "alice"%string _ eq_refl)
              (conj (C Sample.host "alice"%string _ eq_refl)
                    (D _ eq_refl)))))).
Defined.

Lemma States_lists_last_saved_witness :
  live Sample.alice_store /\
  provisioned "alice" Sample.alice_store /\
  downloads "alice" Sample.alice_store = Some [] /\
  Forall storable [Sample.state 5 false; Sample.state 1 false;
                   Sample.state 3 false] /\
  Forall (fun st => int64 (FileID st))
    [Sample.state 5 false; Sample.state 1 false; Sample.state 3 false] /\
  exists s' r,
    save_all [Sample.state 5 false; Sample.state 1 false; Sample.state 3 false]
      "alice" Sample.alice_store = Returns (None, s') /\
    Store.States "alice" s' = Returns (r, None) /\
    NoDup (map FileID r) /\
    (forall x, In x r <->
       last_saved (FileID x)
         [Sample.state 5 false; Sample.state 1 false; Sample.state 3 false]
       = Some x /\ IsHidden x = false).
Proof.
  destruct sample_states_storable as (S & _).
  assert (I : Forall (fun st => int64 (FileID st))
                [Sample.state 5 false; Sample.state 1 false;
                 Sample.state 3 false])
    by (repeat constructor; unfold int64; simpl; lia).
  exact (conj sample_alice_live (conj sample_alice_provisioned
          (conj sample_alice_no_states (conj S (conj I
            (States_lists_last_saved "alice" Sample.alice_store _
               sample_alice_live sample_alice_provisioned
               sample_alice_no_states S I)))))).
Defined.

Lemma reachable_stores_keep_layout_witness :
  sound_host Sample.host /\
  reachable Sample.host Sample.alice_store /\
  has_namespace "alice" Sample.alice_store /\
  provisioned "alice" Sample.alice_store.
Proof.
  exact (conj sample_host_sound (conj sample_alice_reachable
          (conj sample_alice_namespace
            (reachable_stores_keep_layout Sample.host "alice"
               Sample.alice_store sample_host_sound sample_alice_reachable
               sample_alice_namespace)))).
Defined.

Lemma SaveConfig_overwrites_witness :
  live Sample.alice_store /\
  provisioned "alice" Sample.alice_store /\
  storable Sample.config /\ storable zero_Config /\
  exists s1 s2,
    Store.SaveConfig Sample.config "alice" Sample.alice_store
      = Returns (None, s1) /\
    Store.SaveConfig zero_Config "alice" s1 = Returns (None, s2) /\
    Store.Config Sample.host "alice" s2 = Returns (Some zero_Config, None).
Proof.
  assert (S2 : storable zero_Config) by sample_storable.
  exact (conj sample_alice_live (conj sample_alice_provisioned
          (conj sample_config_storable (conj S2
            (SaveConfig_overwrites Sample.host "alice" Sample.alice_store
               Sample.config zero_Config
               sample_alice_live sample_alice_provisioned
               sample_config_storable S2))))).
Defined.

Lemma namespaces_persist_witness :
  CallSaveCurrentUser "alice" <> CallOpen /\
  has_namespace "alice" Sample.two_users /\
  run_call Sample.host (CallSaveCurrentUser "alice") Sample.two_users
    = Returns (None, Sample.alice_logged_in) /\
  has_namespace "alice" Sample.alice_logged_in.
Proof.
  assert (H1 : CallSaveCurrentUser "alice" <> CallOpen) by discriminate.
  assert (H2 : has_namespace "alice" Sample.two_users).
  { split; [discriminate|]. do 3 eexists.
    split; [reflexivity|]. split; reflexivity. }
  assert (H3 : run_call Sample.host (CallSaveCurrentUser "alice")
                 Sample.two_users = Returns (None, Sample.alice_logged_in))
    by reflexivity.
  exact (conj H1 (conj H2 (conj H3
           (namespaces_persist Sample.host (CallSaveCurrentUser "alice")
              "alice" Sample.two_users Sample.alice_logged_in None
              H1 H2 H3)))).
Defined.

Lemma Path_is_constant_witness :
  Store.Path (NewStore "putio.db") = "putio.db"%string /\
  run_call Sample.host CallClose Sample.alice_store
    = Returns (None, Sample.alice_closed) /\
  Store.Path Sample.alice_closed = Store.Path Sample.alice_store.
Proof.
  assert (H : run_call Sample.host CallClose Sample.alice_store
              = Returns (None, Sample.alice_closed)) by reflexivity.
  destruct (Path_is_constant Sample.host CallClose "putio.db"
              Sample.alice_store Sample.alice_closed None) as [A B].
  exact (conj A (conj H (B H))).
Defined.

Lemma DefaultConfig_of_host_witness :
  user_Current Sample.homeless
    = inl (Foreign "user: Current not implemented") /\
  Store.Config Sample.homeless "" Sample.alice_store
    = Returns (None, Some (Foreign "user: Current not implemented")) /\
  user_Current Sample.host = inr (mkOsUser "/home/alice") /\
  exists cfg,
    Store.Config Sample.host "" Sample.alice_store
      = Returns (Some cfg, None) /\
    IsPaused cfg = true /\
    DownloadTo cfg = "/home/alice/putio-sync"%string.
Proof.
  destruct (DefaultConfig_of_host Sample.homeless Sample.alice_store)
    as [A _].
  destruct (DefaultConfig_of_host Sample.host Sample.alice_store)
    as [_ B].
  destruct (B (mkOsUser "/home/alice") eq_refl)
    as (cfg & H1 & H2 & H3 & _).
  refine (conj eq_refl (conj (A _ eq_refl) (conj eq_refl _))).
  exists cfg. exact (conj H1 (conj H2 H3)).
Defined.

Lemma Duration_text_round_trip_witness :
  time_String Sample.timelib 120000000000 <> ""%string /\
  time_ParseDuration Sample.timelib
    (time_String Sample.timelib 120000000000) = inr 120000000000 /\
  snd (Duration.UnmarshalText Sample.timelib (bytes_of_string "2 minutes") 7)
    = Some (Foreign "time: missing unit in duration") /\
  fst (Duration.UnmarshalText Sample.timelib (bytes_of_string "2 minutes") 7)
    = 7 /\
  Duration.UnmarshalText Sample.timelib
    (fst (Duration.MarshalText Sample.timelib 120000000000)) 7
    = (120000000000, None).
Proof.
  assert (H1 : time_String Sample.timelib 120000000000 <> ""%string)
    by discriminate.
  assert (H2 : time_ParseDuration Sample.timelib
                 (time_String Sample.timelib 120000000000)
               = inr 120000000000) by reflexivity.
  assert (H3 : snd (Duration.UnmarshalText Sample.timelib
                      (bytes_of_string "2 minutes") 7)
               = Some (Foreign "time: missing unit in duration"))
    by reflexivity.
  destruct (Duration_text_round_trip Sample.timelib 120000000000 7
              (bytes_of_string "2 minutes")) as (_ & _ & A & B).
  exact (conj H1 (conj H2 (conj H3 (conj (A _ H3) (B H1 H2))))).
Defined.

Lemma CreateBuckets_then_reads_witness :
  db Sample.opened_store = Some Sample.opened_db /\
  opened Sample.opened_db = true /\
  commit_err Sample.opened_db = None /\
  "alice"%string <> ""%string /\
  bucket_find (bytes_of_string "alice") (root Sample.opened_db) = None /\
  exists s',
    Store.CreateBuckets "alice" Sample.opened_store = Returns (None, s') /\
    Store.States "alice" s' = Returns ([], None) /\
    (forall id,
       Store.State id "alice" s'
       = Returns (zero_State, Some ErrStateNotFound)) /\
    (forall h, Store.Config h "alice" s' = Returns (Store.DefaultConfig h)).
Proof.
  assert (H4 : "alice"%string <> ""%string) by discriminate.
  exact (conj eq_refl (conj eq_refl (conj eq_refl (conj H4 (conj eq_refl
           (CreateBuckets_then_reads "alice" Sample.opened_store
              Sample.opened_db eq_refl eq_refl eq_refl H4 eq_refl)))))).
Defined.
